(** * Boot sequencing and Safe Mode fallback of the ocean playground

    A shallow embedding of the boot subsystem of [ocean-playground]:
    the zustand store [useAppState] (its TypeScript and its JavaScript
    variant), the watchdog of [Scene.tsx], the WebGL probe
    [handleCanvasCreated], the promise guard [withTimeout], the GLTF
    preloaders of [safeLoadGLTF.ts] and the object and bubble counts that
    depend on Safe Mode. *)

From Stdlib Require Import ZArith Znumtheory List String Ascii Bool Lia QArith Qminmax
  Qround Lqa Permutation.
Import ListNotations.
Local Open Scope string_scope.
Local Open Scope list_scope.
Local Open Scope Z_scope.

(** ** JavaScript values *)

(** A value of TypeScript type [any]: what [hoveredObject] holds and what a
    [catch] clause may receive. *)
#[warnings="-register-all"]
Inductive JsValue : Type :=
| JsNull
| JsUndefined
| JsBool (b : bool)
| JsNum (q : Q)
| JsStr (s : string)
| JsObj (fields : list (string * JsValue)).

Fixpoint lookupField (k : string) (fields : list (string * JsValue)) : option JsValue :=
  match fields with
  | [] => None
  | (k', v) :: rest => if String.eqb k k' then Some v else lookupField k rest
  end.

(** [new Error(label)] is the object [{ message: label }]. *)
Definition newError (label : string) : JsValue := JsObj [("message", JsStr label)].

(** [error?.message] *)
Definition messageOf (error : JsValue) : option string :=
  match error with
  | JsObj fields =>
      match lookupField "message" fields with
      | Some (JsStr m) => Some m
      | _ => None
      end
  | _ => None
  end.

(** ** The application state ([useAppState.ts]) *)

(** [type BootError = null | 'BOOT_TIMEOUT' | 'WEBGL_FAIL' | 'ASSET_TIMEOUT' |
    'INIT_ERROR']; [null] is [None] of [option BootError]. *)
Inductive BootError : Type := BOOT_TIMEOUT | WEBGL_FAIL | ASSET_TIMEOUT | INIT_ERROR.

Inductive Panel : Type := about | works | contact.
Inductive Theme : Type := theme_default | theme_dark | theme_light.

Record AppState : Type := mkAppState {
  isBooting : bool;
  bootError : option BootError;
  safeMode : bool;
  protocolWarning : bool;
  depth : Q;
  isDiving : bool;
  canResurface : bool;
  activePanel : option Panel;
  hoveredObject : JsValue;
  showUI : bool;
  welcomeMessageShown : bool;
  lowPowerMode : bool;
  prefersReducedMotion : bool;
  isMobile : bool;
  seed : Z;
  objectsVisible : bool;
  theme : Theme
}.

(** The initial store; [seed0] stands for [Math.floor(Math.random() * 10000)]. *)
Definition initialState (seed0 : Z) : AppState :=
  {| isBooting := true; bootError := None; safeMode := false;
     protocolWarning := false;
     depth := 0%Q; isDiving := false; canResurface := false;
     activePanel := None; hoveredObject := JsNull; showUI := true;
     welcomeMessageShown := false;
     lowPowerMode := false; prefersReducedMotion := false; isMobile := false;
     seed := seed0; objectsVisible := true; theme := theme_default |}.

(** The partial object handed to zustand's [set]: the boot actions only ever
    mention these four keys. *)
Record Patch : Type := mkPatch {
  p_isBooting : option bool;
  p_bootError : option (option BootError);
  p_safeMode : option bool;
  p_protocolWarning : option bool
}.

Definition noPatch : Patch :=
  {| p_isBooting := None; p_bootError := None; p_safeMode := None;
     p_protocolWarning := None |}.

Definition orKeep {A : Type} (new : option A) (old : A) : A :=
  match new with Some a => a | None => old end.

(** [set(partial)]: a shallow merge of [partial] into the state. *)
Definition set_ (p : Patch) (s : AppState) : AppState :=
  {| isBooting := orKeep (p_isBooting p) (isBooting s);
     bootError := orKeep (p_bootError p) (bootError s);
     safeMode := orKeep (p_safeMode p) (safeMode s);
     protocolWarning := orKeep (p_protocolWarning p) (protocolWarning s);
     depth := depth s; isDiving := isDiving s; canResurface := canResurface s;
     activePanel := activePanel s; hoveredObject := hoveredObject s;
     showUI := showUI s; welcomeMessageShown := welcomeMessageShown s;
     lowPowerMode := lowPowerMode s;
     prefersReducedMotion := prefersReducedMotion s; isMobile := isMobile s;
     seed := seed s; objectsVisible := objectsVisible s; theme := theme s |}.

(** The fields of the state that no boot action names. *)
Record Rest : Type := mkRest {
  r_depth : Q; r_isDiving : bool; r_canResurface : bool;
  r_activePanel : option Panel; r_hoveredObject : JsValue; r_showUI : bool;
  r_welcomeMessageShown : bool; r_lowPowerMode : bool;
  r_prefersReducedMotion : bool; r_isMobile : bool; r_seed : Z;
  r_objectsVisible : bool; r_theme : Theme
}.

Definition restOf (s : AppState) : Rest :=
  {| r_depth := depth s; r_isDiving := isDiving s;
     r_canResurface := canResurface s; r_activePanel := activePanel s;
     r_hoveredObject := hoveredObject s; r_showUI := showUI s;
     r_welcomeMessageShown := welcomeMessageShown s;
     r_lowPowerMode := lowPowerMode s;
     r_prefersReducedMotion := prefersReducedMotion s;
     r_isMobile := isMobile s; r_seed := seed s;
     r_objectsVisible := objectsVisible s; r_theme := theme s |}.

(** The boot phase as the user interface reads it off the store: the loading
    screen shows while [isBooting]; afterwards the error banner shows exactly
    when [bootError] is set. *)
Inductive BootPhase : Type := Booting | Running | Degraded.

Definition phase (s : AppState) : BootPhase :=
  if isBooting s then Booting
  else match bootError s with
       | Some _ => Degraded
       | None => Running
       end.

(** The triple BootPhase / BootError / SafeModeFlag. *)
Definition bootView (s : AppState) : BootPhase * option BootError * bool :=
  (phase s, bootError s, safeMode s).

(** What the page is served from: [window.location.protocol]. *)
Record Env : Type := mkEnv { protocol : string }.

(** The calls that report on a boot attempt: a completion, or a failure
    with the BootError it records. *)
Inductive Signal : Type :=
| Complete
| Fail (e : BootError).

(** The calls that are written to do nothing outside Booting: the
    completion and the timeout of the watchdog. *)
Definition guardedSignal (c : Signal) : bool :=
  match c with
  | Complete | Fail BOOT_TIMEOUT => true
  | Fail _ => false
  end.

(** The calls that end Booting: all but the failure reports of the loaders,
    which never call [setBooting]. *)
Definition endsBooting (c : Signal) : bool :=
  match c with
  | Fail ASSET_TIMEOUT | Fail INIT_ERROR => false
  | _ => true
  end.

(** ** The objects handed to [set] by the boot actions *)

Definition patchBooting (booting : bool) : Patch :=
  {| p_isBooting := Some booting; p_bootError := None; p_safeMode := None;
     p_protocolWarning := None |}.

Definition patchError (error : option BootError) : Patch :=
  {| p_isBooting := None; p_bootError := Some error; p_safeMode := None;
     p_protocolWarning := None |}.

Definition patchSafe (safe : bool) : Patch :=
  {| p_isBooting := None; p_bootError := None; p_safeMode := Some safe;
     p_protocolWarning := None |}.

Definition patchProtocolWarning (warning : bool) : Patch :=
  {| p_isBooting := None; p_bootError := None; p_safeMode := None;
     p_protocolWarning := Some warning |}.

(** [{ isBooting: true, bootError: null, safeMode: false }] *)
Definition patchRetry : Patch :=
  {| p_isBooting := Some true; p_bootError := Some None;
     p_safeMode := Some false; p_protocolWarning := None |}.

(** [{ safeMode: true, bootError: 'BOOT_TIMEOUT', isBooting: false }] *)
Definition patchWatchdog : Patch :=
  {| p_isBooting := Some false; p_bootError := Some (Some BOOT_TIMEOUT);
     p_safeMode := Some true; p_protocolWarning := None |}.

(** The object built by [setBoot]'s updater from the current state:
    [{ isBooting, bootError, safeMode: safeMode !== null ? safeMode :
    state.safeMode }]. *)
Definition patchBoot (booting : bool) (error : option BootError)
           (safe : option bool) (state : AppState) : Patch :=
  {| p_isBooting := Some booting; p_bootError := Some error;
     p_safeMode := Some (match safe with
                         | Some b => b
                         | None => safeMode state
                         end);
     p_protocolWarning := None |}.

(** ** The TypeScript store *)
Module TS.

Definition setBooting (booting : bool) (s : AppState) : AppState :=
  set_ (patchBooting booting) s.

Definition setError (error : option BootError) (s : AppState) : AppState :=
  set_ (patchError error) s.

Definition setSafe (safe : bool) (s : AppState) : AppState :=
  set_ (patchSafe safe) s.

Definition setProtocolWarning (warning : bool) (s : AppState) : AppState :=
  set_ (patchProtocolWarning warning) s.

(** [initializeBoot]: the protocol check; the development log reads the
    state and changes nothing. *)
Definition initializeBoot (env : Env) (s : AppState) : AppState :=
  if String.eqb (protocol env) "file:"
  then set_ (patchProtocolWarning true) s
  else s.

(** [retryBoot]: the reset, then [get().initializeBoot()]. *)
Definition retryBoot (env : Env) (s : AppState) : AppState :=
  initializeBoot env (set_ patchRetry s).

(** The success path of [handleCanvasCreated] and [BootMark]. *)
Definition complete (s : AppState) : AppState := setBooting false s.

(** The failure reports, each as the code writes its BootError:
    - [WEBGL_FAIL], the [catch] of [handleCanvasCreated] in [Scene.tsx]:
      [setSafe(true)], [setError('WEBGL_FAIL')], [setBooting(false)], in
      this order and in every state;
    - [BOOT_TIMEOUT], the body of the watchdog's timeout: the same three
      calls with ['BOOT_TIMEOUT'], behind [if (isBooting)];
    - [ASSET_TIMEOUT] and [INIT_ERROR], the [catch] of [safePreloadGLTF]:
      [setError(...)], [setSafe(true)], and no [setBooting]. *)
Definition fail (e : BootError) (s : AppState) : AppState :=
  match e with
  | WEBGL_FAIL => setBooting false (setError (Some WEBGL_FAIL) (setSafe true s))
  | BOOT_TIMEOUT =>
      if isBooting s
      then setBooting false (setError (Some BOOT_TIMEOUT) (setSafe true s))
      else s
  | ASSET_TIMEOUT | INIT_ERROR => setSafe true (setError (Some e) s)
  end.

Definition signal (c : Signal) (s : AppState) : AppState :=
  match c with
  | Complete => complete s
  | Fail e => fail e s
  end.

Definition run (calls : list Signal) (s : AppState) : AppState :=
  fold_left (fun st c => signal c st) calls s.

End TS.

(** ** The JavaScript store *)
Module JS.

(** [setBoot(isBooting, bootError = null, safeMode = null)]: an omitted
    [bootError] is [null]; an omitted or [null] [safeMode] keeps the
    current flag. *)
Definition setBoot (booting : bool) (error : option BootError)
           (safe : option bool) (s : AppState) : AppState :=
  set_ (patchBoot booting error safe s) s.

Definition setError (errorType : option BootError) (s : AppState) : AppState :=
  set_ (patchError errorType) s.

Definition setSafe (safe : bool) (s : AppState) : AppState :=
  set_ (patchSafe safe) s.

Definition setProtocolWarning (warning : bool) (s : AppState) : AppState :=
  set_ (patchProtocolWarning warning) s.

Definition retryBoot (s : AppState) : AppState := set_ patchRetry s.

(** [App.jsx], [handleCanvasCreated]: [setBoot(false)] on success. *)
Definition complete (s : AppState) : AppState := setBoot false None None s.

(** The failure reports of this store:
    - [WEBGL_FAIL], the [catch] of [handleCanvasCreated] in [App.jsx]:
      [setBoot(false, 'WEBGL_FAIL', true)], in every state;
    - [BOOT_TIMEOUT], the timeout of [initializeBoot]:
      [set({ safeMode: true, bootError: 'BOOT_TIMEOUT', isBooting: false })]
      behind [if (isBooting)];
    - [ASSET_TIMEOUT] and [INIT_ERROR], the [catch] of [safePreloadGLTF]:
      [setError(...)], [setSafe(true)]. *)
Definition fail (e : BootError) (s : AppState) : AppState :=
  match e with
  | WEBGL_FAIL => setBoot false (Some WEBGL_FAIL) (Some true) s
  | BOOT_TIMEOUT => if isBooting s then set_ patchWatchdog s else s
  | ASSET_TIMEOUT | INIT_ERROR => setSafe true (setError (Some e) s)
  end.

Definition signal (c : Signal) (s : AppState) : AppState :=
  match c with
  | Complete => complete s
  | Fail e => fail e s
  end.

Definition run (calls : list Signal) (s : AppState) : AppState :=
  fold_left (fun st c => signal c st) calls s.

(** [BootLoader], the button labelled "Continue in Safe Mode":
    [onClick={() => useAppState.getState().setBoot(false, null, false)}]. *)
Definition continueInSafeMode (s : AppState) : AppState :=
  setBoot false None (Some false) s.

End JS.

(** ** Timers, subscriptions and the fake clock

    The store together with what the browser holds for it: the pending
    [setTimeout] callbacks, the listeners registered through
    [useAppState.subscribe(state => state.isBooting, ...)], the refs of the
    [Scene] component, and a clock in milliseconds. *)
Module Boot.

Inductive Callback : Type :=
| SceneWatchdog   (* the timeout body of Scene.tsx *)
| StoreWatchdog   (* the timeout body of the JavaScript initializeBoot *)
| BootMarkDone.   (* BootMark's delayed setBooting(false) *)

Record Timer : Type := mkTimer {
  timerId : nat;
  due : Z;
  callback : Callback
}.

Inductive Listener : Type :=
| SceneListener                      (* Scene.tsx, "Clear watchdog when boot completes" *)
| StoreListener (watchdogTimer : nat). (* initializeBoot, "Clear timer when boot completes" *)

Definition listener_eqb (a b : Listener) : bool :=
  match a, b with
  | SceneListener, SceneListener => true
  | StoreListener i, StoreListener j => Nat.eqb i j
  | _, _ => false
  end.

Record World : Type := mkWorld {
  store : AppState;
  now : Z;
  timers : list Timer;          (* pending timeouts, in creation order *)
  nextTimerId : nat;
  listeners : list Listener;
  watchdogRef : option nat;     (* Scene: watchdogRef.current *)
  initGuardRef : bool;          (* Scene: initGuardRef.current *)
  bootMarkRef : bool;           (* BootMark: bootMarkRef.current *)
  log : list Patch              (* every object merged by set, oldest first *)
}.

Definition freshWorld (s : AppState) : World :=
  {| store := s; now := 0; timers := []; nextTimerId := O; listeners := [];
     watchdogRef := None; initGuardRef := false; bootMarkRef := false;
     log := [] |}.

Definition withStore (s : AppState) (p : Patch) (w : World) : World :=
  {| store := s; now := now w; timers := timers w;
     nextTimerId := nextTimerId w; listeners := listeners w;
     watchdogRef := watchdogRef w; initGuardRef := initGuardRef w;
     bootMarkRef := bootMarkRef w; log := log w ++ [p] |}.

Definition withTimers (ts : list Timer) (w : World) : World :=
  {| store := store w; now := now w; timers := ts;
     nextTimerId := nextTimerId w; listeners := listeners w;
     watchdogRef := watchdogRef w; initGuardRef := initGuardRef w;
     bootMarkRef := bootMarkRef w; log := log w |}.

Definition withNow (t : Z) (w : World) : World :=
  {| store := store w; now := t; timers := timers w;
     nextTimerId := nextTimerId w; listeners := listeners w;
     watchdogRef := watchdogRef w; initGuardRef := initGuardRef w;
     bootMarkRef := bootMarkRef w; log := log w |}.

Definition withListeners (ls : list Listener) (w : World) : World :=
  {| store := store w; now := now w; timers := timers w;
     nextTimerId := nextTimerId w; listeners := ls;
     watchdogRef := watchdogRef w; initGuardRef := initGuardRef w;
     bootMarkRef := bootMarkRef w; log := log w |}.

Definition withWatchdogRef (r : option nat) (w : World) : World :=
  {| store := store w; now := now w; timers := timers w;
     nextTimerId := nextTimerId w; listeners := listeners w;
     watchdogRef := r; initGuardRef := initGuardRef w;
     bootMarkRef := bootMarkRef w; log := log w |}.

Definition withInitGuardRef (b : bool) (w : World) : World :=
  {| store := store w; now := now w; timers := timers w;
     nextTimerId := nextTimerId w; listeners := listeners w;
     watchdogRef := watchdogRef w; initGuardRef := b;
     bootMarkRef := bootMarkRef w; log := log w |}.

Definition withBootMarkRef (b : bool) (w : World) : World :=
  {| store := store w; now := now w; timers := timers w;
     nextTimerId := nextTimerId w; listeners := listeners w;
     watchdogRef := watchdogRef w; initGuardRef := initGuardRef w;
     bootMarkRef := b; log := log w |}.

(** [setTimeout(callback, delay)] for the delays of the boot code, 8000 and
    100, which a timer keeps as they are; the new timer goes behind the
    pending ones and its id is returned. *)
Definition setTimeout (cb : Callback) (delay : Z) (w : World) : nat * World :=
  let id := nextTimerId w in
  let tm := {| timerId := id; due := now w + delay; callback := cb |} in
  (id,
   {| store := store w; now := now w; timers := timers w ++ [tm];
      nextTimerId := S id; listeners := listeners w;
      watchdogRef := watchdogRef w; initGuardRef := initGuardRef w;
      bootMarkRef := bootMarkRef w; log := log w |}).

(** [clearTimeout(id)]: nothing happens for a timer that is gone. *)
Definition clearTimeout (id : nat) (w : World) : World :=
  withTimers (filter (fun tm => negb (Nat.eqb (timerId tm) id)) (timers w)) w.

Definition unsubscribe (l : Listener) (w : World) : World :=
  withListeners (filter (fun l' => negb (listener_eqb l' l)) (listeners w)) w.

(** The body of a listener, called with the new value of [isBooting]. *)
Definition runListener (l : Listener) (booting : bool) (w : World) : World :=
  match l with
  | SceneListener =>
      match booting, watchdogRef w with
      | false, Some id => withWatchdogRef None (clearTimeout id w)
      | _, _ => w
      end
  | StoreListener id =>
      if booting then w else unsubscribe l (clearTimeout id w)
  end.

(** [subscribeWithSelector]: the listeners run when the selected value,
    [state.isBooting], is not the one before the [set]. *)
Definition notify (before : bool) (w : World) : World :=
  let after := isBooting (store w) in
  if Bool.eqb before after then w
  else fold_left (fun acc l => runListener l after acc) (listeners w) w.

(** [set(updater)] on the subscribed store. *)
Definition setState (updater : AppState -> Patch) (w : World) : World :=
  let p := updater (store w) in
  notify (isBooting (store w)) (withStore (set_ p (store w)) p w).

Definition setBooting (booting : bool) : World -> World :=
  setState (fun _ => patchBooting booting).
Definition setError (error : option BootError) : World -> World :=
  setState (fun _ => patchError error).
Definition setSafe (safe : bool) : World -> World :=
  setState (fun _ => patchSafe safe).
Definition setBoot (booting : bool) (error : option BootError)
           (safe : option bool) : World -> World :=
  setState (patchBoot booting error safe).

(** The bodies of the timeouts. *)
Definition runCallback (cb : Callback) (w : World) : World :=
  match cb with
  | SceneWatchdog =>
      if isBooting (store w)
      then setBooting false (setError (Some BOOT_TIMEOUT) (setSafe true w))
      else w
  | StoreWatchdog =>
      if isBooting (store w)
      then setState (fun _ => patchWatchdog) w
      else w
  | BootMarkDone => setBooting false w
  end.

(** [Scene]'s first effect: the 8-second watchdog behind [initGuardRef]. *)
Definition watchdogEffect (w : World) : World :=
  if initGuardRef w then w
  else
    let (id, w') := setTimeout SceneWatchdog 8000 (withInitGuardRef true w) in
    withWatchdogRef (Some id) w'.

(** The cleanup returned by that effect. *)
Definition watchdogCleanup (w : World) : World :=
  match watchdogRef w with
  | Some id => withWatchdogRef None (clearTimeout id w)
  | None => w
  end.

(** [Scene]'s second effect: the subscription. *)
Definition subscribeEffect (w : World) : World :=
  withListeners (listeners w ++ [SceneListener]) w.

(** The cleanup returned by the second effect: [unsubscribe]. *)
Definition subscribeCleanup (w : World) : World :=
  unsubscribe SceneListener w.

(** The effects of [Scene], run once: a production build. *)
Definition sceneMount (w : World) : World :=
  subscribeEffect (watchdogEffect w).

(** The effects of [Scene] under [<React.StrictMode>], in which the entry
    point renders the application: in a development build React runs the
    effects of a component that mounts, runs their cleanups, and runs the
    effects again, with the refs of the component kept. *)
Definition sceneStrictMount (w : World) : World :=
  sceneMount (subscribeCleanup (watchdogCleanup (sceneMount w))).

(** [BootMark]'s effect. *)
Definition bootMarkEffect (w : World) : World :=
  if bootMarkRef w then w
  else snd (setTimeout BootMarkDone 100 (withBootMarkRef true w)).

(** [initializeBoot] of the TypeScript store: the protocol check only. *)
Definition initializeBootTS (env : Env) (w : World) : World :=
  if String.eqb (protocol env) "file:"
  then setState (fun _ => patchProtocolWarning true) w
  else w.

(** [retryBoot] of the TypeScript store. *)
Definition retryBootTS (env : Env) (w : World) : World :=
  initializeBootTS env (setState (fun _ => patchRetry) w).

(** [initializeBoot] of the JavaScript store: protocol check, watchdog
    timer, and the listener that clears it. *)
Definition initializeBootJS (env : Env) (w : World) : World :=
  let w1 := if String.eqb (protocol env) "file:"
            then setState (fun _ => patchProtocolWarning true) w
            else w in
  let (id, w2) := setTimeout StoreWatchdog 8000 w1 in
  withListeners (listeners w2 ++ [StoreListener id]) w2.

(** [retryBoot] of the JavaScript store. *)
Definition retryBootJS (w : World) : World :=
  setState (fun _ => patchRetry) w.

(** *** The clock *)

(** Stable insertion by due time: timers due together run in creation
    order. *)
Fixpoint insertByDue (tm : Timer) (sorted : list Timer) : list Timer :=
  match sorted with
  | [] => [tm]
  | x :: rest =>
      if due tm <? due x then tm :: x :: rest
      else x :: insertByDue tm rest
  end.

Definition sortByDue (ts : list Timer) : list Timer :=
  fold_left (fun acc tm => insertByDue tm acc) ts [].

Definition pending (id : nat) (w : World) : bool :=
  existsb (fun tm => Nat.eqb (timerId tm) id) (timers w).

(** Runs the timers of [queue], each at its due time, unless it was
    cleared in the meantime. No callback of this program sets a new
    timeout, so the queue taken when the clock starts moving is complete. *)
Fixpoint fire (queue : list Timer) (w : World) : World :=
  match queue with
  | [] => w
  | tm :: rest =>
      if pending (timerId tm) w
      then fire rest
             (runCallback (callback tm)
                (withNow (Z.max (now w) (due tm)) (clearTimeout (timerId tm) w)))
      else fire rest w
  end.

(** Lets the clock run up to time [t]. *)
Definition advanceTo (t : Z) (w : World) : World :=
  let w' := fire (sortByDue (filter (fun tm => due tm <=? t) (timers w))) w in
  withNow (Z.max (now w') t) w'.

(** How often [BOOT_TIMEOUT] was written to the store. *)
Definition isTimeoutPatch (p : Patch) : bool :=
  match p_bootError p with
  | Some (Some BOOT_TIMEOUT) => true
  | _ => false
  end.

Definition timeoutCount (w : World) : nat :=
  List.length (filter isTimeoutPatch (log w)).

End Boot.

(** ** The WebGL probe of [Scene.tsx] *)
Module Canvas.

(** What a call into the rendering context does: it returns or it throws. *)
Inductive Call (A : Type) : Type :=
| Returns (a : A)
| Throws (e : JsValue).
Arguments Returns {A} a.
Arguments Throws {A} e.

Definition bind {A B : Type} (c : Call A) (k : A -> Call B) : Call B :=
  match c with
  | Returns a => k a
  | Throws e => Throws e
  end.

Notation "x <- c ;; k" := (bind c (fun x => k))
  (at level 61, c at next level, right associativity).
Notation "c ;;; k" := (bind c (fun _ => k))
  (at level 61, right associativity).

(** The extension object [WEBGL_debug_renderer_info]. *)
Record Extension : Type := mkExtension { UNMASKED_RENDERER_WEBGL : Z }.

(** The WebGL context, by what each call the handler makes on it does. *)
Record WebGLContext : Type := mkContext {
  clearColor : Call unit;
  clear : Call unit;
  getExtension : Call (option Extension);   (* null when unsupported *)
  getParameter : Extension -> Call JsValue
}.

(** The renderer [gl]: [getContext] may be missing; called, it returns a
    context or null, or throws. *)
Record Renderer : Type := mkRenderer {
  getContext : option (Call (option WebGLContext))
}.

Record Camera : Type := mkCamera {
  updateProjectionMatrixIsFunction : bool
}.

(** The statements of the [try] block ahead of [setBooting(false)];
    [dev] is [import.meta.env.DEV]. *)
Definition probe (dev : bool) (gl : option Renderer) (camera : option Camera)
  : Call unit :=
  getCtx <- match gl with
            | None => Throws (newError "No WebGL context available")
            | Some r =>
                match getContext r with
                | None => Throws (newError "No WebGL context available")
                | Some call => Returns call
                end
            end ;;
  maybeContext <- getCtx ;;
  context <- match maybeContext with
             | None => Throws (newError "Failed to get WebGL context")
             | Some c => Returns c
             end ;;
  clearColor context ;;;
  clear context ;;;
  extension <- getExtension context ;;
  match extension with
  | Some ext => if dev then (getParameter context ext ;;; Returns tt)
                else Returns tt
  | None => Returns tt
  end ;;;
  match camera with
  | Some cam =>
      if updateProjectionMatrixIsFunction cam then Returns tt
      else Throws (newError "Camera initialization failed")
  | None => Throws (newError "Camera initialization failed")
  end.

(** [handleCanvasCreated({ gl, camera })] *)
Definition handleCanvasCreated (dev : bool) (gl : option Renderer)
           (camera : option Camera) (w : Boot.World) : Boot.World :=
  match probe dev gl camera with
  | Returns _ => Boot.setBooting false w
  | Throws _ =>
      Boot.setBooting false
        (Boot.setError (Some WEBGL_FAIL) (Boot.setSafe true w))
  end.

(** The ways the probe can fail, one per statement of the [try] block. *)
Inductive ProbeFails (dev : bool) : option Renderer -> option Camera -> Prop :=
| NoRenderer : forall camera, ProbeFails dev None camera
| NoGetContext : forall camera,
    ProbeFails dev (Some {| getContext := None |}) camera
| GetContextThrows : forall e camera,
    ProbeFails dev (Some {| getContext := Some (Throws e) |}) camera
| NullContext : forall camera,
    ProbeFails dev (Some {| getContext := Some (Returns None) |}) camera
| ClearColorThrows : forall c e camera,
    clearColor c = Throws e ->
    ProbeFails dev (Some {| getContext := Some (Returns (Some c)) |}) camera
| ClearThrows : forall c e camera,
    clear c = Throws e ->
    ProbeFails dev (Some {| getContext := Some (Returns (Some c)) |}) camera
| GetExtensionThrows : forall c e camera,
    getExtension c = Throws e ->
    ProbeFails dev (Some {| getContext := Some (Returns (Some c)) |}) camera
| GetParameterThrows : forall c ext e camera,
    dev = true ->
    getExtension c = Returns (Some ext) ->
    getParameter c ext = Throws e ->
    ProbeFails dev (Some {| getContext := Some (Returns (Some c)) |}) camera
| NoCamera : forall gl, ProbeFails dev gl None
| CameraInvalid : forall gl,
    ProbeFails dev gl (Some {| updateProjectionMatrixIsFunction := false |}).

End Canvas.

(** ** The promise guard [withTimeout] ([utils/withTimeout.ts]) *)
Module Guard.

Inductive Outcome (T : Type) : Type :=
| Fulfilled (value : T)
| Rejected (reason : JsValue).
Arguments Fulfilled {T} value.
Arguments Rejected {T} reason.

(** The promise handed to the guard, as the event loop will see it after
    the call: settled already, settling in a task [t] milliseconds later,
    or pending for ever. *)
Inductive Operation (T : Type) : Type :=
| AlreadySettled (o : Outcome T)
| SettlesAfter (t : Z) (o : Outcome T)
| NeverSettles.
Arguments AlreadySettled {T} o.
Arguments SettlesAfter {T} t o.
Arguments NeverSettles {T}.

(** What the event loop runs for one guard: the reaction registered with
    [promise.then(...).catch(...)], or the body of the timeout. *)
Inductive Job (T : Type) : Type :=
| Reaction (o : Outcome T)
| TimeoutBody.
Arguments Reaction {T} o.
Arguments TimeoutBody {T}.

(** The promise returned by the guard and its timer. *)
Record GuardState (T : Type) : Type := mkGuard {
  settled : option (Outcome T);
  timerPending : bool
}.
Arguments mkGuard {T} settled timerPending.
Arguments settled {T} g.
Arguments timerPending {T} g.

(** [resolve] and [reject] of [new Promise]: only the first call counts. *)
Definition settle {T : Type} (o : Outcome T) (g : GuardState T) : GuardState T :=
  match settled g with
  | Some _ => g
  | None => {| settled := Some o; timerPending := timerPending g |}
  end.

Definition clearTimeoutId {T : Type} (g : GuardState T) : GuardState T :=
  {| settled := settled g; timerPending := false |}.

Definition runJob {T : Type} (label : string) (g : GuardState T) (j : Job T)
  : GuardState T :=
  match j with
  | Reaction (Fulfilled result) => settle (Fulfilled result) (clearTimeoutId g)
  | Reaction (Rejected error) => settle (Rejected error) (clearTimeoutId g)
  | TimeoutBody =>
      if timerPending g
      then settle (Rejected (newError label)) (clearTimeoutId g)
      else g
  end.

(** Stable insertion of a task by its due time. *)
Fixpoint enqueue {T : Type} (d : Z) (j : Job T) (queue : list (Z * Job T))
  : list (Z * Job T) :=
  match queue with
  | [] => [(d, j)]
  | (d', j') :: rest =>
      if d <? d' then (d, j) :: (d', j') :: rest
      else (d', j') :: enqueue d j rest
  end.

(** The longest delay of a timer, in milliseconds: 2^31 - 1. *)
Definition TIMEOUT_MAX : Z := 2147483647.

(** The delay that [setTimeout(callback, ms)] gives its timer, for a
    deadline in whole milliseconds. The timers of Node keep a delay from 1
    to [TIMEOUT_MAX] and set every other one, a delay below 1 as well as
    one that does not fit 32 bits, to 1:
    [if (!(after >= 1 && after <= TIMEOUT_MAX)) after = 1]. *)
Definition timerDelay (ms : Z) : Z :=
  if (1 <=? ms) && (ms <=? TIMEOUT_MAX) then ms else 1.

(** The order in which the event loop runs the jobs of one guard. The
    reaction of a settled promise is a microtask and runs ahead of every
    timer. A settlement that is still to come was set off before the
    guard's timer was created, so of two tasks due together it is the
    earlier one. The guard's timer is due after [timerDelay ms]. *)
Definition agenda {T : Type} (op : Operation T) (ms : Z) : list (Job T) :=
  match op with
  | AlreadySettled o => [Reaction o; TimeoutBody]
  | SettlesAfter t o =>
      map snd (enqueue (timerDelay ms) TimeoutBody [(Z.max 0 t, Reaction o)])
  | NeverSettles => [TimeoutBody]
  end.

(** [withTimeout(promise, ms, label)]: how the returned promise ends up;
    [None] would be a promise that stays pending. *)
Definition withTimeout {T : Type} (promise : Operation T) (ms : Z)
           (label : string) : option (Outcome T) :=
  settled (fold_left (runJob label) (agenda promise ms)
                     {| settled := None; timerPending := true |}).

Definition defaultMs : Z := 6000.
Definition defaultLabel : string := "TIMEOUT".

End Guard.

(** ** The GLTF preloaders ([components/objects/safeLoadGLTF.ts]) *)
Module Gltf.
Import Guard.

(** Code that reads and writes the store and returns a value. *)
Definition M (A : Type) : Type := AppState -> A * AppState.
Definition ret {A : Type} (a : A) : M A := fun s => (a, s).
Definition bindM {A B : Type} (m : M A) (k : A -> M B) : M B :=
  fun s => let (a, s') := m s in k a s'.
Definition modify (f : AppState -> AppState) : M unit := fun s => (tt, f s).

Notation "x <~ c ;; k" := (bindM c (fun x => k))
  (at level 61, c at next level, right associativity).
Notation "c ;;~ k" := (bindM c (fun _ => k))
  (at level 61, right associativity).

(** [useGLTF.preload(path)] returns ([None]) or throws ([Some e]). *)
Definition Preload : Type := string -> option JsValue.

(** The promise wrapped around [useGLTF.preload]: its executor resolves or
    rejects before it returns. *)
Definition preloadPromise (preload : Preload) (path : string) : Operation unit :=
  match preload path with
  | None => AlreadySettled (Fulfilled tt)
  | Some error => AlreadySettled (Rejected error)
  end.

Definition isAssetTimeout (error : JsValue) : bool :=
  match messageOf error with
  | Some m => String.eqb m "ASSET_TIMEOUT"
  | None => false
  end.

(** [safePreloadGLTF(path, timeoutMs)]; the result is how the promise of
    the async function ends up. *)
Definition safePreloadGLTF (preload : Preload) (path : string) (timeoutMs : Z)
  : M (option (Outcome bool)) :=
  match withTimeout (preloadPromise preload path) timeoutMs "ASSET_TIMEOUT" with
  | None => ret None
  | Some (Fulfilled _) => ret (Some (Fulfilled true))
  | Some (Rejected error) =>
      (if isAssetTimeout error
       then modify (set_ (patchError (Some ASSET_TIMEOUT)))
       else modify (set_ (patchError (Some INIT_ERROR)))) ;;~
      modify (set_ (patchSafe true)) ;;~
      ret (Some (Fulfilled false))
  end.

(** [paths.map(path => safePreloadGLTF(path, individualTimeout))]: the
    loads touch the store only after their [await], in the order of
    [paths]. *)
Fixpoint startAll (preload : Preload) (paths : list string) (timeoutMs : Z)
  : M (list (option (Outcome bool))) :=
  match paths with
  | [] => ret []
  | path :: rest =>
      r <~ safePreloadGLTF preload path timeoutMs ;;
      rs <~ startAll preload rest timeoutMs ;;
      ret (r :: rs)
  end.

(** [Promise.allSettled]: settles once every input has settled. *)
Fixpoint allSettled {T : Type} (promises : list (option (Outcome T)))
  : option (list (Outcome T)) :=
  match promises with
  | [] => Some []
  | None :: _ => None
  | Some o :: rest =>
      match allSettled rest with
      | Some os => Some (o :: os)
      | None => None
      end
  end.

(** The body of [results.forEach((result, index) => ...)]. *)
Definition sortResult (paths : list string)
           (acc : list string * list string) (entry : nat * Outcome bool)
  : list string * list string :=
  let (index, result) := entry in
  let (success, failed) := acc in
  let path := nth index paths "" in
  match result with
  | Fulfilled true => (success ++ [path], failed)
  | _ => (success, failed ++ [path])
  end.

Definition indexed {A : Type} (l : list A) : list (nat * A) :=
  combine (seq 0 (List.length l)) l.

(** [batchPreloadGLTF(paths, individualTimeout, allowPartialFailure)] *)
Definition batchPreloadGLTF (preload : Preload) (paths : list string)
           (individualTimeout : Z) (allowPartialFailure : bool)
  : M (option (Outcome (list string * list string))) :=
  promises <~ startAll preload paths individualTimeout ;;
  match allSettled promises with
  | None => ret None
  | Some results =>
      let (success, failed) :=
        fold_left (sortResult paths) (indexed results) ([], []) in
      (if Nat.eqb (List.length success) 0 && negb allowPartialFailure
       then modify (set_ (patchSafe true)) ;;~
            modify (set_ (patchError (Some ASSET_TIMEOUT)))
       else ret tt) ;;~
      ret (Some (Fulfilled (success, failed)))
  end.

(** Whether the load of [path] succeeds: [useGLTF.preload] did not throw. *)
Definition loads (preload : Preload) (path : string) : bool :=
  match preload path with
  | None => true
  | Some _ => false
  end.

End Gltf.

(** ** Counts that depend on Safe Mode and on the device *)
Module Quality.

Record Device : Type := mkDevice {
  d_lowPowerMode : bool;
  d_isMobile : bool;
  d_prefersReducedMotion : bool
}.

(** [SafeObjectsCluster.tsx]:
    [safeMode ? 2 : (lowPowerMode ? 2 : (isMobile ? 3 : 3))] *)
Definition mainObjectCount (safe lowPower mobile : bool) : Z :=
  if safe then 2 else (if lowPower then 2 else (if mobile then 3 else 3)).

(** [safeMode ? 3 : (lowPowerMode ? 5 : (isMobile ? 8 : 12))] *)
Definition decorativeCount (safe lowPower mobile : bool) : Z :=
  if safe then 3 else (if lowPower then 5 else (if mobile then 8 else 12)).

(** [EnhancedBubbleSystem]:
    [if (lowPowerMode) return 30; return isMobile ? 60 : 150] *)
Definition bubbleCount (mobile lowPower : bool) : Z :=
  if lowPower then 30 else (if mobile then 60 else 150).

Record QualitySettings : Type := mkQuality {
  q_mainObjectCount : Z;
  q_decorativeCount : Z;
  q_bubbleCount : Z
}.

(** The counts the components derive from the store, gathered in one
    record. Each component reads the flags itself; none reads the phase. *)
Definition computeQuality (ph : BootPhase) (safe : bool) (device : Device)
  : QualitySettings :=
  {| q_mainObjectCount :=
       mainObjectCount safe (d_lowPowerMode device) (d_isMobile device);
     q_decorativeCount :=
       decorativeCount safe (d_lowPowerMode device) (d_isMobile device);
     q_bubbleCount := bubbleCount (d_isMobile device) (d_lowPowerMode device) |}.

End Quality.

(** ** The other actions of the store ([useAppState.ts])

    [set({ key: value })] for the keys outside the boot system, one function
    per key; an object with several keys is the composition of its keys. *)
Module Store.

Definition withDepth (v : Q) (s : AppState) : AppState :=
  {| isBooting := isBooting s; bootError := bootError s;
     safeMode := safeMode s; protocolWarning := protocolWarning s;
     depth := v; isDiving := isDiving s; canResurface := canResurface s;
     activePanel := activePanel s; hoveredObject := hoveredObject s;
     showUI := showUI s; welcomeMessageShown := welcomeMessageShown s;
     lowPowerMode := lowPowerMode s;
     prefersReducedMotion := prefersReducedMotion s; isMobile := isMobile s;
     seed := seed s; objectsVisible := objectsVisible s; theme := theme s |}.

Definition withIsDiving (v : bool) (s : AppState) : AppState :=
  {| isBooting := isBooting s; bootError := bootError s;
     safeMode := safeMode s; protocolWarning := protocolWarning s;
     depth := depth s; isDiving := v; canResurface := canResurface s;
     activePanel := activePanel s; hoveredObject := hoveredObject s;
     showUI := showUI s; welcomeMessageShown := welcomeMessageShown s;
     lowPowerMode := lowPowerMode s;
     prefersReducedMotion := prefersReducedMotion s; isMobile := isMobile s;
     seed := seed s; objectsVisible := objectsVisible s; theme := theme s |}.

Definition withCanResurface (v : bool) (s : AppState) : AppState :=
  {| isBooting := isBooting s; bootError := bootError s;
     safeMode := safeMode s; protocolWarning := protocolWarning s;
     depth := depth s; isDiving := isDiving s; canResurface := v;
     activePanel := activePanel s; hoveredObject := hoveredObject s;
     showUI := showUI s; welcomeMessageShown := welcomeMessageShown s;
     lowPowerMode := lowPowerMode s;
     prefersReducedMotion := prefersReducedMotion s; isMobile := isMobile s;
     seed := seed s; objectsVisible := objectsVisible s; theme := theme s |}.

Definition withActivePanel (v : option Panel) (s : AppState) : AppState :=
  {| isBooting := isBooting s; bootError := bootError s;
     safeMode := safeMode s; protocolWarning := protocolWarning s;
     depth := depth s; isDiving := isDiving s;
     canResurface := canResurface s; activePanel := v;
     hoveredObject := hoveredObject s; showUI := showUI s;
     welcomeMessageShown := welcomeMessageShown s;
     lowPowerMode := lowPowerMode s;
     prefersReducedMotion := prefersReducedMotion s; isMobile := isMobile s;
     seed := seed s; objectsVisible := objectsVisible s; theme := theme s |}.

Definition withHoveredObject (v : JsValue) (s : AppState) : AppState :=
  {| isBooting := isBooting s; bootError := bootError s;
     safeMode := safeMode s; protocolWarning := protocolWarning s;
     depth := depth s; isDiving := isDiving s;
     canResurface := canResurface s; activePanel := activePanel s;
     hoveredObject := v; showUI := showUI s;
     welcomeMessageShown := welcomeMessageShown s;
     lowPowerMode := lowPowerMode s;
     prefersReducedMotion := prefersReducedMotion s; isMobile := isMobile s;
     seed := seed s; objectsVisible := objectsVisible s; theme := theme s |}.

Definition withShowUI (v : bool) (s : AppState) : AppState :=
  {| isBooting := isBooting s; bootError := bootError s;
     safeMode := safeMode s; protocolWarning := protocolWarning s;
     depth := depth s; isDiving := isDiving s;
     canResurface := canResurface s; activePanel := activePanel s;
     hoveredObject := hoveredObject s; showUI := v;
     welcomeMessageShown := welcomeMessageShown s;
     lowPowerMode := lowPowerMode s;
     prefersReducedMotion := prefersReducedMotion s; isMobile := isMobile s;
     seed := seed s; objectsVisible := objectsVisible s; theme := theme s |}.

Definition withWelcomeMessageShown (v : bool) (s : AppState) : AppState :=
  {| isBooting := isBooting s; bootError := bootError s;
     safeMode := safeMode s; protocolWarning := protocolWarning s;
     depth := depth s; isDiving := isDiving s;
     canResurface := canResurface s; activePanel := activePanel s;
     hoveredObject := hoveredObject s; showUI := showUI s;
     welcomeMessageShown := v; lowPowerMode := lowPowerMode s;
     prefersReducedMotion := prefersReducedMotion s; isMobile := isMobile s;
     seed := seed s; objectsVisible := objectsVisible s; theme := theme s |}.

Definition withLowPowerMode (v : bool) (s : AppState) : AppState :=
  {| isBooting := isBooting s; bootError := bootError s;
     safeMode := safeMode s; protocolWarning := protocolWarning s;
     depth := depth s; isDiving := isDiving s;
     canResurface := canResurface s; activePanel := activePanel s;
     hoveredObject := hoveredObject s; showUI := showUI s;
     welcomeMessageShown := welcomeMessageShown s; lowPowerMode := v;
     prefersReducedMotion := prefersReducedMotion s; isMobile := isMobile s;
     seed := seed s; objectsVisible := objectsVisible s; theme := theme s |}.

Definition withPrefersReducedMotion (v : bool) (s : AppState) : AppState :=
  {| isBooting := isBooting s; bootError := bootError s;
     safeMode := safeMode s; protocolWarning := protocolWarning s;
     depth := depth s; isDiving := isDiving s;
     canResurface := canResurface s; activePanel := activePanel s;
     hoveredObject := hoveredObject s; showUI := showUI s;
     welcomeMessageShown := welcomeMessageShown s;
     lowPowerMode := lowPowerMode s; prefersReducedMotion := v;
     isMobile := isMobile s; seed := seed s;
     objectsVisible := objectsVisible s; theme := theme s |}.

Definition withIsMobile (v : bool) (s : AppState) : AppState :=
  {| isBooting := isBooting s; bootError := bootError s;
     safeMode := safeMode s; protocolWarning := protocolWarning s;
     depth := depth s; isDiving := isDiving s;
     canResurface := canResurface s; activePanel := activePanel s;
     hoveredObject := hoveredObject s; showUI := showUI s;
     welcomeMessageShown := welcomeMessageShown s;
     lowPowerMode := lowPowerMode s;
     prefersReducedMotion := prefersReducedMotion s; isMobile := v;
     seed := seed s; objectsVisible := objectsVisible s; theme := theme s |}.

Definition withSeed (v : Z) (s : AppState) : AppState :=
  {| isBooting := isBooting s; bootError := bootError s;
     safeMode := safeMode s; protocolWarning := protocolWarning s;
     depth := depth s; isDiving := isDiving s;
     canResurface := canResurface s; activePanel := activePanel s;
     hoveredObject := hoveredObject s; showUI := showUI s;
     welcomeMessageShown := welcomeMessageShown s;
     lowPowerMode := lowPowerMode s;
     prefersReducedMotion := prefersReducedMotion s; isMobile := isMobile s;
     seed := v; objectsVisible := objectsVisible s; theme := theme s |}.

Definition withObjectsVisible (v : bool) (s : AppState) : AppState :=
  {| isBooting := isBooting s; bootError := bootError s;
     safeMode := safeMode s; protocolWarning := protocolWarning s;
     depth := depth s; isDiving := isDiving s;
     canResurface := canResurface s; activePanel := activePanel s;
     hoveredObject := hoveredObject s; showUI := showUI s;
     welcomeMessageShown := welcomeMessageShown s;
     lowPowerMode := lowPowerMode s;
     prefersReducedMotion := prefersReducedMotion s; isMobile := isMobile s;
     seed := seed s; objectsVisible := v; theme := theme s |}.

Definition withTheme (v : Theme) (s : AppState) : AppState :=
  {| isBooting := isBooting s; bootError := bootError s;
     safeMode := safeMode s; protocolWarning := protocolWarning s;
     depth := depth s; isDiving := isDiving s;
     canResurface := canResurface s; activePanel := activePanel s;
     hoveredObject := hoveredObject s; showUI := showUI s;
     welcomeMessageShown := welcomeMessageShown s;
     lowPowerMode := lowPowerMode s;
     prefersReducedMotion := prefersReducedMotion s; isMobile := isMobile s;
     seed := seed s; objectsVisible := objectsVisible s; theme := v |}.

(** JavaScript truthiness. *)
Definition truthy (v : JsValue) : bool :=
  match v with
  | JsNull | JsUndefined => false
  | JsBool b => b
  | JsNum q => negb (Qeq_bool q 0)
  | JsStr s => negb (String.eqb s "")
  | JsObj _ => true
  end.

(** A JavaScript number: a finite value, an infinity, or NaN. *)
Inductive JsNumber : Type :=
| Finite (q : Q)
| PosInfinity
| NegInfinity
| NaN.

(** [Math.min(a, b)]: NaN as soon as one argument is. *)
Definition mathMin (a b : JsNumber) : JsNumber :=
  match a, b with
  | NaN, _ | _, NaN => NaN
  | NegInfinity, _ | _, NegInfinity => NegInfinity
  | PosInfinity, x | x, PosInfinity => x
  | Finite x, Finite y => Finite (Qmin x y)
  end.

(** [Math.max(a, b)] *)
Definition mathMax (a b : JsNumber) : JsNumber :=
  match a, b with
  | NaN, _ | _, NaN => NaN
  | PosInfinity, _ | _, PosInfinity => PosInfinity
  | NegInfinity, x | x, NegInfinity => x
  | Finite x, Finite y => Finite (Qmax x y)
  end.

(** The value [setDepth] stores: [Math.max(0, Math.min(1, depth))]. *)
Definition clampDepth (depth : JsNumber) : JsNumber :=
  mathMax (Finite 0) (mathMin (Finite 1) depth).

(** [setDepth]: [set({ depth: Math.max(0, Math.min(1, depth)) })]. The depth
    of an [AppState] is a finite number; where the value stored is none,
    the store is no [AppState] any more and the result is [None]. *)
Definition setDepth (depth : JsNumber) (s : AppState) : option AppState :=
  match clampDepth depth with
  | Finite q => Some (withDepth q s)
  | _ => None
  end.

Definition setDiving (diving : bool) (s : AppState) : AppState :=
  withIsDiving diving s.

Definition setCanResurface (b : bool) (s : AppState) : AppState :=
  withCanResurface b s.

Definition setActivePanel (panel : option Panel) (s : AppState) : AppState :=
  withActivePanel panel s.

(** [setHoveredObject(object, position)]:
    [hoveredObject: object ? { object, position } : null] *)
Definition setHoveredObject (object position : JsValue) (s : AppState)
  : AppState :=
  withHoveredObject
    (if truthy object
     then JsObj [("object", object); ("position", position)]
     else JsNull) s.

Definition toggleUI (s : AppState) : AppState :=
  withShowUI (negb (showUI s)) s.

Definition setWelcomeMessageShown (shown : bool) (s : AppState) : AppState :=
  withWelcomeMessageShown shown s.

Definition toggleLowPowerMode (s : AppState) : AppState :=
  withLowPowerMode (negb (lowPowerMode s)) s.

(** [regenerateLayout]: [seed: Math.floor(Math.random() * 10000)], with
    [random] the value [Math.random()] returns. *)
Definition regenerateLayout (random : Q) (s : AppState) : AppState :=
  withSeed (Qfloor (random * 10000)) s.

Definition toggleObjectsVisible (s : AppState) : AppState :=
  withObjectsVisible (negb (objectsVisible s)) s.

Definition setTheme (t : Theme) (s : AppState) : AppState :=
  withTheme t s.

(** *** Computed values *)

Definition fogDensity (s : AppState) : Q := (2 # 100) * depth s.
Definition bubbleRate (s : AppState) : Q := 1 + (7 # 10) * depth s.
Definition waterOpacity (s : AppState) : Q :=
  Qmin (8 # 10) ((3 # 10) + depth s * (5 # 10)).
Definition cameraFov (s : AppState) : Q := 45 + depth s * 10.
Definition vignetteStrength (s : AppState) : Q :=
  (5 # 100) + depth s * (9 # 100).

(** [bloomStrength] of the TypeScript store:
    [(lowPowerMode || safeMode) ? 0 : depth * 0.35] *)
Definition bloomStrength (s : AppState) : Q :=
  if lowPowerMode s || safeMode s then 0 else depth s * (35 # 100).

(** [bloomStrength] of the JavaScript store: [lowPowerMode ? 0 : depth * 0.35] *)
Definition bloomStrengthJS (s : AppState) : Q :=
  if lowPowerMode s then 0 else depth s * (35 # 100).

(** *** Preferences *)

(** [initializePreferences], with what [matchMedia(...).matches] and
    [window.innerWidth] return:
    [set({ prefersReducedMotion, isMobile, lowPowerMode: isMobile })]. *)
Definition initializePreferences (matches : bool) (innerWidth : Z)
           (s : AppState) : AppState :=
  let mobile := innerWidth <? 768 in
  withLowPowerMode mobile
    (withIsMobile mobile (withPrefersReducedMotion matches s)).

(** The listener on the media query: [set({ prefersReducedMotion: e.matches })] *)
Definition onMotionChange (matches : bool) (s : AppState) : AppState :=
  withPrefersReducedMotion matches s.

(** The listener on [resize]: [set({ isMobile: window.innerWidth < 768 })] *)
Definition onResize (innerWidth : Z) (s : AppState) : AppState :=
  withIsMobile (innerWidth <? 768) s.

(** *** Diving *)

(** [handleFirstScroll] of the stores with a boot system. *)
Definition handleFirstScroll (s : AppState) : AppState :=
  if negb (isDiving s) && negb (isBooting s)
  then
    if prefersReducedMotion s
    then withCanResurface true (withIsDiving false (withDepth (4 # 10) s))
    else withIsDiving true s
  else s.

(** *** Keyboard shortcuts *)

(** [toLowerCase] on the letters A to Z; the other characters of a key name
    stay as they are. *)
Definition lowerAscii (c : ascii) : ascii :=
  let n := nat_of_ascii c in
  if (65 <=? n)%nat && (n <=? 90)%nat then ascii_of_nat (n + 32) else c.

Fixpoint toLowerCase (s : string) : string :=
  match s with
  | EmptyString => EmptyString
  | String c rest => String (lowerAscii c) (toLowerCase rest)
  end.

(** The [keydown] listener: [switch (e.key.toLowerCase())]. *)
Definition onKeyDown (random : Q) (key : string) (s : AppState) : AppState :=
  let k := toLowerCase key in
  if String.eqb k "r" then regenerateLayout random s
  else if String.eqb k "h" then toggleUI s
  else if String.eqb k "l" then toggleLowPowerMode s
  else if String.eqb k "escape"
       then match activePanel s with
            | Some _ => setActivePanel None s
            | None => s
            end
  else s.

End Store.

(** ** What [Scene.tsx] derives from the store *)
Module SceneView.

(** [handleObjectHover]: labels only show under water. *)
Definition handleObjectHover (object position : JsValue) (s : AppState)
  : AppState :=
  if Qle_bool (25 # 100) (depth s)
  then Store.setHoveredObject object position s
  else s.

(** [handleObjectLeave]: [setHoveredObject(null)] *)
Definition handleObjectLeave (s : AppState) : AppState :=
  Store.setHoveredObject JsNull JsUndefined s.

(** The quality part of [canvasProps] and of the scene below it. *)
Record Rendering : Type := mkRendering {
  shadows : bool;
  dprMax : Q;
  antialias : bool;
  performanceMin : Q;
  enableZoom : bool;
  environmentBlur : Q;
  castShadow : bool;
  shadowMapSize : Z;
  moodLights : bool;
  postProcessing : bool
}.

Definition rendering (s : AppState) : Rendering :=
  {| shadows := negb (lowPowerMode s) && negb (isMobile s) && negb (safeMode s);
     dprMax := if lowPowerMode s || safeMode s then 1
               else if isMobile s then (15 # 10) else 2;
     antialias := negb (isMobile s) && negb (lowPowerMode s) && negb (safeMode s);
     performanceMin := if lowPowerMode s || safeMode s then (2 # 10) else (5 # 10);
     enableZoom := negb (prefersReducedMotion s) && negb (safeMode s);
     environmentBlur := if lowPowerMode s || safeMode s then (8 # 10) else (5 # 10);
     castShadow := negb (lowPowerMode s) && negb (isMobile s) && negb (safeMode s);
     shadowMapSize := if isMobile s || safeMode s then 512 else 2048;
     moodLights := negb (Qle_bool (depth s) (3 # 10)) && negb (safeMode s);
     postProcessing := negb (safeMode s) |}.

End SceneView.

(** ** The seeded layout of [SafeObjectsCluster.tsx] *)
Module Layout.

(** *** [class SeededRandom]

    The field [seed] is threaded as a state. With an integer seed every
    intermediate product stays below 2^53, so integer arithmetic is exact. *)

(** [constructor(seed)]; [%] keeps the sign of the dividend. *)
Definition create (seed : Z) : Z :=
  let s := Z.rem seed 2147483647 in
  if s <=? 0 then s + 2147483646 else s.

(** A method of the generator: its result and the new [this.seed]. *)
Definition Rng (A : Type) : Type := Z -> A * Z.

Definition ret {A : Type} (a : A) : Rng A := fun st => (a, st).
Definition bind {A B : Type} (m : Rng A) (k : A -> Rng B) : Rng B :=
  fun st => let (a, st') := m st in k a st'.

Notation "x <~ c ;; k" := (bind c (fun x => k))
  (at level 61, c at next level, right associativity).

Definition next : Rng Z :=
  fun st => let s := Z.rem (st * 16807) 2147483647 in (s, s).

(** [float()]: [(this.next() - 1) / 2147483646] *)
Definition float : Rng Q :=
  n <~ next ;; ret (inject_Z (n - 1) / inject_Z 2147483646)%Q.

(** [range(min, max)]: [min + this.float() * (max - min)] *)
Definition range (min max : Q) : Rng Q :=
  f <~ float ;; ret (min + f * (max - min))%Q.

(** [choice(array)]: [array[Math.floor(this.float() * array.length)]]; an
    index outside the array gives [undefined]. *)
Definition choice {A : Type} (array : list A) : Rng (option A) :=
  f <~ float ;;
  let i := Qfloor (f * inject_Z (Z.of_nat (List.length array)))%Q in
  ret (if i <? 0 then None else nth_error array (Z.to_nat i)).

(** *** [generatePositions] *)

Record Position : Type := mkPosition { px : Q; pz : Q }.

Record Bounds : Type := mkBounds { minX : Q; maxX : Q; minZ : Q; maxZ : Q }.

Definition maxAttempts : nat := 30.

Section Positions.

(** [Math.sqrt], left open: the placement does not depend on how it rounds. *)
Variable sqrt : Q -> Q.

Definition distance (candidate pos : Position) : Q :=
  let dx := (px candidate - px pos)%Q in
  let dz := (pz candidate - pz pos)%Q in
  sqrt (dx * dx + dz * dz)%Q.

(** [distance < minDistance] *)
Definition tooClose (minDistance : Q) (candidate pos : Position) : bool :=
  negb (Qle_bool minDistance (distance candidate pos)).

(** The loop over [positions] with its [break]. *)
Fixpoint valid (minDistance : Q) (candidate : Position)
         (positions : list Position) : bool :=
  match positions with
  | [] => true
  | pos :: rest =>
      if tooClose minDistance candidate pos then false
      else valid minDistance candidate rest
  end.

(** The loop over [attempt]: the first valid candidate, if one turns up. *)
Fixpoint attemptLoop (attempts : nat) (bounds : Bounds) (minDistance : Q)
         (positions : list Position) : Rng (option Position) :=
  match attempts with
  | O => ret None
  | S attempts' =>
      x <~ range (minX bounds) (maxX bounds) ;;
      z <~ range (minZ bounds) (maxZ bounds) ;;
      let candidate := {| px := x; pz := z |} in
      if valid minDistance candidate positions
      then ret (Some candidate)
      else attemptLoop attempts' bounds minDistance positions
  end.

(** The loop over [i]; [dev] is [import.meta.env.DEV], which the fallback
    for an object that found no place is tied to. *)
Fixpoint placeLoop (dev : bool) (count : nat) (bounds : Bounds)
         (minDistance : Q) (positions : list Position)
  : Rng (list Position) :=
  match count with
  | O => ret positions
  | S count' =>
      placed <~ attemptLoop maxAttempts bounds minDistance positions ;;
      match placed with
      | Some candidate =>
          placeLoop dev count' bounds minDistance (positions ++ [candidate])
      | None =>
          if dev
          then
            x <~ range (minX bounds) (maxX bounds) ;;
            z <~ range (minZ bounds) (maxZ bounds) ;;
            placeLoop dev count' bounds minDistance
              (positions ++ [{| px := x; pz := z |}])
          else placeLoop dev count' bounds minDistance positions
      end
  end.

Definition generatePositions (dev : bool) (count : nat) (bounds : Bounds)
           (minDistance : Q) : Rng (list Position) :=
  placeLoop dev count bounds minDistance [].

(** *** The layout *)

Inductive MainType : Type := floatRing | treasureChest | glassBottle.

Definition objectTypes : list MainType := [floatRing; treasureChest; glassBottle].

Definition decorativeTypes : list string :=
  ["rock"; "smallRock"; "coral"; "seaweed"; "shell"]%string.

(** [0x8d6e63, 0x5d4037, 0x3e2723, 0x6d4c41] *)
Definition decorativeColors : list Z := [9268835; 6111287; 4073251; 7162945].

(** A main object; [m_index] is the number in its id [main-<index>]. *)
Record MainObject : Type := mkMain {
  m_index : nat;
  m_type : option MainType;
  m_position : Q * Q * Q;
  m_scale : Q
}.

Record DecorativeObject : Type := mkDecorative {
  d_index : nat;
  d_type : option string;
  d_position : Q * Q * Q;
  d_scale : Q;
  d_color : option Z
}.

Record ObjectLayout : Type := mkLayout {
  mainObjects : list MainObject;
  decorativeObjects : list DecorativeObject
}.

(** [mainPositions.map((pos, index) => ...)] *)
Fixpoint mapMain (index : nat) (positions : list Position)
  : Rng (list MainObject) :=
  match positions with
  | [] => ret []
  | pos :: rest =>
      y <~ range (-3)%Q (-1)%Q ;;
      scale <~ range (8 # 10)%Q (12 # 10)%Q ;;
      objs <~ mapMain (S index) rest ;;
      ret ({| m_index := index;
              m_type := nth_error objectTypes
                          (index mod List.length objectTypes);
              m_position := (px pos, y, pz pos);
              m_scale := scale |} :: objs)
  end.

(** [decorativePositions.map((pos, index) => ...)] *)
Fixpoint mapDecorative (index : nat) (positions : list Position)
  : Rng (list DecorativeObject) :=
  match positions with
  | [] => ret []
  | pos :: rest =>
      type <~ choice decorativeTypes ;;
      y <~ range (-45 # 10)%Q (-2)%Q ;;
      scale <~ range (5 # 10)%Q (15 # 10)%Q ;;
      color <~ choice decorativeColors ;;
      objs <~ mapDecorative (S index) rest ;;
      ret ({| d_index := index; d_type := type;
              d_position := (px pos, y, pz pos);
              d_scale := scale; d_color := color |} :: objs)
  end.

Definition layoutBounds : Bounds :=
  {| minX := -8; maxX := 8; minZ := -8; maxZ := 8 |}.

(** The body of [useMemo] in [SafeObjectsCluster]. *)
Definition objectLayout (dev : bool) (s : AppState) : ObjectLayout :=
  let rng := create (seed s) in
  let mainObjectCount :=
    Quality.mainObjectCount (safeMode s) (lowPowerMode s) (isMobile s) in
  let decorativeCount :=
    Quality.decorativeCount (safeMode s) (lowPowerMode s) (isMobile s) in
  fst ((mainPositions <~ generatePositions dev (Z.to_nat mainObjectCount)
                           layoutBounds 2 ;;
        mains <~ mapMain 0 mainPositions ;;
        decorativePositions <~ generatePositions dev (Z.to_nat decorativeCount)
                                 layoutBounds 1 ;;
        decoratives <~ mapDecorative 0 decorativePositions ;;
        ret {| mainObjects := mains; decorativeObjects := decoratives |}) rng).

(** What the component hands to the scene: nothing when the objects are
    hidden, and no decorative object in Safe Mode. *)
Definition rendered (dev : bool) (s : AppState)
  : list MainObject * list DecorativeObject :=
  if objectsVisible s
  then (mainObjects (objectLayout dev s),
        if safeMode s then [] else decorativeObjects (objectLayout dev s))
  else ([], []).

End Positions.

End Layout.

(** ** The layout of [ObjectsCluster.jsx] *)
Module Cluster.

Definition Rng (A : Type) : Type := Z -> A * Z.

Definition ret {A : Type} (a : A) : Rng A := fun st => (a, st).
Definition bind {A B : Type} (m : Rng A) (k : A -> Rng B) : Rng B :=
  fun st => let (a, st') := m st in k a st'.

Notation "x <~ c ;; k" := (bind c (fun x => k))
  (at level 61, c at next level, right associativity).

(** [next()]: [this.seed = (this.seed * 9301 + 49297) % 233280;
    return this.seed / 233280] *)
Definition next : Rng Q :=
  fun st =>
    let s := Z.rem (st * 9301 + 49297) 233280 in
    ((inject_Z s / inject_Z 233280)%Q, s).

(** [range(min, max)]: [min + (max - min) * this.next()] *)
Definition range (min max : Q) : Rng Q :=
  f <~ next ;; ret (min + (max - min) * f)%Q.

Section Positions.

Variable sqrt : Q -> Q.

Definition distance2D (a b : Layout.Position) : Q :=
  let dx := (Layout.px a - Layout.px b)%Q in
  let dz := (Layout.pz a - Layout.pz b)%Q in
  sqrt (dx * dx + dz * dz)%Q.

Fixpoint valid (minDistance : Q) (candidate : Layout.Position)
         (positions : list Layout.Position) : bool :=
  match positions with
  | [] => true
  | pos :: rest =>
      if negb (Qle_bool minDistance (distance2D candidate pos)) then false
      else valid minDistance candidate rest
  end.

(** [while (attempts < maxAttempts && !validPosition)], with [left] the
    attempts that remain. *)
Fixpoint attemptLoop (left : nat) (bounds : Layout.Bounds) (minDistance : Q)
         (positions : list Layout.Position) : Rng (option Layout.Position) :=
  match left with
  | O => ret None
  | S left' =>
      x <~ range (Layout.minX bounds) (Layout.maxX bounds) ;;
      z <~ range (Layout.minZ bounds) (Layout.maxZ bounds) ;;
      let candidate := {| Layout.px := x; Layout.pz := z |} in
      if valid minDistance candidate positions
      then ret (Some candidate)
      else attemptLoop left' bounds minDistance positions
  end.

(** The loop over [i]: an object without a valid place is placed anyway. *)
Fixpoint placeLoop (count maxAttempts : nat) (bounds : Layout.Bounds)
         (minDistance : Q) (positions : list Layout.Position)
  : Rng (list Layout.Position) :=
  match count with
  | O => ret positions
  | S count' =>
      found <~ attemptLoop maxAttempts bounds minDistance positions ;;
      match found with
      | Some validPosition =>
          placeLoop count' maxAttempts bounds minDistance
            (positions ++ [validPosition])
      | None =>
          x <~ range (Layout.minX bounds) (Layout.maxX bounds) ;;
          z <~ range (Layout.minZ bounds) (Layout.maxZ bounds) ;;
          placeLoop count' maxAttempts bounds minDistance
            (positions ++ [{| Layout.px := x; Layout.pz := z |}])
      end
  end.

(** [generatePositions(count, bounds, minDistance, rng, maxAttempts = 30)] *)
Definition generatePositions (count : nat) (bounds : Layout.Bounds)
           (minDistance : Q) (maxAttempts : nat)
  : Rng (list Layout.Position) :=
  placeLoop count maxAttempts bounds minDistance [].

End Positions.

End Cluster.

(** ** [withRetry] and [raceWithTimeout] ([utils/withTimeout.ts]) *)
Module Retry.
Import Guard.

(** What a run of [withRetry] did: how its promise ends up ([None]: it stays
    pending), how often [promiseFactory] was called, and the delays it
    waited for, oldest first. *)
Record Run (T : Type) : Type := mkRun {
  outcome : option (Outcome T);
  calls : nat;
  delays : list Z
}.
Arguments mkRun {T} outcome calls delays.
Arguments outcome {T} r.
Arguments calls {T} r.
Arguments delays {T} r.

(** The [for] loop; [promiseFactory k] is how the promise of the call number
    [k] ends up, [iterations] the rounds the loop condition still allows. *)
Fixpoint loop {T : Type} (promiseFactory : nat -> option (Outcome T))
         (maxRetries baseDelay : Z) (iterations attempt : nat)
         (lastError : JsValue) (waited : list Z) : Run T :=
  match iterations with
  | O =>
      (* throw lastError! *)
      {| outcome := Some (Rejected lastError); calls := attempt;
         delays := waited |}
  | S iterations' =>
      match promiseFactory attempt with
      | None =>
          {| outcome := None; calls := S attempt; delays := waited |}
      | Some (Fulfilled result) =>
          {| outcome := Some (Fulfilled result); calls := S attempt;
             delays := waited |}
      | Some (Rejected error) =>
          if Z.of_nat attempt =? maxRetries
          then {| outcome := Some (Rejected error); calls := S attempt;
                  delays := waited |}
          else loop promiseFactory maxRetries baseDelay iterations'
                    (S attempt) error
                    (waited ++ [baseDelay * 2 ^ Z.of_nat attempt])
      end
  end.

(** [withRetry(promiseFactory, maxRetries = 3, baseDelay = 1000)]; the loop
    runs for [attempt = 0 .. maxRetries], and [lastError] starts out
    undefined. *)
Definition withRetry {T : Type} (promiseFactory : nat -> option (Outcome T))
           (maxRetries baseDelay : Z) : Run T :=
  loop promiseFactory maxRetries baseDelay (Z.to_nat (maxRetries + 1)) 0
       JsUndefined [].

(** The delay after the failed attempt number [k]:
    [baseDelay * Math.pow(2, attempt)]. *)
Definition backoff (baseDelay : Z) (k : nat) : Z := baseDelay * 2 ^ Z.of_nat k.

(** The reactions of the promises that are settled when [Promise.race]
    looks at them, in the order of the array. *)
Fixpoint microtasks {T : Type} (promises : list (Operation T)) : list (Job T) :=
  match promises with
  | [] => []
  | AlreadySettled o :: rest => Reaction o :: microtasks rest
  | _ :: rest => microtasks rest
  end.

(** The settlements still to come, by due time; those due together keep the
    order of the array. *)
Fixpoint tasks {T : Type} (promises : list (Operation T)) (queue : list (Z * Job T))
  : list (Z * Job T) :=
  match promises with
  | [] => queue
  | SettlesAfter t o :: rest => tasks rest (enqueue (Z.max 0 t) (Reaction o) queue)
  | _ :: rest => tasks rest queue
  end.

(** [raceWithTimeout(promises, timeoutMs, label)]: the race settles with the
    first job the event loop runs. The guard around the promise that never
    settles contributes the body of its timeout, due after
    [timerDelay timeoutMs], which rejects with [Error(label)]. *)
Definition raceWithTimeout {T : Type} (promises : list (Operation T))
           (timeoutMs : Z) (label : string) : option (Outcome T) :=
  match microtasks promises
        ++ map snd (enqueue (timerDelay timeoutMs) TimeoutBody (tasks promises []))
  with
  | [] => None
  | Reaction o :: _ => Some o
  | TimeoutBody :: _ => Some (Rejected (newError label))
  end.

End Retry.

(** ** The loaders around [safePreloadGLTF] *)
Module Loaders.
Import Guard Gltf.

(** [useSafeGLTF(path, fallback)], with what [useGLTF(path)] does: the
    loaded model, or [null] after a throw. *)
Definition useSafeGLTF (useGLTF : string -> Canvas.Call JsValue)
           (path : string) (fallback : bool) : M JsValue :=
  match useGLTF path with
  | Canvas.Returns gltf => ret gltf
  | Canvas.Throws _ =>
      (if fallback
       then modify (set_ (patchSafe true)) ;;~
            modify (set_ (patchError (Some INIT_ERROR)))
       else ret tt) ;;~
      ret JsNull
  end.

(** [fetch(path, { method: 'HEAD' })]: pending for ever ([None]), a response
    with its [ok] flag, or a rejection. *)
Definition Fetch : Type := string -> option (Canvas.Call bool).

(** [checkGLTFExists(path)]; [None] while the request stays pending. *)
Definition checkGLTFExists (fetch : Fetch) (path : string) : option bool :=
  match fetch path with
  | None => None
  | Some (Canvas.Returns ok) => Some ok
  | Some (Canvas.Throws _) => Some false
  end.

(** [smartPreloadGLTF(path, timeoutMs)] *)
Definition smartPreloadGLTF (fetch : Fetch) (preload : Preload)
           (path : string) (timeoutMs : Z) : M (option (Outcome bool)) :=
  match checkGLTFExists fetch path with
  | None => ret None
  | Some false => ret (Some (Fulfilled false))
  | Some true => safePreloadGLTF preload path timeoutMs
  end.

(** The state of [SafeFloatRing], [SafeTreasureChest] and [SafeGlassBottle]. *)
Record ObjectState : Type := mkObjectState {
  useProcedural : bool;
  isChecking : bool
}.

Definition initialObjectState : ObjectState :=
  {| useProcedural := false; isChecking := true |}.

(** Their effect, run on the initial state, with the path of the model. *)
Definition safeObjectEffect (preload : Preload) (path : string) : M ObjectState :=
  fun s =>
    if safeMode s
    then ({| useProcedural := true; isChecking := false |}, s)
    else
      let (settled, s') := safePreloadGLTF preload path 5000 s in
      match settled with
      | Some (Fulfilled success) =>
          ({| useProcedural := negb success; isChecking := false |}, s')
      | Some (Rejected _) =>
          ({| useProcedural := true; isChecking := false |}, s')
      | None => (initialObjectState, s')
      end.

End Loaders.

(** ** [handleCanvasCreated] of [App.jsx], on the JavaScript store *)
Module App.

(** The renderer as this handler uses it; [getExtension] may be missing. *)
Record Gl : Type := mkGl {
  getExtension : option (Canvas.Call (option Canvas.Extension));
  getParameter : Canvas.Extension -> Canvas.Call JsValue
}.

(** The statements of the [try] block ahead of [setBoot(false)]. *)
Definition probe (dev : bool) (gl : option Gl) : Canvas.Call unit :=
  match gl with
  | None => Canvas.Throws (newError "TypeError")
  | Some g =>
      match getExtension g with
      | None => Canvas.Throws (newError "TypeError")
      | Some call =>
          Canvas.bind call
            (fun extension =>
               match extension with
               | Some ext =>
                   if dev
                   then Canvas.bind (getParameter g ext)
                          (fun _ => Canvas.Returns tt)
                   else Canvas.Returns tt
               | None => Canvas.Returns tt
               end)
      end
  end.

Definition handleCanvasCreated (dev : bool) (gl : option Gl) (w : Boot.World)
  : Boot.World :=
  match probe dev gl with
  | Canvas.Returns _ => Boot.setBoot false None None w
  | Canvas.Throws _ => Boot.setBoot false (Some WEBGL_FAIL) (Some true) w
  end.

End App.

(** ** A session of the [Scene] on the TypeScript store *)
Module Session.

(** What can happen once the scene is mounted: every call site of the boot
    setters, the retry button, and time passing. *)
Inductive Event : Type :=
| CanvasCreated (dev : bool) (gl : option Canvas.Renderer)
                (camera : option Canvas.Camera)
| BootMarkFired                       (* setBooting(false) *)
| PreloadFailed (timedOut : bool)     (* the catch of safePreloadGLTF *)
| RuntimeLoadFailed                   (* the catch of useSafeGLTF, fallback on *)
| RetryClicked
| ClockReaches (t : Z).

Definition step (env : Env) (w : Boot.World) (ev : Event) : Boot.World :=
  match ev with
  | CanvasCreated dev gl camera => Canvas.handleCanvasCreated dev gl camera w
  | BootMarkFired => Boot.setBooting false w
  | PreloadFailed timedOut =>
      Boot.setSafe true
        (Boot.setError (Some (if timedOut then ASSET_TIMEOUT else INIT_ERROR)) w)
  | RuntimeLoadFailed =>
      Boot.setError (Some INIT_ERROR) (Boot.setSafe true w)
  | RetryClicked => Boot.retryBootTS env w
  | ClockReaches t => Boot.advanceTo t w
  end.

Definition run (env : Env) (events : list Event) (w : Boot.World) : Boot.World :=
  fold_left (step env) events w.

End Session.

(** ** Vocabulary for the layout properties *)
Module LayoutSpec.

(** The states of [SeededRandom] from which it works as a generator. *)
Definition Inv (st : Z) : Prop := 1 <= st <= 2147483646.

(** The seeds of the generator of [ObjectsCluster.jsx] that are not negative. *)
Definition NonNeg (st : Z) : Prop := 0 <= st.

(** From every state that satisfies [I], the computation [m] returns a
    result that satisfies [P] and leaves a state that satisfies [I]. *)
Definition Holds {A : Type} (I : Z -> Prop) (m : Z -> A * Z) (P : A -> Prop)
  : Prop :=
  forall st, I st -> P (fst (m st)) /\ I (snd (m st)).

Definition InBounds (b : Layout.Bounds) (p : Layout.Position) : Prop :=
  (Layout.minX b <= Layout.px p < Layout.maxX b)%Q /\
  (Layout.minZ b <= Layout.pz p < Layout.maxZ b)%Q.

(** Every position passed the distance test against all earlier ones. *)
Definition Spaced (distance : Layout.Position -> Layout.Position -> Q)
           (minDistance : Q) (positions : list Layout.Position) : Prop :=
  forall (i j : nat) (p q : Layout.Position),
    (i < j)%nat ->
    nth_error positions i = Some p ->
    nth_error positions j = Some q ->
    (minDistance <= distance q p)%Q.

(** The objects of a list carry the numbers [first], [first + 1], ... in
    the order of the list. *)
Definition Numbered {A : Type} (index : A -> nat) (first : nat) (objs : list A)
  : Prop :=
  forall (i : nat) (o : A), nth_error objs i = Some o -> index o = (first + i)%nat.

(** A main object whose type is [objectTypes[index % 3]], inside the bounds
    of the layout and the ranges of its height and scale. *)
Definition MainOk (o : Layout.MainObject) : Prop :=
  Layout.m_type o = nth_error Layout.objectTypes (Layout.m_index o mod 3) /\
  (exists t, Layout.m_type o = Some t) /\
  (let '(x, y, z) := Layout.m_position o in
   (-8 <= x < 8)%Q /\ (-3 <= y < -1)%Q /\ (-8 <= z < 8)%Q) /\
  (8 # 10 <= Layout.m_scale o < 12 # 10)%Q.

(** A decorative object with a type and a colour from the two tables,
    inside the bounds and the ranges. *)
Definition DecorativeOk (o : Layout.DecorativeObject) : Prop :=
  (exists t, Layout.d_type o = Some t /\ In t Layout.decorativeTypes) /\
  (exists c, Layout.d_color o = Some c /\ In c Layout.decorativeColors) /\
  (let '(x, y, z) := Layout.d_position o in
   (-8 <= x < 8)%Q /\ (-45 # 10 <= y < -2)%Q /\ (-8 <= z < 8)%Q) /\
  (5 # 10 <= Layout.d_scale o < 15 # 10)%Q.

End LayoutSpec.

(** ** Vocabulary for the properties of races, loaders and sessions *)
Module RaceSpec.
Import Guard.

(** Not settled when the race starts. *)
Definition Pending {T : Type} (op : Operation T) : Prop :=
  match op with
  | AlreadySettled _ => False
  | _ => True
  end.

(** Pending, and settling (if ever) more than [d] milliseconds after the
    call. *)
Definition SettlesLaterThan {T : Type} (d : Z) (op : Operation T) : Prop :=
  match op with
  | AlreadySettled _ => False
  | SettlesAfter t _ => d < t
  | NeverSettles => True
  end.

Definition DueAfter {T : Type} (d : Z) (queue : list (Z * Job T)) : Prop :=
  Forall (fun entry => d < fst entry) queue.

End RaceSpec.

Module LoaderSpec.
Import Gltf.

(** What the catch of [safePreloadGLTF] leaves in the store. *)
Definition afterFailure (error : JsValue) (s : AppState) : AppState :=
  set_ (patchSafe true)
    (set_ (patchError (Some (if isAssetTimeout error
                             then ASSET_TIMEOUT else INIT_ERROR))) s).

(** The store after the failing loads among [paths], in their order. *)
Fixpoint failures (preload : Preload) (paths : list string) (s : AppState)
  : AppState :=
  match paths with
  | [] => s
  | path :: rest =>
      failures preload rest
        (match preload path with
         | None => s
         | Some error => afterFailure error s
         end)
  end.

End LoaderSpec.

Module SessionSpec.

(** The timer that [Scene]'s effect sets on a fresh world. *)
Definition sceneWatchdogTimer : Boot.Timer :=
  {| Boot.timerId := 0; Boot.due := 8000; Boot.callback := Boot.SceneWatchdog |}.

(** No timer is left. *)
Definition Quiet (w : Boot.World) : Prop :=
  Boot.listeners w = [Boot.SceneListener] /\ Boot.timers w = [].

(** The watchdog of [Scene] is pending and [watchdogRef] holds it. *)
Definition Armed (w : Boot.World) : Prop :=
  Boot.listeners w = [Boot.SceneListener] /\
  Boot.timers w = [sceneWatchdogTimer] /\
  Boot.watchdogRef w = Some 0%nat.

(** An updater that never writes [BOOT_TIMEOUT]. *)
Definition NoTimeout (u : AppState -> Patch) : Prop :=
  forall s, Boot.isTimeoutPatch (u s) = false.

Definition QuietAt (c : nat) (w : Boot.World) : Prop :=
  Quiet w /\ Boot.timeoutCount w = c.

Definition ArmedZero (w : Boot.World) : Prop :=
  Armed w /\ Boot.timeoutCount w = 0%nat.

Definition SessionInv (w : Boot.World) : Prop :=
  ArmedZero w \/ exists c, (c <= 1)%nat /\ QuietAt c w.

End SessionSpec.

(** * Properties *)

(** ** The store: completion, failure, retry, continue *)

Ltac crush_state :=
  repeat match goal with
         | s : AppState |- _ => destruct s
         end;
  cbn in *; subst; try reflexivity; try congruence.

Lemma set_rest : forall p s, restOf (set_ p s) = restOf s.
Proof. intros p s. reflexivity. Qed.

Lemma signal_keeps_ended :
  forall c s,
    isBooting s = false ->
    isBooting (TS.signal c s) = false /\ isBooting (JS.signal c s) = false.
Proof.
  intros [|[| | |]] s H; cbn; unfold TS.fail, JS.fail; cbn; rewrite ?H;
    split; try reflexivity; exact H.
Qed.

Lemma run_keeps_ended :
  forall calls s,
    isBooting s = false ->
    isBooting (TS.run calls s) = false /\ isBooting (JS.run calls s) = false.
Proof.
  induction calls as [|c rest IH]; intros s H.
  - split; exact H.
  - destruct (signal_keeps_ended c s H) as [A B].
    split.
    + change (TS.run (c :: rest) s) with (TS.run rest (TS.signal c s)).
      apply IH. exact A.
    + change (JS.run (c :: rest) s) with (JS.run rest (JS.signal c s)).
      apply IH. exact B.
Qed.

Lemma signal_ends_booting :
  forall c s,
    endsBooting c = true -> isBooting s = true ->
    isBooting (TS.signal c s) = false /\ isBooting (JS.signal c s) = false.
Proof.
  intros [|[| | |]] s Hc H; try discriminate Hc; cbn; unfold TS.fail, JS.fail;
    rewrite ?H; split; reflexivity.
Qed.

Lemma TS_guarded_noop :
  forall c s,
    guardedSignal c = true -> isBooting s = false -> TS.signal c s = s.
Proof.
  intros [|[| | |]] s Hc H; try discriminate Hc.
  - destruct s; cbn in H; subst; reflexivity.
  - cbn. rewrite H. reflexivity.
Qed.

Lemma TS_guarded_run_noop :
  forall calls s,
    forallb guardedSignal calls = true -> isBooting s = false ->
    TS.run calls s = s.
Proof.
  induction calls as [|c rest IH]; intros s Hg H.
  - reflexivity.
  - cbn [forallb] in Hg. apply andb_true_iff in Hg. destruct Hg as [Hc Hr].
    change (TS.run (c :: rest) s) with (TS.run rest (TS.signal c s)).
    rewrite (TS_guarded_noop c s Hc H). apply IH; assumption.
Qed.

(** C1, as stated, fails: on the initial store a completion followed by the
    failure report of the canvas ends in another boot state than the
    completion alone. *)
Lemma C1_later_fail_overrides_completion :
  bootView (TS.run [Complete; Fail WEBGL_FAIL] (initialState 0))
  <> bootView (TS.run [Complete] (initialState 0)).
Proof. cbv. discriminate. Qed.

(** Nor is it the first call alone that counts when a loader fails before
    the completion arrives: the failure leaves the store Booting, and the
    completion then ends in Degraded. *)
Example loader_failure_then_completion :
  bootView (TS.run [Fail INIT_ERROR] (initialState 0))
  = (Booting, Some INIT_ERROR, true) /\
  bootView (TS.run [Fail INIT_ERROR; Complete] (initialState 0))
  = (Degraded, Some INIT_ERROR, true).
Proof. split; reflexivity. Qed.

(** C1 (amended): starting from Booting, the first completion, watchdog
    timeout or WebGL failure report changes the store and ends Booting, and
    [isBooting] stays false under every later call. For sequences of
    completions and watchdog timeouts the claim holds in the TypeScript
    store: only the first call has an effect. Outside Booting a completion
    (TypeScript store) and a watchdog timeout (both stores) are no-ops.
    The other failure reports look at no state: the report of the canvas
    leaves Degraded with WEBGL_FAIL and Safe Mode on from every state, and
    a loader failure records its error and turns Safe Mode on from every
    state without ever ending Booting. In the JavaScript store a completion
    also clears a recorded BootError. *)
Theorem C1_first_signal_ends_booting :
  forall (c : Signal) (rest : list Signal) (s : AppState),
    phase s = Booting ->
    (endsBooting c = true ->
     TS.run [c] s <> s /\
     isBooting (TS.run [c] s) = false /\
     isBooting (TS.run (c :: rest) s) = false /\
     phase (TS.run (c :: rest) s) <> Booting /\
     JS.run [c] s <> s /\
     isBooting (JS.run (c :: rest) s) = false) /\
    (forallb guardedSignal (c :: rest) = true ->
     TS.run (c :: rest) s = TS.run [c] s) /\
    (forall s', isBooting s' = false ->
                TS.complete s' = s' /\
                TS.fail BOOT_TIMEOUT s' = s' /\
                JS.fail BOOT_TIMEOUT s' = s') /\
    (forall s', bootView (TS.fail WEBGL_FAIL s') = (Degraded, Some WEBGL_FAIL, true) /\
                bootView (JS.fail WEBGL_FAIL s') = (Degraded, Some WEBGL_FAIL, true)) /\
    (forall e s', e = ASSET_TIMEOUT \/ e = INIT_ERROR ->
                  isBooting (TS.fail e s') = isBooting s' /\
                  bootError (TS.fail e s') = Some e /\
                  safeMode (TS.fail e s') = true /\
                  JS.fail e s' = TS.fail e s') /\
    (forall s', bootError (JS.complete s') = None /\
                safeMode (JS.complete s') = safeMode s').
Proof.
  intros c rest s Hs.
  assert (Hb : isBooting s = true).
  { unfold phase in Hs. destruct (isBooting s); [reflexivity|].
    destruct (bootError s); discriminate. }
  assert (Hne : forall s', isBooting s' = false -> s' <> s).
  { intros s' H' E. rewrite E in H'. congruence. }
  split; [|split; [|split; [|split; [|split]]]].
  - intros Hc. destruct (signal_ends_booting c s Hc Hb) as [A B].
    assert (A' : isBooting (TS.run (c :: rest) s) = false).
    { change (TS.run (c :: rest) s) with (TS.run rest (TS.signal c s)).
      apply run_keeps_ended. exact A. }
    assert (B' : isBooting (JS.run (c :: rest) s) = false).
    { change (JS.run (c :: rest) s) with (JS.run rest (JS.signal c s)).
      apply run_keeps_ended. exact B. }
    split; [apply Hne; exact A|]. split; [exact A|]. split; [exact A'|].
    split; [|split; [apply Hne; exact B|exact B']].
    unfold phase. rewrite A'. destruct (bootError _); discriminate.
  - intros Hg. cbn [forallb] in Hg. apply andb_true_iff in Hg.
    destruct Hg as [Hc Hr].
    change (TS.run (c :: rest) s) with (TS.run rest (TS.signal c s)).
    apply TS_guarded_run_noop; [exact Hr|].
    apply signal_ends_booting; [|exact Hb].
    destruct c as [|[| | |]]; try discriminate Hc; reflexivity.
  - intros s' H'. split; [|split].
    + apply (TS_guarded_noop Complete s' eq_refl H').
    + apply (TS_guarded_noop (Fail BOOT_TIMEOUT) s' eq_refl H').
    + unfold JS.fail. rewrite H'. reflexivity.
  - intros s'. split; reflexivity.
  - intros e s' [E|E]; subst e; repeat split.
  - intros s'. split; reflexivity.
Qed.

Lemma C1_first_signal_ends_booting_witness :
  phase (initialState 7) = Booting /\
  forallb guardedSignal [Fail BOOT_TIMEOUT; Complete; Fail BOOT_TIMEOUT] = true /\
  TS.run [Fail BOOT_TIMEOUT; Complete; Fail BOOT_TIMEOUT] (initialState 7)
  = TS.run [Fail BOOT_TIMEOUT] (initialState 7).
Proof.
  assert (H : phase (initialState 7) = Booting) by reflexivity.
  assert (G : forallb guardedSignal [Fail BOOT_TIMEOUT; Complete; Fail BOOT_TIMEOUT]
              = true) by reflexivity.
  split; [exact H|]. split; [exact G|].
  destruct (C1_first_signal_ends_booting (Fail BOOT_TIMEOUT)
              [Complete; Fail BOOT_TIMEOUT] (initialState 7) H) as [_ [A _]].
  exact (A G).
Defined.

(** In the JavaScript store a completion after a failure is no no-op
    either: [setBoot(false)] wipes the recorded error. *)
Example JS_completion_after_failure_clears_error :
  bootView (JS.run [Fail WEBGL_FAIL; Complete] (initialState 0))
  = (Running, None, true).
Proof. reflexivity. Qed.

(** C4: the code does not keep the claim. The "Continue in Safe Mode" button
    calls [setBoot(false, null, false)]: from every state, a Degraded one
    with Safe Mode on included, it leaves Running with no BootError and with
    SafeModeFlag false, not true; the other fields stay as they are. *)
Theorem C4_continue_turns_safe_mode_off :
  forall s : AppState,
    bootView (JS.continueInSafeMode s) = (Running, None, false) /\
    protocolWarning (JS.continueInSafeMode s) = protocolWarning s /\
    restOf (JS.continueInSafeMode s) = restOf s /\
    bootView (JS.fail BOOT_TIMEOUT (initialState 0))
      = (Degraded, Some BOOT_TIMEOUT, true) /\
    safeMode (JS.continueInSafeMode (JS.fail BOOT_TIMEOUT (initialState 0)))
      = false.
Proof. intros s. repeat split. Qed.

(** C10, as stated, fails: with the page opened from a file and the warning
    switched off by [setProtocolWarning(false)], [retryBoot] of the
    TypeScript store turns the protocol warning on again. *)
Lemma C10_retry_raises_protocol_warning :
  protocolWarning
    (TS.retryBoot {| protocol := "file:" |}
       (TS.setProtocolWarning false
          (TS.initializeBoot {| protocol := "file:" |} (initialState 0))))
  <> protocolWarning
       (TS.setProtocolWarning false
          (TS.initializeBoot {| protocol := "file:" |} (initialState 0))).
Proof. cbv. discriminate. Qed.

(** C10 (amended): [retryBoot] sets the three boot fields to Booting, no
    BootError, Safe Mode off, and leaves depth, isDiving, canResurface,
    activePanel, hoveredObject, showUI, welcomeMessageShown, lowPowerMode,
    prefersReducedMotion, isMobile, seed, objectsVisible and theme as they
    are, in every state. The JavaScript variant leaves protocolWarning
    alone as well; the TypeScript variant goes on to [initializeBoot], which
    sets protocolWarning to true when the protocol is "file:" and leaves it
    alone otherwise. *)
Theorem C10_retry_frame :
  forall (env : Env) (s : AppState),
    restOf (TS.retryBoot env s) = restOf s /\
    bootView (TS.retryBoot env s) = (Booting, None, false) /\
    protocolWarning (TS.retryBoot env s)
      = (if String.eqb (protocol env) "file:" then true else protocolWarning s) /\
    restOf (JS.retryBoot s) = restOf s /\
    bootView (JS.retryBoot s) = (Booting, None, false) /\
    protocolWarning (JS.retryBoot s) = protocolWarning s.
Proof.
  intros env s. unfold TS.retryBoot, TS.initializeBoot, JS.retryBoot.
  destruct (String.eqb (protocol env) "file:"); repeat split.
Qed.

(** ** The watchdog *)

Ltac run_clock :=
  unfold Boot.advanceTo, Boot.sceneMount, Boot.watchdogEffect,
    Boot.initializeBootJS, Boot.initializeBootTS, Boot.retryBootTS,
    Boot.retryBootJS, Boot.freshWorld;
  cbn -[Z.leb Z.max].

Lemma watchdog_noop_outside_booting :
  forall w : Boot.World,
    isBooting (Boot.store w) = false ->
    Boot.runCallback Boot.SceneWatchdog w = w /\
    Boot.runCallback Boot.StoreWatchdog w = w.
Proof.
  intros w H. unfold Boot.runCallback. rewrite H. split; reflexivity.
Qed.

Lemma scene_watchdog_fires :
  forall (s : AppState) (t t' : Z),
    isBooting s = true -> 8000 <= t -> t <= t' ->
    let w := Boot.advanceTo t (Boot.sceneMount (Boot.freshWorld s)) in
    bootView (Boot.store w) = (Degraded, Some BOOT_TIMEOUT, true) /\
    Boot.timeoutCount w = 1%nat /\
    Boot.timers w = [] /\
    Boot.store (Boot.advanceTo t' w) = Boot.store w /\
    Boot.timeoutCount (Boot.advanceTo t' w) = 1%nat.
Proof.
  intros s t t' Hs Ht Ht'. destruct s; cbn in Hs; subst.
  run_clock. destruct (Z.leb_spec 8000 t) as [_|]; [|lia].
  cbn -[Z.leb Z.max]. repeat split.
Qed.

Lemma store_watchdog_fires :
  forall (env : Env) (s : AppState) (t t' : Z),
    isBooting s = true -> 8000 <= t -> t <= t' ->
    let w := Boot.advanceTo t (Boot.initializeBootJS env (Boot.freshWorld s)) in
    bootView (Boot.store w) = (Degraded, Some BOOT_TIMEOUT, true) /\
    Boot.timeoutCount w = 1%nat /\
    Boot.timers w = [] /\
    Boot.store (Boot.advanceTo t' w) = Boot.store w /\
    Boot.timeoutCount (Boot.advanceTo t' w) = 1%nat.
Proof.
  intros env s t t' Hs Ht Ht'. destruct s; cbn in Hs; subst.
  unfold Boot.advanceTo, Boot.initializeBootJS, Boot.freshWorld.
  destruct (String.eqb (protocol env) "file:");
    cbn -[Z.leb Z.max];
    (destruct (Z.leb_spec 8000 t) as [_|]; [|lia]);
    cbn -[Z.leb Z.max]; repeat split.
Qed.

Lemma scene_watchdog_cancelled :
  forall (s : AppState) (t1 t : Z),
    isBooting s = true -> t1 < 8000 ->
    let w1 := Boot.setBooting false
                (Boot.advanceTo t1 (Boot.sceneMount (Boot.freshWorld s))) in
    Boot.store w1 = TS.complete s /\
    Boot.timers w1 = [] /\
    Boot.store (Boot.advanceTo t w1) = Boot.store w1 /\
    Boot.timeoutCount (Boot.advanceTo t w1) = 0%nat.
Proof.
  intros s t1 t Hs Ht1. destruct s; cbn in Hs; subst.
  run_clock. destruct (Z.leb_spec 8000 t1) as [|_]; [lia|].
  cbn -[Z.leb Z.max]. repeat split.
Qed.

Lemma store_watchdog_cancelled :
  forall (env : Env) (s : AppState) (t1 t : Z),
    isBooting s = true -> t1 < 8000 ->
    let w0 := Boot.initializeBootJS env (Boot.freshWorld s) in
    let w1 := Boot.setBoot false None None (Boot.advanceTo t1 w0) in
    Boot.store w1 = JS.complete (Boot.store w0) /\
    Boot.timers w1 = [] /\
    Boot.store (Boot.advanceTo t w1) = Boot.store w1 /\
    Boot.timeoutCount (Boot.advanceTo t w1) = 0%nat.
Proof.
  intros env s t1 t Hs Ht1. destruct s; cbn in Hs; subst.
  unfold Boot.advanceTo, Boot.initializeBootJS, Boot.freshWorld.
  destruct (String.eqb (protocol env) "file:");
    cbn -[Z.leb Z.max];
    (destruct (Z.leb_spec 8000 t1) as [|_]; [lia|]);
    cbn -[Z.leb Z.max]; repeat split.
Qed.

(** [BootMark] reports completion 100 ms after it mounts: the watchdog is
    cleared and the clock passing 8000 ms finds nothing to run. *)
Example bootMark_completes_before_watchdog :
  let w := Boot.advanceTo 8000
             (Boot.bootMarkEffect
                (Boot.sceneMount (Boot.freshWorld (initialState 0)))) in
  bootView (Boot.store w) = (Running, None, false) /\
  Boot.timeoutCount w = 0%nat /\
  Boot.timers (Boot.advanceTo 100
                 (Boot.bootMarkEffect
                    (Boot.sceneMount (Boot.freshWorld (initialState 0))))) = [].
Proof. cbv. repeat split. Qed.

(** A cleanup between two runs of [Scene]'s effect (a remount that keeps the
    refs) clears the timer, and [initGuardRef] keeps the second run from
    arming it again. *)
Example remount_leaves_no_watchdog :
  Boot.timers
    (Boot.watchdogEffect
       (Boot.watchdogCleanup
          (Boot.watchdogEffect (Boot.freshWorld (initialState 0))))) = [].
Proof. reflexivity. Qed.

Lemma strict_mount_disarms :
  forall (s : AppState) (t : Z),
    let strict := Boot.sceneStrictMount (Boot.freshWorld s) in
    Boot.timers strict = [] /\
    Boot.watchdogRef strict = None /\
    Boot.initGuardRef strict = true /\
    Boot.store (Boot.advanceTo t strict) = s /\
    Boot.timeoutCount (Boot.advanceTo t strict) = 0%nat.
Proof. intros s t. cbv zeta. repeat split. Qed.

(** C2: the code does not keep the claim where the application is mounted
    under [React.StrictMode] in a development build. The effects of [Scene]
    then run, are cleaned up and run again: the cleanup clears the timer,
    [initGuardRef] keeps the second run from arming it, and the deadline
    passes over a store that stays Booting, with no BOOT_TIMEOUT ever
    written. Where the effects run once, and for the watchdog that
    [initializeBoot] of the JavaScript store arms, the claim holds: at the
    deadline the store becomes Degraded with BOOT_TIMEOUT and Safe Mode on,
    BOOT_TIMEOUT is written once, a completion before the deadline clears
    the timer, and a watchdog body that runs outside Booting changes
    nothing. *)
Theorem C2_watchdog_lost_under_strict_mode :
  forall (env : Env) (s : AppState) (t1 t t' : Z),
    isBooting s = true -> t1 < 8000 -> 8000 <= t -> t <= t' ->
    let strict := Boot.sceneStrictMount (Boot.freshWorld s) in
    let scene := Boot.sceneMount (Boot.freshWorld s) in
    let js := Boot.initializeBootJS env (Boot.freshWorld s) in
    let sceneDone := Boot.setBooting false (Boot.advanceTo t1 scene) in
    let jsDone := Boot.setBoot false None None (Boot.advanceTo t1 js) in
    (Boot.timers strict = [] /\
     Boot.watchdogRef strict = None /\
     Boot.store (Boot.advanceTo t strict) = s /\
     isBooting (Boot.store (Boot.advanceTo t strict)) = true /\
     Boot.timeoutCount (Boot.advanceTo t strict) = 0%nat) /\
    (bootView (Boot.store (Boot.advanceTo t scene))
       = (Degraded, Some BOOT_TIMEOUT, true) /\
     Boot.timeoutCount (Boot.advanceTo t scene) = 1%nat /\
     Boot.store (Boot.advanceTo t' (Boot.advanceTo t scene))
       = Boot.store (Boot.advanceTo t scene) /\
     Boot.timeoutCount (Boot.advanceTo t' (Boot.advanceTo t scene)) = 1%nat) /\
    (bootView (Boot.store (Boot.advanceTo t js))
       = (Degraded, Some BOOT_TIMEOUT, true) /\
     Boot.timeoutCount (Boot.advanceTo t js) = 1%nat /\
     Boot.store (Boot.advanceTo t' (Boot.advanceTo t js))
       = Boot.store (Boot.advanceTo t js) /\
     Boot.timeoutCount (Boot.advanceTo t' (Boot.advanceTo t js)) = 1%nat) /\
    (Boot.store sceneDone = TS.complete s /\
     Boot.timers sceneDone = [] /\
     Boot.store (Boot.advanceTo t sceneDone) = Boot.store sceneDone /\
     Boot.timeoutCount (Boot.advanceTo t sceneDone) = 0%nat) /\
    (Boot.store jsDone = JS.complete (Boot.store js) /\
     Boot.timers jsDone = [] /\
     Boot.store (Boot.advanceTo t jsDone) = Boot.store jsDone /\
     Boot.timeoutCount (Boot.advanceTo t jsDone) = 0%nat) /\
    (forall w : Boot.World,
        isBooting (Boot.store w) = false ->
        Boot.runCallback Boot.SceneWatchdog w = w /\
        Boot.runCallback Boot.StoreWatchdog w = w).
Proof.
  intros env s t1 t t' Hs Ht1 Ht Ht'. cbv zeta.
  pose proof (strict_mount_disarms s t) as S.
  pose proof (scene_watchdog_fires s t t' Hs Ht Ht') as A.
  pose proof (store_watchdog_fires env s t t' Hs Ht Ht') as B.
  pose proof (scene_watchdog_cancelled s t1 t Hs Ht1) as C.
  pose proof (store_watchdog_cancelled env s t1 t Hs Ht1) as D.
  cbv zeta in S, A, B, C, D.
  split.
  { destruct S as [S1 [S2 [_ [S3 S4]]]].
    split; [exact S1|]. split; [exact S2|]. split; [exact S3|].
    split; [rewrite S3; exact Hs|exact S4]. }
  split; [tauto|]. split; [tauto|]. split; [exact C|]. split; [exact D|].
  apply watchdog_noop_outside_booting.
Qed.

Lemma C2_watchdog_lost_under_strict_mode_witness :
  isBooting (initialState 42) = true /\ 100 < 8000 /\ 8000 <= 8000 /\
  8000 <= 20000 /\
  bootView (Boot.store (Boot.advanceTo 8000
                          (Boot.sceneStrictMount (Boot.freshWorld (initialState 42)))))
  = (Booting, None, false) /\
  bootView (Boot.store (Boot.advanceTo 8000
                          (Boot.sceneMount (Boot.freshWorld (initialState 42)))))
  = (Degraded, Some BOOT_TIMEOUT, true).
Proof.
  assert (H1 : isBooting (initialState 42) = true) by reflexivity.
  assert (H2 : 100 < 8000) by lia.
  assert (H3 : 8000 <= 8000) by lia.
  assert (H4 : 8000 <= 20000) by lia.
  split; [exact H1|]. split; [exact H2|]. split; [exact H3|].
  split; [exact H4|].
  pose proof (C2_watchdog_lost_under_strict_mode {| protocol := "https:" |}
                (initialState 42) 100 8000 20000 H1 H2 H3 H4) as H.
  cbv zeta in H. destruct H as [[_ [_ [S _]]] [[A _] _]].
  split; [rewrite S; reflexivity|exact A].
Defined.

(** C3: the code does not keep the claim. [retryBoot] does reset the store to
    Booting with no BootError and Safe Mode off, from every state. But no
    watchdog is armed for the new attempt: after a first timeout and a
    retry no timer is pending, [Scene]'s effect is held back by
    [initGuardRef], the JavaScript [retryBoot] never reaches
    [initializeBoot], and however long the clock runs the store stays
    Booting; it does not become Degraded again. *)
Theorem C3_retry_resets_without_watchdog :
  forall (env : Env) (s : AppState) (t : Z),
    bootView (TS.retryBoot env s) = (Booting, None, false) /\
    bootView (JS.retryBoot s) = (Booting, None, false) /\
    (let degraded :=
       Boot.advanceTo 8000 (Boot.sceneMount (Boot.freshWorld (initialState 0))) in
     let again := Boot.watchdogEffect (Boot.retryBootTS env degraded) in
     bootView (Boot.store degraded) = (Degraded, Some BOOT_TIMEOUT, true) /\
     Boot.store again = TS.retryBoot env (Boot.store degraded) /\
     Boot.timers again = [] /\
     Boot.watchdogRef again = None /\
     bootView (Boot.store (Boot.advanceTo t again)) = (Booting, None, false)) /\
    (let degraded :=
       Boot.advanceTo 8000
         (Boot.initializeBootJS env (Boot.freshWorld (initialState 0))) in
     let again := Boot.retryBootJS degraded in
     bootView (Boot.store degraded) = (Degraded, Some BOOT_TIMEOUT, true) /\
     Boot.store again = JS.retryBoot (Boot.store degraded) /\
     Boot.timers again = [] /\
     Boot.listeners again = [] /\
     bootView (Boot.store (Boot.advanceTo t again)) = (Booting, None, false)).
Proof.
  intros env s t. split; [|split; [|split]].
  - unfold TS.retryBoot, TS.initializeBoot.
    destruct (String.eqb (protocol env) "file:"); reflexivity.
  - reflexivity.
  - unfold Boot.advanceTo, Boot.retryBootTS, Boot.initializeBootTS,
      TS.retryBoot, TS.initializeBoot.
    destruct (String.eqb (protocol env) "file:"); cbv; repeat split.
  - unfold Boot.advanceTo, Boot.initializeBootJS.
    destruct (String.eqb (protocol env) "file:"); cbv; repeat split.
Qed.

(** ** The guard *)

Section GuardFacts.
Import Guard.
Context {T : Type}.

Lemma reaction_settles :
  forall (label : string) (o : Outcome T) (rest : list (Job T)),
    settled (fold_left (runJob label) rest
               (runJob label {| settled := None; timerPending := true |}
                  (Reaction o)))
    = Some o.
Proof.
  intros label o rest.
  assert (H : forall g : GuardState T,
             settled g = Some o ->
             settled (fold_left (runJob label) rest g) = Some o).
  { induction rest as [|j rest IH]; intros g Hg.
    - exact Hg.
    - cbn [fold_left]. apply IH.
      destruct g as [st tp]; cbn in Hg; subst st.
      destruct j as [[v|e]|]; cbn; try reflexivity.
      destruct tp; reflexivity. }
  apply H. destruct o; reflexivity.
Qed.

Lemma settled_already :
  forall (o : Outcome T) (ms : Z) (label : string),
    withTimeout (AlreadySettled o) ms label = Some o.
Proof.
  intros o ms label. unfold withTimeout, agenda.
  apply (reaction_settles label o [TimeoutBody]).
Qed.

Lemma timerDelay_in_range :
  forall ms : Z, 1 <= ms <= TIMEOUT_MAX -> timerDelay ms = ms.
Proof.
  intros ms [H1 H2]. unfold timerDelay.
  destruct (Z.leb_spec 1 ms); [|lia].
  destruct (Z.leb_spec ms TIMEOUT_MAX); [reflexivity|lia].
Qed.

Lemma timerDelay_out_of_range :
  forall ms : Z, ms < 1 \/ TIMEOUT_MAX < ms -> timerDelay ms = 1.
Proof.
  intros ms H. unfold timerDelay.
  destruct (Z.leb_spec 1 ms); [|reflexivity].
  destruct (Z.leb_spec ms TIMEOUT_MAX); [lia|reflexivity].
Qed.

Lemma withTimeout_by_delay :
  forall (op : Operation T) (ms ms' : Z) (label : string),
    timerDelay ms = timerDelay ms' ->
    withTimeout op ms label = withTimeout op ms' label.
Proof.
  intros op ms ms' label H. unfold withTimeout.
  destruct op as [o|t o|]; try reflexivity.
  unfold agenda. rewrite H. reflexivity.
Qed.

Lemma settles_first :
  forall (o : Outcome T) (t ms : Z) (label : string),
    Z.max 0 t <= timerDelay ms ->
    withTimeout (SettlesAfter t o) ms label = Some o.
Proof.
  intros o t ms label H. unfold withTimeout, agenda. cbn [enqueue].
  destruct (Z.ltb_spec (timerDelay ms) (Z.max 0 t)); [lia|].
  apply (reaction_settles label o [TimeoutBody]).
Qed.

Lemma deadline_first :
  forall (o : Outcome T) (t ms : Z) (label : string),
    timerDelay ms < Z.max 0 t ->
    withTimeout (SettlesAfter t o) ms label = Some (Rejected (newError label)).
Proof.
  intros o t ms label H. unfold withTimeout, agenda. cbn [enqueue].
  destruct (Z.ltb_spec (timerDelay ms) (Z.max 0 t)); [|lia].
  destruct o; reflexivity.
Qed.

Lemma never_settles :
  forall (ms : Z) (label : string),
    withTimeout (@NeverSettles T) ms label = Some (Rejected (newError label)).
Proof. reflexivity. Qed.

End GuardFacts.




(** The three races of the specification, on the fake clock. *)
Example guard_times_out :
  Guard.withTimeout (Guard.SettlesAfter 50 (Guard.Fulfilled 1%nat)) 10 "TIMEOUT"
  = Some (Guard.Rejected (newError "TIMEOUT")).
Proof. reflexivity. Qed.

Example guard_resolves :
  Guard.withTimeout (Guard.SettlesAfter 5 (Guard.Fulfilled 1%nat)) 50 "TIMEOUT"
  = Some (Guard.Fulfilled 1%nat).
Proof. reflexivity. Qed.

Example guard_rejects_with_cause :
  Guard.withTimeout (Guard.SettlesAfter 5 (@Guard.Rejected nat (newError "404")))
    50 "TIMEOUT"
  = Some (Guard.Rejected (newError "404")).
Proof. reflexivity. Qed.


(** With the delay raised to 1 ms, an operation that settles 1 ms after the
    call is the earlier of two tasks due together and wins against a
    deadline of 0. *)
Example settlement_after_1ms_beats_zero_deadline :
  Guard.withTimeout (Guard.SettlesAfter 1 (Guard.Fulfilled 1%nat)) 0 "TIMEOUT"
  = Some (Guard.Fulfilled 1%nat).
Proof. reflexivity. Qed.



(** ** The preloaders *)

Section BatchFacts.
Import Guard Gltf.
Variable preload : Preload.

Lemma safePreloadGLTF_result :
  forall (path : string) (timeoutMs : Z) (s : AppState),
    fst (safePreloadGLTF preload path timeoutMs s)
    = Some (Fulfilled (loads preload path)).
Proof.
  intros path timeoutMs s. unfold safePreloadGLTF, preloadPromise, loads.
  destruct (preload path) as [error|]; rewrite settled_already.
  - destruct (isAssetTimeout error); reflexivity.
  - reflexivity.
Qed.

Lemma startAll_result :
  forall (paths : list string) (timeoutMs : Z) (s : AppState),
    fst (startAll preload paths timeoutMs s)
    = map (fun path => Some (Fulfilled (loads preload path))) paths.
Proof.
  induction paths as [|path rest IH]; intros timeoutMs s.
  - reflexivity.
  - cbn [startAll]. unfold bindM.
    pose proof (safePreloadGLTF_result path timeoutMs s) as H.
    destruct (safePreloadGLTF preload path timeoutMs s) as [r s1].
    cbn [fst] in H. subst r.
    specialize (IH timeoutMs s1).
    destruct (startAll preload rest timeoutMs s1) as [rs s2].
    cbn [fst] in IH. subst rs. reflexivity.
Qed.

Lemma allSettled_all :
  forall (T : Type) (os : list (Outcome T)),
    allSettled (map Some os) = Some os.
Proof.
  induction os as [|o os IH]; [reflexivity|].
  cbn [map allSettled]. rewrite IH. reflexivity.
Qed.

Lemma forEach_sorts :
  forall (done todo : list string) (success failed : list string),
    fold_left (sortResult (done ++ todo))
      (combine (seq (List.length done) (List.length todo))
               (map (fun path => Fulfilled (loads preload path)) todo))
      (success, failed)
    = (success ++ filter (loads preload) todo,
       failed ++ filter (fun path => negb (loads preload path)) todo).
Proof.
  intros done todo. revert done.
  induction todo as [|path todo IH]; intros done success failed.
  - cbn. rewrite !app_nil_r. reflexivity.
  - cbn [List.length seq map combine fold_left filter].
    replace (sortResult (done ++ path :: todo) (success, failed)
               (List.length done, Fulfilled (loads preload path)))
      with (if loads preload path
            then (success ++ [path], failed)
            else (success, failed ++ [path])).
    2:{ unfold sortResult. rewrite nth_middle.
        destruct (loads preload path); reflexivity. }
    specialize (IH (done ++ [path])).
    rewrite <- app_assoc in IH. cbn [app] in IH.
    rewrite length_app in IH. cbn [List.length] in IH.
    replace (List.length done + 1)%nat with (S (List.length done)) in IH by lia.
    destruct (loads preload path); cbn [negb]; rewrite IH;
      rewrite <- ?app_assoc; reflexivity.
Qed.

Lemma partition_permutation :
  forall (A : Type) (f : A -> bool) (l : list A),
    Permutation (filter f l ++ filter (fun a => negb (f a)) l) l.
Proof.
  induction l as [|a l IH]; [constructor|].
  cbn [filter]. destruct (f a); cbn [negb app].
  - constructor. exact IH.
  - apply Permutation_sym, Permutation_cons_app, Permutation_sym. exact IH.
Qed.

Lemma batch_result :
  forall (paths : list string) (ms : Z) (allow : bool) (s : AppState),
    fst (batchPreloadGLTF preload paths ms allow s)
    = Some (Fulfilled (filter (loads preload) paths,
                       filter (fun path => negb (loads preload path)) paths)).
Proof.
  intros paths ms allow s. unfold batchPreloadGLTF, bindM.
  pose proof (startAll_result paths ms s) as H.
  destruct (startAll preload paths ms s) as [promises s1].
  cbn [fst] in H. subst promises.
  rewrite <- (map_map (fun path => Fulfilled (loads preload path)) Some).
  rewrite allSettled_all. unfold indexed. rewrite length_map.
  pose proof (forEach_sorts [] paths [] []) as F. cbn [app List.length] in F.
  rewrite F.
  destruct (Nat.eqb _ 0 && negb allow); reflexivity.
Qed.

End BatchFacts.

(** C8: the batch over any list of paths ends fulfilled, never rejected and
    never pending, with the pair (success, failed) where [success] holds the
    paths whose load succeeded and [failed] the others, each in the order of
    the input: together a rearrangement of the input, so the two lengths add
    up to N. A failing load leaves the results of the others alone: of
    three loads of which the second fails with the ASSET_TIMEOUT error the
    batch reports two successes and one failure. *)
Theorem C8_batch_partitions :
  forall (preload : Gltf.Preload) (paths : list string) (ms : Z)
         (allow : bool) (s : AppState),
    let success := filter (Gltf.loads preload) paths in
    let failed := filter (fun path => negb (Gltf.loads preload path)) paths in
    fst (Gltf.batchPreloadGLTF preload paths ms allow s)
      = Some (Guard.Fulfilled (success, failed)) /\
    Permutation (success ++ failed) paths /\
    (List.length success + List.length failed = List.length paths)%nat /\
    (forall path,
        fst (Gltf.safePreloadGLTF preload path ms s)
        = Some (Guard.Fulfilled (Gltf.loads preload path))) /\
    fst (Gltf.batchPreloadGLTF
           (fun path => if String.eqb path "b.glb"
                        then Some (newError "ASSET_TIMEOUT") else None)
           ["a.glb"; "b.glb"; "c.glb"] 5000 true (initialState 0))
      = Some (Guard.Fulfilled (["a.glb"; "c.glb"], ["b.glb"])).
Proof.
  intros preload paths ms allow s success failed.
  split; [apply batch_result|].
  split; [apply partition_permutation|].
  split.
  - rewrite <- length_app. apply Permutation_length.
    apply partition_permutation.
  - split; [|reflexivity].
    intros path. apply safePreloadGLTF_result.
Qed.

(** What the failing load of that batch leaves in the store. *)
Example batch_failure_marks_store :
  let after :=
    snd (Gltf.batchPreloadGLTF
           (fun path => if String.eqb path "b.glb"
                        then Some (newError "ASSET_TIMEOUT") else None)
           ["a.glb"; "b.glb"; "c.glb"] 5000 true (initialState 0)) in
  bootError after = Some ASSET_TIMEOUT /\ safeMode after = true /\
  isBooting after = true.
Proof. repeat split. Qed.

(** ** The probe *)

Lemma notify_store :
  forall (before : bool) (w : Boot.World),
    Boot.store (Boot.notify before w) = Boot.store w /\
    Boot.log (Boot.notify before w) = Boot.log w.
Proof.
  intros before w. unfold Boot.notify.
  destruct (Bool.eqb before (isBooting (Boot.store w))); [split; reflexivity|].
  generalize (isBooting (Boot.store w)) as after. intros after.
  generalize (Boot.listeners w) as ls. intros ls. revert w.
  induction ls as [|l ls IH]; intros w; [split; reflexivity|].
  cbn [fold_left].
  destruct (IH (Boot.runListener l after w)) as [A B]. rewrite A, B.
  destruct l as [|id]; cbn [Boot.runListener].
  - destruct after; [split; reflexivity|].
    destruct (Boot.watchdogRef w); split; reflexivity.
  - destruct after; split; reflexivity.
Qed.

Lemma setState_store :
  forall (updater : AppState -> Patch) (w : Boot.World),
    Boot.store (Boot.setState updater w)
      = set_ (updater (Boot.store w)) (Boot.store w) /\
    Boot.log (Boot.setState updater w)
      = Boot.log w ++ [updater (Boot.store w)].
Proof.
  intros updater w. unfold Boot.setState.
  destruct (notify_store (isBooting (Boot.store w))
              (Boot.withStore (set_ (updater (Boot.store w)) (Boot.store w))
                 (updater (Boot.store w)) w)) as [A B].
  rewrite A, B. split; reflexivity.
Qed.

Lemma bind_always_throws :
  forall (A B : Type) (c : Canvas.Call A) (k : A -> Canvas.Call B),
    (forall a, exists e, k a = Canvas.Throws e) ->
    exists e, Canvas.bind c k = Canvas.Throws e.
Proof.
  intros A B c k H. destruct c as [a|e]; [apply H | exists e; reflexivity].
Qed.

Ltac throws :=
  repeat (cbn;
          match goal with
          | H : ?x = _ |- context [?x] => rewrite H
          | |- exists e, Canvas.Throws _ = Canvas.Throws e =>
              eexists; reflexivity
          | |- exists e, Canvas.bind _ _ = Canvas.Throws e =>
              apply bind_always_throws; intros
          | |- exists e, match ?x with _ => _ end = _ => destruct x
          end).

Lemma probe_fails_iff :
  forall (dev : bool) (gl : option Canvas.Renderer) (camera : option Canvas.Camera),
    Canvas.ProbeFails dev gl camera <->
    exists e, Canvas.probe dev gl camera = Canvas.Throws e.
Proof.
  intros dev gl camera. split.
  - intros H. destruct H; subst; unfold Canvas.probe; throws.
  - intros [e He]. unfold Canvas.probe in He.
    destruct camera as [[[|]]|]; try apply Canvas.NoCamera;
      try apply Canvas.CameraInvalid.
    destruct gl as [[[[[c|]|e1]|]]|]; try (constructor; fail).
    destruct (Canvas.clearColor c) as [[]|e1] eqn:E1;
        [|eapply Canvas.ClearColorThrows; eassumption].
      destruct (Canvas.clear c) as [[]|e2] eqn:E2;
        [|eapply Canvas.ClearThrows; eassumption].
      destruct (Canvas.getExtension c) as [[ext|]|e3] eqn:E3;
        [| |eapply Canvas.GetExtensionThrows; eassumption].
      * destruct dev eqn:Ed.
        -- destruct (Canvas.getParameter c ext) as [v|e4] eqn:E4.
           ++ cbn in He. rewrite E1, E2, E3 in He. cbn in He.
              rewrite E4 in He. cbn in He. discriminate.
           ++ eapply Canvas.GetParameterThrows; eauto.
        -- cbn in He. rewrite E1, E2, E3 in He. cbn in He. discriminate.
      * cbn in He. rewrite E1, E2, E3 in He. cbn in He. discriminate.
Qed.

(** C9: the probe of [handleCanvasCreated] fails exactly when one statement
    of its [try] block throws (no renderer or context, a throwing clear, an
    invalid camera, ...). Then the store receives one failure transition,
    [setSafe(true)], [setError('WEBGL_FAIL')], [setBooting(false)], and ends
    with BootError WEBGL_FAIL, Safe Mode on and Booting left. When the probe
    succeeds the only call is [setBooting(false)]: the store is that of
    complete() and BootError is what it was. *)
Theorem C9_probe_failure_is_webgl_fail :
  forall (dev : bool) (gl : option Canvas.Renderer)
         (camera : option Canvas.Camera) (w : Boot.World),
    let w' := Canvas.handleCanvasCreated dev gl camera w in
    (Canvas.ProbeFails dev gl camera ->
     Boot.log w' = Boot.log w ++ [patchSafe true; patchError (Some WEBGL_FAIL);
                                  patchBooting false] /\
     Boot.store w' = TS.fail WEBGL_FAIL (Boot.store w) /\
     bootView (Boot.store w') = (Degraded, Some WEBGL_FAIL, true)) /\
    (~ Canvas.ProbeFails dev gl camera ->
     Boot.log w' = Boot.log w ++ [patchBooting false] /\
     Boot.store w' = TS.complete (Boot.store w) /\
     isBooting (Boot.store w') = false /\
     bootError (Boot.store w') = bootError (Boot.store w)) /\
    Canvas.ProbeFails dev None camera /\
    Canvas.ProbeFails dev gl None /\
    (forall c e,
        Canvas.clear c = Canvas.Throws e ->
        Canvas.ProbeFails dev
          (Some {| Canvas.getContext := Some (Canvas.Returns (Some c)) |})
          camera).
Proof.
  intros dev gl camera w w'. subst w'. unfold Canvas.handleCanvasCreated.
  pose proof (probe_fails_iff dev gl camera) as Hiff.
  split; [|split; [|split; [|split]]].
  - intros Hf. apply Hiff in Hf. destruct Hf as [e He]. rewrite He.
    unfold Boot.setBooting, Boot.setError, Boot.setSafe.
    set (w1 := Boot.setState (fun _ => patchSafe true) w).
    set (w2 := Boot.setState (fun _ => patchError (Some WEBGL_FAIL)) w1).
    destruct (setState_store (fun _ => patchBooting false) w2) as [A3 B3].
    destruct (setState_store (fun _ => patchError (Some WEBGL_FAIL)) w1)
      as [A2 B2].
    destruct (setState_store (fun _ => patchSafe true) w) as [A1 B1].
    fold w1 in A1, B1. fold w2 in A2, B2.
    rewrite A3, B3, A2, B2, A1, B1.
    rewrite <- !app_assoc. repeat split.
  - intros Hn.
    destruct (Canvas.probe dev gl camera) as [[]|e] eqn:Hp.
    + unfold Boot.setBooting.
      destruct (setState_store (fun _ => patchBooting false) w) as [A B].
      rewrite A, B. repeat split.
    + exfalso. apply Hn. apply Hiff. exists e. reflexivity.
  - constructor.
  - constructor.
  - intros c e Hc. eapply Canvas.ClearThrows. exact Hc.
Qed.

Lemma C9_probe_failure_is_webgl_fail_witness :
  Canvas.ProbeFails true None (Some {| Canvas.updateProjectionMatrixIsFunction := true |}) /\
  bootView (Boot.store (Canvas.handleCanvasCreated true None
                          (Some {| Canvas.updateProjectionMatrixIsFunction := true |})
                          (Boot.sceneMount (Boot.freshWorld (initialState 3)))))
  = (Degraded, Some WEBGL_FAIL, true).
Proof.
  assert (H : Canvas.ProbeFails true None
                (Some {| Canvas.updateProjectionMatrixIsFunction := true |}))
    by constructor.
  split; [exact H|].
  pose proof (C9_probe_failure_is_webgl_fail true None
                (Some {| Canvas.updateProjectionMatrixIsFunction := true |})
                (Boot.sceneMount (Boot.freshWorld (initialState 3)))) as T.
  cbv zeta in T. destruct T as [T _]. apply T. exact H.
Defined.

(** ** The counts *)

(** C6, as stated, fails for the bubbles: in Safe Mode on a desktop that is
    not in low-power mode there are more of them than on a low-power device
    outside Safe Mode. *)
Lemma C6_safe_mode_bubbles_exceed_low_power :
  ~ (Quality.q_bubbleCount
       (Quality.computeQuality Degraded true (Quality.mkDevice false false false))
     <= Quality.q_bubbleCount
          (Quality.computeQuality Running false (Quality.mkDevice true false false))).
Proof. cbv. intros H. apply H. reflexivity. Qed.

(** C6 (amended): the object counts of [SafeObjectsCluster] are ordered as
    claimed, Safe Mode at most low power at most normal, on every device.
    Of the bubble count this much holds: a low-power device has at most the
    bubbles of a normal one, and Safe Mode never gives a device more
    bubbles than a normal device of its kind, mobile or desktop, has. The
    Safe Mode count is not bounded by the low-power count. *)
Theorem C6_counts_ordered :
  forall (ph ph' : BootPhase) (m m' m'' r r' r'' anyLow : bool),
    let safeQ := Quality.computeQuality ph true (Quality.mkDevice anyLow m r) in
    let lowQ := Quality.computeQuality ph' false (Quality.mkDevice true m' r') in
    let normalQ := Quality.computeQuality ph' false (Quality.mkDevice false m'' r'') in
    let sameKindQ := Quality.computeQuality ph' false (Quality.mkDevice false m r'') in
    Quality.q_mainObjectCount safeQ <= Quality.q_mainObjectCount lowQ
      <= Quality.q_mainObjectCount normalQ /\
    Quality.q_decorativeCount safeQ <= Quality.q_decorativeCount lowQ
      <= Quality.q_decorativeCount normalQ /\
    Quality.q_bubbleCount lowQ <= Quality.q_bubbleCount normalQ /\
    Quality.q_bubbleCount safeQ <= Quality.q_bubbleCount sameKindQ.
Proof.
  intros ph ph' m m' m'' r r' r'' anyLow. cbv zeta.
  destruct m, m', m'', anyLow; cbn; repeat split; lia.
Qed.


(** ** The other store actions *)

Lemma clamp_bounds : forall d : Q, (0 <= Qmax 0 (Qmin 1 d) <= 1)%Q.
Proof.
  intros d. split.
  - apply Q.le_max_l.
  - apply Q.max_lub; [discriminate|]. apply Q.le_min_l.
Qed.

Lemma clamp_cases :
  forall d : Q,
    ((d <= 0)%Q /\ Qmax 0 (Qmin 1 d) = 0%Q) \/
    ((1 <= d)%Q /\ Qmax 0 (Qmin 1 d) = 1%Q) \/
    ((0 < d < 1)%Q /\ Qmax 0 (Qmin 1 d) = d).
Proof.
  intros d. unfold Qmax, Qmin, GenericMinMax.gmax, GenericMinMax.gmin.
  destruct (Qcompare_spec 1 d) as [E|L|G].
  - right. left. split; [rewrite <- E; apply Qle_refl | reflexivity].
  - right. left. split; [apply Qlt_le_weak; exact L | reflexivity].
  - destruct (Qcompare_spec 0 d) as [E0|L0|G0].
    + left. split; [rewrite <- E0; apply Qle_refl | reflexivity].
    + right. right. split; [split; assumption | reflexivity].
    + left. split; [apply Qlt_le_weak; exact G0 | reflexivity].
Qed.

(** X1: [setDepth] stores NaN for NaN and for no other number, so that
    every other input, the infinities included, leaves a store whose depth
    lies between 0 and 1: a value in that range as it is, a smaller one as
    0, a larger one as 1. Setting the stored depth again changes nothing,
    and the boot state is not touched. *)
Theorem setDepth_clamps :
  forall (d : Store.JsNumber) (s : AppState),
    (Store.clampDepth d = Store.NaN <-> d = Store.NaN) /\
    (Store.setDepth d s = None <-> d = Store.NaN) /\
    (forall s' : AppState,
        Store.setDepth d s = Some s' ->
        (0 <= depth s' <= 1)%Q /\
        bootView s' = bootView s /\
        Store.setDepth (Store.Finite (depth s')) s' = Some s' /\
        (forall q, d = Store.Finite q ->
                   ((0 <= q <= 1)%Q -> (depth s' == q)%Q) /\
                   ((q <= 0)%Q -> depth s' = 0%Q) /\
                   ((1 <= q)%Q -> depth s' = 1%Q)) /\
        (d = Store.PosInfinity -> depth s' = 1%Q) /\
        (d = Store.NegInfinity -> depth s' = 0%Q)).
Proof.
  intros d s.
  assert (I : forall q, Qmax 0 (Qmin 1 (Qmax 0 (Qmin 1 q))) = Qmax 0 (Qmin 1 q)).
  { intros q.
    destruct (clamp_cases q) as [[H E]|[[H E]|[[H1 H2] E]]]; rewrite E;
      try reflexivity.
    exact E. }
  split; [|split].
  - destruct d; cbn; split; intros H; try discriminate H; reflexivity.
  - destruct d; cbn; split; intros H; try discriminate H; reflexivity.
  - intros s' H. destruct d as [q| | |]; cbn in H; try discriminate H.
    + injection H as E. subst s'. cbn [depth Store.withDepth].
      split; [apply clamp_bounds|]. split; [reflexivity|].
      split.
      { unfold Store.setDepth, Store.clampDepth. cbn [Store.mathMin Store.mathMax].
        rewrite I. reflexivity. }
      split; [|split; intros H; discriminate H].
      intros q' Hq. injection Hq as Hq. subst q'.
      destruct (clamp_cases q) as [[H E]|[[H E]|[[H1 H2] E]]]; rewrite E;
        repeat split; intros; try reflexivity; try lra.
    + injection H as E. subst s'. cbn [depth Store.withDepth].
      split; [split; discriminate|]. split; [reflexivity|].
      split; [reflexivity|].
      split; [intros q Hq; discriminate Hq|].
      split; [reflexivity|intros H; discriminate H].
    + injection H as E. subst s'. cbn [depth Store.withDepth].
      split; [split; discriminate|]. split; [reflexivity|].
      split; [reflexivity|].
      split; [intros q Hq; discriminate Hq|].
      split; [intros H; discriminate H|reflexivity].
Qed.

Lemma setDepth_clamps_witness :
  Store.setDepth (Store.Finite (14 # 10)) (initialState 0)
  = Some (Store.withDepth 1 (initialState 0)) /\
  depth (Store.withDepth 1 (initialState 0)) = 1%Q.
Proof.
  assert (H : Store.setDepth (Store.Finite (14 # 10)) (initialState 0)
              = Some (Store.withDepth 1 (initialState 0))) by reflexivity.
  split; [exact H|].
  destruct (setDepth_clamps (Store.Finite (14 # 10)) (initialState 0))
    as [_ [_ A]].
  destruct (A _ H) as [_ [_ [_ [B _]]]].
  destruct (B (14 # 10) eq_refl) as [_ [_ C]].
  apply C. discriminate.
Defined.

(** X2: in every state whose depth lies between 0 and 1 the computed
    values stay in the ranges the store documents: the field of view
    between 45 and 55, the water opacity between 0.3 and 0.8, fog up to
    0.02, the bubble rate between 1 and 1.7, the vignette between 0.05 and
    0.14, bloom up to 0.35; bloom is 0 in low-power mode and in Safe Mode,
    whatever the depth. (Numbers are rationals here: no rounding.) *)
Theorem computed_values_in_range :
  forall s : AppState,
    ((0 <= depth s <= 1)%Q ->
     (45 <= Store.cameraFov s <= 55)%Q /\
     (3 # 10 <= Store.waterOpacity s <= 8 # 10)%Q /\
     (0 <= Store.fogDensity s <= 2 # 100)%Q /\
     (1 <= Store.bubbleRate s <= 17 # 10)%Q /\
     (5 # 100 <= Store.vignetteStrength s <= 14 # 100)%Q /\
     (0 <= Store.bloomStrength s <= 35 # 100)%Q) /\
    (lowPowerMode s || safeMode s = true -> Store.bloomStrength s = 0%Q).
Proof.
  intros s. split.
  - intros [L U].
    unfold Store.cameraFov, Store.waterOpacity, Store.fogDensity,
      Store.bubbleRate, Store.vignetteStrength, Store.bloomStrength.
    set (x := depth s) in *.
    repeat split; try lra.
    + apply Q.min_glb; lra.
    + apply Q.le_min_l.
    + destruct (lowPowerMode s || safeMode s); lra.
    + destruct (lowPowerMode s || safeMode s); lra.
  - intros H. unfold Store.bloomStrength. rewrite H. reflexivity.
Qed.

Lemma computed_values_in_range_witness :
  (0 <= depth (Store.withDepth (4 # 10) (initialState 0)) <= 1)%Q /\
  (45 <= Store.cameraFov (Store.withDepth (4 # 10) (initialState 0)) <= 55)%Q.
Proof.
  assert (H : (0 <= depth (Store.withDepth (4 # 10) (initialState 0)) <= 1)%Q)
    by (split; discriminate).
  split; [exact H|].
  destruct (computed_values_in_range (Store.withDepth (4 # 10) (initialState 0)))
    as [A _].
  destruct (A H) as [B _]. exact B.
Defined.

(** X3: [handleFirstScroll] does nothing while the app is booting or a dive
    is under way; it never touches the boot state, and a second call
    changes nothing more. With reduced motion it never raises [isDiving]:
    it jumps to depth 0.4 and allows resurfacing; otherwise it starts the
    dive and leaves the depth alone. *)
Theorem handleFirstScroll_gated :
  forall s : AppState,
    (isBooting s = true \/ isDiving s = true -> Store.handleFirstScroll s = s) /\
    Store.handleFirstScroll (Store.handleFirstScroll s)
    = Store.handleFirstScroll s /\
    bootView (Store.handleFirstScroll s) = bootView s /\
    protocolWarning (Store.handleFirstScroll s) = protocolWarning s /\
    (prefersReducedMotion s = true ->
     isDiving (Store.handleFirstScroll s) = isDiving s) /\
    (isBooting s = false -> isDiving s = false ->
     prefersReducedMotion s = false ->
     isDiving (Store.handleFirstScroll s) = true /\
     depth (Store.handleFirstScroll s) = depth s) /\
    (isBooting s = false -> isDiving s = false ->
     prefersReducedMotion s = true ->
     depth (Store.handleFirstScroll s) = (4 # 10)%Q /\
     canResurface (Store.handleFirstScroll s) = true).
Proof.
  intros s. destruct s as [b e sm pw d dv cr ap ho ui wm lp prm mob sd ov th].
  unfold Store.handleFirstScroll. cbn.
  destruct b, dv, prm; cbn; repeat split; intros; try reflexivity;
    try discriminate; try tauto;
    match goal with
    | H : _ \/ _ |- _ => destruct H; discriminate
    end.
Qed.

Lemma handleFirstScroll_gated_witness :
  (isBooting (initialState 0) = true \/ isDiving (initialState 0) = true) /\
  Store.handleFirstScroll (initialState 0) = initialState 0.
Proof.
  assert (H : isBooting (initialState 0) = true \/ isDiving (initialState 0) = true)
    by (left; reflexivity).
  split; [exact H|].
  destruct (handleFirstScroll_gated (initialState 0)) as [A _].
  apply A. exact H.
Defined.

Lemma toLowerCase_idem :
  forall key : string,
    Store.toLowerCase (Store.toLowerCase key) = Store.toLowerCase key.
Proof.
  induction key as [|c rest IH]; [reflexivity|].
  cbn [Store.toLowerCase]. rewrite IH. f_equal.
  unfold Store.lowerAscii.
  destruct ((65 <=? nat_of_ascii c)%nat && (nat_of_ascii c <=? 90)%nat) eqn:E.
  - rewrite nat_ascii_embedding.
    + apply andb_true_iff in E. destruct E as [E1 E2].
      apply Nat.leb_le in E1, E2.
      replace ((nat_of_ascii c + 32 <=? 90)%nat) with false
        by (symmetry; apply Nat.leb_gt; lia).
      rewrite andb_false_r. reflexivity.
    + apply andb_true_iff in E. destruct E as [_ E2]. apply Nat.leb_le in E2. lia.
  - rewrite E. reflexivity.
Qed.

(** X4: the keyboard shortcuts take a key in either case; they never touch
    the boot state, the depth or the dive, so they also work while
    booting. "h" and "l" are toggles that undo themselves, Escape closes the
    panel and does nothing without one, and a key other than r, h, l and
    Escape changes nothing. *)
Theorem keyboard_shortcuts :
  forall (random random' : Q) (key : string) (s : AppState),
    Store.onKeyDown random key s
    = Store.onKeyDown random (Store.toLowerCase key) s /\
    bootView (Store.onKeyDown random key s) = bootView s /\
    depth (Store.onKeyDown random key s) = depth s /\
    isDiving (Store.onKeyDown random key s) = isDiving s /\
    Store.onKeyDown random' "H" (Store.onKeyDown random "h" s) = s /\
    Store.onKeyDown random' "l" (Store.onKeyDown random "L" s) = s /\
    activePanel (Store.onKeyDown random "Escape" s) = None /\
    (activePanel s = None -> Store.onKeyDown random "Escape" s = s) /\
    (Store.toLowerCase key <> "r" -> Store.toLowerCase key <> "h" ->
     Store.toLowerCase key <> "l" -> Store.toLowerCase key <> "escape" ->
     Store.onKeyDown random key s = s).
Proof.
  intros random random' key s.
  split; [unfold Store.onKeyDown; rewrite toLowerCase_idem; reflexivity|].
  assert (G : bootView (Store.onKeyDown random key s) = bootView s /\
              depth (Store.onKeyDown random key s) = depth s /\
              isDiving (Store.onKeyDown random key s) = isDiving s).
  { unfold Store.onKeyDown.
    repeat match goal with
           | |- context [if ?b then _ else _] => destruct b
           end; try destruct (activePanel s); repeat split. }
  destruct G as [G1 [G2 G3]].
  split; [exact G1|]. split; [exact G2|]. split; [exact G3|].
  clear G1 G2 G3.
  split; [destruct s as [? ? ? ? ? ? ? ? ? ui ? ? ? ? ? ? ?];
          destruct ui; reflexivity|].
  split; [destruct s as [? ? ? ? ? ? ? ? ? ? ? lp ? ? ? ? ?];
          destruct lp; reflexivity|].
  split; [destruct s as [? ? ? ? ? ? ? [p|] ? ? ? ? ? ? ? ? ?]; reflexivity|].
  split.
  - intros H. destruct s; cbn in *; subst; reflexivity.
  - intros Hr Hh Hl He. unfold Store.onKeyDown.
    apply String.eqb_neq in Hr, Hh, Hl, He. rewrite Hr, Hh, Hl, He. reflexivity.
Qed.

Lemma keyboard_shortcuts_witness :
  activePanel (initialState 0) = None /\
  Store.onKeyDown 0 "Escape" (initialState 0) = initialState 0.
Proof.
  assert (H : activePanel (initialState 0) = None) by reflexivity.
  split; [exact H|].
  destruct (keyboard_shortcuts 0 0 "x" (initialState 0))
    as [_ [_ [_ [_ [_ [_ [_ [A _]]]]]]]].
  apply A. exact H.
Defined.





(** ** The seeded generator *)

Import LayoutSpec.

Lemma create_cases :
  forall seed : Z,
    (Z.rem seed 2147483647 = -2147483646 /\ Layout.create seed = 0) \/
    (Z.rem seed 2147483647 <> -2147483646 /\ Inv (Layout.create seed)).
Proof.
  intros seed. unfold Layout.create, Inv.
  pose proof (Z.rem_bound_abs seed 2147483647 ltac:(lia)) as B.
  destruct (Z.leb_spec (Z.rem seed 2147483647) 0);
    destruct (Z.eq_dec (Z.rem seed 2147483647) (-2147483646)); lia.
Qed.

Lemma next_keeps_Inv :
  forall st : Z, Inv st ->
    Inv (fst (Layout.next st)) /\ snd (Layout.next st) = fst (Layout.next st).
Proof.
  intros st [L U]. unfold Layout.next, Inv. cbn [fst snd].
  split; [|reflexivity].
  rewrite Z.rem_mod_nonneg by lia.
  pose proof (Z.mod_pos_bound (st * 16807) 2147483647 ltac:(lia)) as B.
  assert (N : (st * 16807) mod 2147483647 <> 0).
  { intros E. apply Z.mod_divide in E; [|lia].
    rewrite Z.mul_comm in E.
    apply Z.gauss in E; [|reflexivity].
    destruct E as [k Hk]. nia. }
  lia.
Qed.

Lemma Holds_ret :
  forall (A : Type) (I : Z -> Prop) (a : A) (P : A -> Prop),
    P a -> Holds I (Layout.ret a) P.
Proof. intros A I a P H st Hst. split; assumption. Qed.

Lemma Holds_bind :
  forall (A B : Type) (I : Z -> Prop) (m : Layout.Rng A)
         (k : A -> Layout.Rng B) (P : A -> Prop) (Q : B -> Prop),
    Holds I m P ->
    (forall a, P a -> Holds I (k a) Q) ->
    Holds I (Layout.bind m k) Q.
Proof.
  intros A B I m k P Q Hm Hk st Hst. unfold Layout.bind.
  destruct (Hm st Hst) as [Pa Ia]. destruct (m st) as [a st'].
  cbn [fst snd] in *. apply (Hk a Pa st' Ia).
Qed.

Lemma Holds_weaken :
  forall (A : Type) (I : Z -> Prop) (m : Layout.Rng A) (P Q : A -> Prop),
    Holds I m P -> (forall a, P a -> Q a) -> Holds I m Q.
Proof.
  intros A I m P Q H HPQ st Hst. destruct (H st Hst) as [Pa Ia].
  split; [apply HPQ; exact Pa | exact Ia].
Qed.

Lemma float_spec :
  Holds Inv Layout.float (fun f => (0 <= f < 1)%Q).
Proof.
  intros st Hst. unfold Layout.float, Layout.bind, Layout.ret.
  destruct (next_keeps_Inv st Hst) as [[L U] E].
  destruct (Layout.next st) as [n st']. cbn [fst snd] in *. subst st'.
  split; [|split; assumption].
  assert (D : (0 < inject_Z 2147483646)%Q) by reflexivity.
  split.
  - apply Qle_shift_div_l; [exact D|]. rewrite Qmult_0_l.
    assert (H0 : (inject_Z 0 <= inject_Z (n - 1))%Q)
      by (rewrite <- Zle_Qle; lia).
    exact H0.
  - apply Qlt_shift_div_r; [exact D|]. rewrite Qmult_1_l.
    rewrite <- Zlt_Qlt. lia.
Qed.

Lemma range_spec :
  forall min max : Q,
    (min < max)%Q ->
    Holds Inv (Layout.range min max) (fun r => (min <= r < max)%Q).
Proof.
  intros min max Hlt. unfold Layout.range.
  eapply Holds_bind; [apply float_spec|].
  intros f [F0 F1]. apply Holds_ret. split; nra.
Qed.

Lemma choice_spec :
  forall (A : Type) (array : list A),
    array <> [] ->
    Holds Inv (Layout.choice array) (fun r => exists a, r = Some a /\ In a array).
Proof.
  intros A array Hne. unfold Layout.choice.
  eapply Holds_bind; [apply float_spec|].
  intros f [F0 F1]. apply Holds_ret.
  set (len := Z.of_nat (List.length array)).
  assert (Hlen : 0 < len).
  { subst len. destruct array; [contradiction|]. cbn [List.length]. lia. }
  assert (HlenQ : (inject_Z 0 < inject_Z len)%Q)
    by (rewrite <- Zlt_Qlt; exact Hlen).
  change (inject_Z 0) with 0%Q in HlenQ.
  set (x := (f * inject_Z len)%Q).
  assert (X0 : (0 <= x)%Q) by (subst x; nra).
  assert (X1 : (x < inject_Z len)%Q) by (subst x; nra).
  assert (I0 : 0 <= Qfloor x).
  { change 0 with (Qfloor 0). apply Qfloor_resp_le. exact X0. }
  assert (I1 : Qfloor x < len).
  { rewrite Zlt_Qlt. eapply Qle_lt_trans; [apply Qfloor_le | exact X1]. }
  destruct (Z.ltb_spec (Qfloor x) 0) as [|_]; [lia|].
  destruct (nth_error array (Z.to_nat (Qfloor x))) as [a|] eqn:E.
  - exists a. split; [reflexivity|]. eapply nth_error_In. exact E.
  - apply nth_error_None in E. subst len. lia.
Qed.

(** X8: from every seed but the ones singled out in X9, the state of
    [SeededRandom] starts and stays between 1 and 2147483646, so [float] is
    in [0, 1), [range(min, max)] in [min, max) and [choice] returns an
    element of a non-empty array. *)
Theorem generator_stays_in_range :
  forall (seed : Z) (A : Type) (array : list A) (min max : Q),
    Z.rem seed 2147483647 <> -2147483646 ->
    Inv (Layout.create seed) /\
    Holds Inv Layout.next Inv /\
    Holds Inv Layout.float (fun f => (0 <= f < 1)%Q) /\
    ((min < max)%Q ->
     Holds Inv (Layout.range min max) (fun r => (min <= r < max)%Q)) /\
    (array <> [] ->
     Holds Inv (Layout.choice array) (fun r => exists a, r = Some a /\ In a array)).
Proof.
  intros seed A array min max Hseed.
  split.
  - destruct (create_cases seed) as [[E _]|[_ H]]; [contradiction|exact H].
  - split.
    + intros st Hst. destruct (next_keeps_Inv st Hst) as [H E].
      rewrite E. split; exact H.
    + split; [apply float_spec|].
      split; [apply range_spec | apply choice_spec].
Qed.

Lemma generator_stays_in_range_witness :
  Z.rem 1234 2147483647 <> -2147483646 /\ Inv (Layout.create 1234).
Proof.
  assert (H : Z.rem 1234 2147483647 <> -2147483646) by discriminate.
  split; [exact H|].
  destruct (generator_stays_in_range 1234 nat [] 0 1 H) as [A _]. exact A.
Defined.

(** X9: a seed whose remainder by 2147483647 is -2147483646 (such as
    -2147483646 itself) puts the generator into state 0, where it stays:
    [next] is 0 for ever, [float] is negative, [range] falls below [min]
    and [choice] returns undefined for every array. *)
Theorem generator_stuck_at_zero :
  forall (seed : Z) (A : Type) (array : list A) (min max : Q),
    Z.rem seed 2147483647 = -2147483646 ->
    Layout.create seed = 0 /\
    Layout.next 0 = (0, 0) /\
    Layout.float 0 = ((-1 # 2147483646)%Q, 0) /\
    fst (Layout.choice array 0) = None /\
    ((min < max)%Q -> (fst (Layout.range min max 0%Z) < min)%Q).
Proof.
  intros seed A array min max Hseed.
  split.
  - destruct (create_cases seed) as [[_ E]|[N _]]; [exact E|contradiction].
  - split; [reflexivity|]. split; [reflexivity|]. split.
    + unfold Layout.choice, Layout.bind, Layout.ret.
      change (Layout.float 0) with ((-1 # 2147483646)%Q, 0). cbn [fst].
      set (len := Z.of_nat (List.length array)).
      destruct array as [|a rest].
      * reflexivity.
      * assert (Hlen : 0 < len) by (subst len; cbn [List.length]; lia).
        assert (X : ((-1 # 2147483646) * inject_Z len < 0)%Q).
        { assert (HlenQ : (inject_Z 0 < inject_Z len)%Q)
            by (rewrite <- Zlt_Qlt; exact Hlen).
          change (inject_Z 0) with 0%Q in HlenQ. nra. }
        assert (I : Qfloor ((-1 # 2147483646) * inject_Z len) < 0).
        { rewrite Zlt_Qlt. eapply Qle_lt_trans; [apply Qfloor_le | exact X]. }
        destruct (Z.ltb_spec (Qfloor ((-1 # 2147483646) * inject_Z len)) 0);
          [reflexivity|lia].
    + intros Hlt. unfold Layout.range, Layout.bind, Layout.ret.
      change (Layout.float 0) with ((-1 # 2147483646)%Q, 0). cbn [fst].
      nra.
Qed.

Lemma generator_stuck_at_zero_witness :
  Z.rem (-2147483646) 2147483647 = -2147483646 /\
  Layout.create (-2147483646) = 0.
Proof.
  assert (H : Z.rem (-2147483646) 2147483647 = -2147483646) by reflexivity.
  split; [exact H|].
  destruct (generator_stuck_at_zero (-2147483646) nat [] 0 1 H) as [A _].
  exact A.
Defined.



(** ** Placement *)

Section PlacementFacts.
Variable sqrt : Q -> Q.

Lemma valid_iff :
  forall (minDistance : Q) (candidate : Layout.Position)
         (positions : list Layout.Position),
    Layout.valid sqrt minDistance candidate positions = true <->
    (forall p, In p positions ->
               (minDistance <= Layout.distance sqrt candidate p)%Q).
Proof.
  intros minDistance candidate positions.
  induction positions as [|pos rest IH]; cbn [Layout.valid].
  - split; [intros _ p []|reflexivity].
  - unfold Layout.tooClose.
    destruct (Qle_bool minDistance (Layout.distance sqrt candidate pos)) eqn:E;
      cbn [negb].
    + rewrite IH. apply Qle_bool_iff in E. split.
      * intros H p [<-|Hp]; [exact E|apply H; exact Hp].
      * intros H p Hp. apply H. right. exact Hp.
    + split; [discriminate|]. intros H.
      assert (Hpos : (minDistance <= Layout.distance sqrt candidate pos)%Q)
        by (apply H; left; reflexivity).
      apply Qle_bool_iff in Hpos. congruence.
Qed.

Lemma Spaced_snoc :
  forall (minDistance : Q) (positions : list Layout.Position)
         (candidate : Layout.Position),
    Spaced (Layout.distance sqrt) minDistance positions ->
    Layout.valid sqrt minDistance candidate positions = true ->
    Spaced (Layout.distance sqrt) minDistance (positions ++ [candidate]).
Proof.
  intros minDistance positions candidate Hs Hv i j p q Hij Hi Hj.
  assert (Hj' : (j < List.length (positions ++ [candidate]))%nat)
    by (apply nth_error_Some; congruence).
  rewrite length_app in Hj'. cbn [List.length] in Hj'.
  rewrite nth_error_app1 in Hi by lia.
  destruct (Nat.lt_ge_cases j (List.length positions)) as [Hlt|Hge].
  - rewrite nth_error_app1 in Hj by lia. exact (Hs i j p q Hij Hi Hj).
  - assert (Hjl : j = List.length positions) by lia. subst j.
    rewrite nth_error_app2 in Hj by lia.
    rewrite Nat.sub_diag in Hj. cbn in Hj. injection Hj as E. subst q.
    apply (proj1 (valid_iff minDistance candidate positions) Hv).
    eapply nth_error_In. exact Hi.
Qed.

Lemma attemptLoop_valid :
  forall (attempts : nat) (bounds : Layout.Bounds) (minDistance : Q)
         (positions : list Layout.Position) (st : Z) (c : Layout.Position),
    fst (Layout.attemptLoop sqrt attempts bounds minDistance positions st)
    = Some c ->
    Layout.valid sqrt minDistance c positions = true.
Proof.
  induction attempts as [|n IH]; intros bounds minDistance positions st c H.
  - discriminate.
  - cbn [Layout.attemptLoop] in H. unfold Layout.bind in H.
    destruct (Layout.range (Layout.minX bounds) (Layout.maxX bounds) st)
      as [x st1].
    destruct (Layout.range (Layout.minZ bounds) (Layout.maxZ bounds) st1)
      as [z st2].
    destruct (Layout.valid sqrt minDistance
                {| Layout.px := x; Layout.pz := z |} positions) eqn:V.
    + cbn in H. injection H as E. subst c. exact V.
    + eapply IH. exact H.
Qed.

Lemma placeLoop_grows :
  forall (dev : bool) (count : nat) (bounds : Layout.Bounds) (minDistance : Q)
         (positions : list Layout.Position) (st : Z)
         (result : list Layout.Position) (st' : Z),
    Layout.placeLoop sqrt dev count bounds minDistance positions st
    = (result, st') ->
    (List.length positions <= List.length result
     <= List.length positions + count)%nat /\
    (dev = true ->
     List.length result = (List.length positions + count)%nat) /\
    (dev = false ->
     Spaced (Layout.distance sqrt) minDistance positions ->
     Spaced (Layout.distance sqrt) minDistance result).
Proof.
  intros dev count. induction count as [|n IH];
    intros bounds minDistance positions st result st' H.
  - cbn in H. injection H as E _. subst result.
    split; [lia|]. split; [intros _; lia|]. intros _ Hs. exact Hs.
  - cbn [Layout.placeLoop] in H. unfold Layout.bind at 1 in H.
    pose proof (attemptLoop_valid Layout.maxAttempts bounds minDistance
                  positions st) as Hv.
    destruct (Layout.attemptLoop sqrt Layout.maxAttempts bounds minDistance
                positions st) as [[c|] st1]; cbn [fst] in Hv.
    + apply IH in H. rewrite length_app in H. cbn [List.length] in H.
      destruct H as [A [B C]]. split; [lia|]. split.
      * intros Hd. rewrite (B Hd). lia.
      * intros Hd Hs. apply (C Hd). apply Spaced_snoc; [exact Hs|].
        apply Hv. reflexivity.
    + destruct dev.
      * unfold Layout.bind at 1 2 in H.
        destruct (Layout.range (Layout.minX bounds) (Layout.maxX bounds) st1)
          as [x st2].
        destruct (Layout.range (Layout.minZ bounds) (Layout.maxZ bounds) st2)
          as [z st3].
        apply IH in H. rewrite length_app in H. cbn [List.length] in H.
        destruct H as [A [B C]]. split; [lia|]. split.
        -- intros Hd. rewrite (B Hd). lia.
        -- discriminate.
      * apply IH in H. destruct H as [A [B C]]. split; [lia|]. split.
        -- discriminate.
        -- intros _ Hs. apply C; [reflexivity|exact Hs].
Qed.

Lemma attemptLoop_inBounds :
  forall (attempts : nat) (bounds : Layout.Bounds) (minDistance : Q)
         (positions : list Layout.Position),
    (Layout.minX bounds < Layout.maxX bounds)%Q ->
    (Layout.minZ bounds < Layout.maxZ bounds)%Q ->
    Holds Inv (Layout.attemptLoop sqrt attempts bounds minDistance positions)
      (fun r => forall c, r = Some c -> InBounds bounds c).
Proof.
  induction attempts as [|n IH]; intros bounds minDistance positions HX HZ.
  - apply Holds_ret. discriminate.
  - cbn [Layout.attemptLoop].
    eapply Holds_bind; [apply range_spec; exact HX|]. intros x Hx.
    eapply Holds_bind; [apply range_spec; exact HZ|]. intros z Hz.
    cbv zeta.
    destruct (Layout.valid sqrt minDistance _ positions).
    + apply Holds_ret. intros c E. injection E as <-. split; assumption.
    + apply IH; assumption.
Qed.

Lemma placeLoop_inBounds :
  forall (dev : bool) (count : nat) (bounds : Layout.Bounds) (minDistance : Q)
         (positions : list Layout.Position),
    (Layout.minX bounds < Layout.maxX bounds)%Q ->
    (Layout.minZ bounds < Layout.maxZ bounds)%Q ->
    Forall (InBounds bounds) positions ->
    Holds Inv (Layout.placeLoop sqrt dev count bounds minDistance positions)
      (Forall (InBounds bounds)).
Proof.
  intros dev count. induction count as [|n IH];
    intros bounds minDistance positions HX HZ HF.
  - apply Holds_ret. exact HF.
  - cbn [Layout.placeLoop].
    eapply Holds_bind; [apply attemptLoop_inBounds; assumption|].
    intros [c|] Hc.
    + apply IH; try assumption. apply Forall_app. split; [exact HF|].
      constructor; [apply Hc; reflexivity|constructor].
    + destruct dev.
      * eapply Holds_bind; [apply range_spec; exact HX|]. intros x Hx.
        eapply Holds_bind; [apply range_spec; exact HZ|]. intros z Hz.
        apply IH; try assumption. apply Forall_app. split; [exact HF|].
        constructor; [split; assumption|constructor].
      * apply IH; assumption.
Qed.

Lemma placement_spacing :
  forall (dev : bool) (count : nat) (bounds : Layout.Bounds) (minDistance : Q)
         (st : Z),
    let positions :=
      fst (Layout.generatePositions sqrt dev count bounds minDistance st) in
    (List.length positions <= count)%nat /\
    (dev = true -> List.length positions = count) /\
    (dev = false -> Spaced (Layout.distance sqrt) minDistance positions).
Proof.
  intros dev count bounds minDistance st. cbv zeta.
  unfold Layout.generatePositions.
  destruct (Layout.placeLoop sqrt dev count bounds minDistance [] st)
    as [result st'] eqn:E.
  apply placeLoop_grows in E. cbn [List.length fst] in *.
  destruct E as [A [B C]].
  split; [lia|]. split; [exact B|].
  intros Hd. apply C; [exact Hd|].
  intros i j p q _ Hi. destruct i; discriminate.
Qed.

Lemma placement_inside_bounds :
  forall (dev : bool) (count : nat) (bounds : Layout.Bounds) (minDistance : Q),
    (Layout.minX bounds < Layout.maxX bounds)%Q ->
    (Layout.minZ bounds < Layout.maxZ bounds)%Q ->
    Holds Inv (Layout.generatePositions sqrt dev count bounds minDistance)
      (Forall (InBounds bounds)).
Proof.
  intros dev count bounds minDistance HX HZ.
  apply placeLoop_inBounds; try assumption. constructor.
Qed.


(** X12: with a working generator and proper bounds, every position
    [generatePositions] returns lies inside the bounds, and the generator
    is left in a working state. *)
Theorem generatePositions_inside_bounds :
  forall (dev : bool) (count : nat) (bounds : Layout.Bounds) (minDistance : Q),
    (Layout.minX bounds < Layout.maxX bounds)%Q ->
    (Layout.minZ bounds < Layout.maxZ bounds)%Q ->
    Holds Inv (Layout.generatePositions sqrt dev count bounds minDistance)
      (Forall (InBounds bounds)).
Proof. exact placement_inside_bounds. Qed.

End PlacementFacts.

(** ** The layout *)

Section LayoutFacts.
Variable sqrt : Q -> Q.

Lemma mapMain_length :
  forall (positions : list Layout.Position) (index : nat) (st : Z),
    List.length (fst (Layout.mapMain index positions st))
    = List.length positions.
Proof.
  induction positions as [|pos rest IH]; intros index st; [reflexivity|].
  cbn [Layout.mapMain]. unfold Layout.bind at 1 2 3.
  destruct (Layout.range (-3) (-1) st) as [y st1].
  destruct (Layout.range (8 # 10) (12 # 10) st1) as [scale st2].
  specialize (IH (S index) st2).
  destruct (Layout.mapMain (S index) rest st2) as [objs st3].
  cbn in *. rewrite IH. reflexivity.
Qed.

Lemma mapDecorative_length :
  forall (positions : list Layout.Position) (index : nat) (st : Z),
    List.length (fst (Layout.mapDecorative index positions st))
    = List.length positions.
Proof.
  induction positions as [|pos rest IH]; intros index st; [reflexivity|].
  cbn [Layout.mapDecorative]. unfold Layout.bind at 1 2 3 4 5.
  destruct (Layout.choice Layout.decorativeTypes st) as [type st1].
  destruct (Layout.range (-45 # 10) (-2) st1) as [y st2].
  destruct (Layout.range (5 # 10) (15 # 10) st2) as [scale st3].
  destruct (Layout.choice Layout.decorativeColors st3) as [color st4].
  specialize (IH (S index) st4).
  destruct (Layout.mapDecorative (S index) rest st4) as [objs st5].
  cbn in *. rewrite IH. reflexivity.
Qed.

(** X13: the layout holds at most [mainObjectCount] main objects (never
    more than 3) and at most [decorativeCount] decorative ones (never more
    than 12), exactly as many in a development build. In Safe Mode no
    decorative object reaches the scene and at most 2 main objects do;
    with the objects hidden nothing does. *)
Theorem objectLayout_counts :
  forall (dev : bool) (s : AppState),
    let layout := Layout.objectLayout sqrt dev s in
    let mainCount :=
      Z.to_nat (Quality.mainObjectCount (safeMode s) (lowPowerMode s) (isMobile s)) in
    let decorativeCount :=
      Z.to_nat (Quality.decorativeCount (safeMode s) (lowPowerMode s) (isMobile s)) in
    (List.length (Layout.mainObjects layout) <= mainCount <= 3)%nat /\
    (List.length (Layout.decorativeObjects layout) <= decorativeCount <= 12)%nat /\
    (dev = true ->
     List.length (Layout.mainObjects layout) = mainCount /\
     List.length (Layout.decorativeObjects layout) = decorativeCount) /\
    (safeMode s = true ->
     snd (Layout.rendered sqrt dev s) = [] /\
     (List.length (fst (Layout.rendered sqrt dev s)) <= 2)%nat) /\
    (objectsVisible s = false -> Layout.rendered sqrt dev s = ([], [])).
Proof.
  intros dev s.
  assert (K : forall layout mainCount decorativeCount,
             layout = Layout.objectLayout sqrt dev s ->
             mainCount = Z.to_nat (Quality.mainObjectCount (safeMode s)
                                     (lowPowerMode s) (isMobile s)) ->
             decorativeCount = Z.to_nat (Quality.decorativeCount (safeMode s)
                                           (lowPowerMode s) (isMobile s)) ->
             (List.length (Layout.mainObjects layout) <= mainCount)%nat /\
             (List.length (Layout.decorativeObjects layout) <= decorativeCount)%nat /\
             (dev = true ->
              List.length (Layout.mainObjects layout) = mainCount /\
              List.length (Layout.decorativeObjects layout) = decorativeCount)).
  { intros layout mainCount decorativeCount El Em Ed.
    unfold Layout.objectLayout in El. unfold Layout.bind at 1 in El.
    pose proof (placement_spacing sqrt dev mainCount Layout.layoutBounds 2
                  (Layout.create (seed s))) as G1.
    rewrite <- Em in El.
    destruct (Layout.generatePositions sqrt dev mainCount Layout.layoutBounds 2
                (Layout.create (seed s))) as [mainPositions st1].
    cbv zeta in G1. cbn [fst] in G1.
    unfold Layout.bind at 1 in El.
    pose proof (mapMain_length mainPositions 0 st1) as M.
    destruct (Layout.mapMain 0 mainPositions st1) as [mains st2].
    cbn [fst] in M. unfold Layout.bind at 1 in El. rewrite <- Ed in El.
    pose proof (placement_spacing sqrt dev decorativeCount
                  Layout.layoutBounds 1 st2) as G2.
    destruct (Layout.generatePositions sqrt dev decorativeCount
                Layout.layoutBounds 1 st2) as [decorativePositions st3].
    cbv zeta in G2. cbn [fst] in G2.
    unfold Layout.bind at 1 in El.
    pose proof (mapDecorative_length decorativePositions 0 st3) as D.
    destruct (Layout.mapDecorative 0 decorativePositions st3) as [decs st4].
    cbn [fst] in D. cbn in El. subst layout. cbn.
    destruct G1 as [A1 [B1 _]]. destruct G2 as [A2 [B2 _]].
    rewrite M, D. split; [exact A1|]. split; [exact A2|].
    intros Hd. split; [apply B1|apply B2]; exact Hd. }
  cbv zeta.
  destruct (K _ _ _ eq_refl eq_refl eq_refl) as [A [B C]].
  assert (M3 : (Z.to_nat (Quality.mainObjectCount (safeMode s) (lowPowerMode s)
                            (isMobile s)) <= 3)%nat)
    by (destruct (safeMode s), (lowPowerMode s), (isMobile s); cbn; lia).
  assert (D12 : (Z.to_nat (Quality.decorativeCount (safeMode s) (lowPowerMode s)
                             (isMobile s)) <= 12)%nat)
    by (destruct (safeMode s), (lowPowerMode s), (isMobile s); cbn; lia).
  split; [split; assumption|]. split; [split; assumption|].
  split; [exact C|]. split.
  - intros Hs. unfold Layout.rendered. rewrite Hs.
    destruct (objectsVisible s); cbn [fst snd]; [|split; [reflexivity|cbn; lia]].
    split; [reflexivity|].
    rewrite Hs in A. cbn in A. exact A.
  - intros Hv. unfold Layout.rendered. rewrite Hv. reflexivity.
Qed.

Lemma Numbered_cons :
  forall (A : Type) (index : A -> nat) (first : nat) (o : A) (objs : list A),
    index o = first -> Numbered index (S first) objs ->
    Numbered index first (o :: objs).
Proof.
  intros A index first o objs Ho Hobjs [|i] o' H.
  - cbn in H. injection H as E. subst o'. rewrite Ho. lia.
  - cbn in H. rewrite (Hobjs i o' H). lia.
Qed.

Lemma mapMain_ok :
  forall (positions : list Layout.Position) (index : nat),
    Forall (InBounds Layout.layoutBounds) positions ->
    Holds Inv (Layout.mapMain index positions)
      (fun objs => Forall MainOk objs /\ Numbered Layout.m_index index objs).
Proof.
  induction positions as [|pos rest IH]; intros index HF.
  - apply Holds_ret. split; [constructor|].
    intros [|i] o H; discriminate H.
  - cbn [Layout.mapMain]. inversion HF as [|? ? Hp Hrest]; subst.
    eapply Holds_bind; [apply (range_spec (-3) (-1)); reflexivity|].
    intros y Hy.
    eapply Holds_bind; [apply (range_spec (8 # 10) (12 # 10)); reflexivity|].
    intros scale Hsc.
    eapply Holds_bind; [apply (IH (S index) Hrest)|].
    intros objs [Hobjs Hnum]. apply Holds_ret.
    split; [|apply Numbered_cons; [reflexivity|exact Hnum]].
    constructor; [|exact Hobjs].
    cbv beta in *.
    destruct Hp as [Hx Hz]. unfold Layout.layoutBounds in Hx, Hz.
    cbn [Layout.minX Layout.maxX Layout.minZ Layout.maxZ] in Hx, Hz.
    split; [reflexivity|].
    split; [|split; [cbn [Layout.m_position]; tauto|exact Hsc]].
    cbn [Layout.m_type].
    destruct (nth_error Layout.objectTypes
                (index mod List.length Layout.objectTypes)) as [t|] eqn:E.
    + exists t. reflexivity.
    + apply nth_error_None in E.
      pose proof (Nat.mod_upper_bound index (List.length Layout.objectTypes)
                    ltac:(discriminate)). lia.
Qed.

Lemma mapDecorative_ok :
  forall (positions : list Layout.Position) (index : nat),
    Forall (InBounds Layout.layoutBounds) positions ->
    Holds Inv (Layout.mapDecorative index positions)
      (fun objs => Forall DecorativeOk objs /\ Numbered Layout.d_index index objs).
Proof.
  induction positions as [|pos rest IH]; intros index HF.
  - apply Holds_ret. split; [constructor|].
    intros [|i] o H; discriminate H.
  - cbn [Layout.mapDecorative]. inversion HF as [|? ? Hp Hrest]; subst.
    eapply Holds_bind; [apply (choice_spec _ Layout.decorativeTypes); discriminate|].
    intros type Ht.
    eapply Holds_bind; [apply (range_spec (-45 # 10) (-2)); reflexivity|].
    intros y Hy.
    eapply Holds_bind; [apply (range_spec (5 # 10) (15 # 10)); reflexivity|].
    intros scale Hsc.
    eapply Holds_bind; [apply (choice_spec _ Layout.decorativeColors); discriminate|].
    intros color Hc.
    eapply Holds_bind; [apply (IH (S index) Hrest)|].
    intros objs [Hobjs Hnum]. apply Holds_ret.
    split; [|apply Numbered_cons; [reflexivity|exact Hnum]].
    constructor; [|exact Hobjs].
    cbv beta in *.
    destruct Hp as [Hx Hz]. unfold Layout.layoutBounds in Hx, Hz.
    cbn [Layout.minX Layout.maxX Layout.minZ Layout.maxZ] in Hx, Hz.
    split; [exact Ht|]. split; [exact Hc|].
    split; [cbn [Layout.d_position]; tauto|exact Hsc].
Qed.

(** X14: for every seed but the ones of X9, so for every seed the store
    generates, the main object at place [i] of the layout has the index [i]
    and the type [objectTypes[i % 3]], the decorative object at place [i]
    has the index [i] and a type and a colour from the tables, and all of
    them lie inside the bounds, the height range and the scale range of
    their kind. *)
Theorem objectLayout_wellformed :
  forall (dev : bool) (s : AppState),
    Z.rem (seed s) 2147483647 <> -2147483646 ->
    Forall MainOk (Layout.mainObjects (Layout.objectLayout sqrt dev s)) /\
    Forall DecorativeOk (Layout.decorativeObjects (Layout.objectLayout sqrt dev s)) /\
    (forall (i : nat) (o : Layout.MainObject),
        nth_error (Layout.mainObjects (Layout.objectLayout sqrt dev s)) i = Some o ->
        Layout.m_index o = i /\
        Layout.m_type o = nth_error Layout.objectTypes (i mod 3)) /\
    (forall (i : nat) (o : Layout.DecorativeObject),
        nth_error (Layout.decorativeObjects (Layout.objectLayout sqrt dev s)) i
        = Some o ->
        Layout.d_index o = i).
Proof.
  intros dev s Hseed. unfold Layout.objectLayout.
  match goal with
  | |- context [fst (?prog (Layout.create (seed s)))] =>
      assert (H : Holds Inv prog
                    (fun l =>
                       (Forall MainOk (Layout.mainObjects l) /\
                        Numbered Layout.m_index 0 (Layout.mainObjects l)) /\
                       (Forall DecorativeOk (Layout.decorativeObjects l) /\
                        Numbered Layout.d_index 0 (Layout.decorativeObjects l))))
  end.
  { eapply Holds_bind;
      [apply placement_inside_bounds; reflexivity|].
    intros mainPositions Hm.
    eapply Holds_bind; [apply mapMain_ok; exact Hm|]. intros mains Hmains.
    eapply Holds_bind;
      [apply placement_inside_bounds; reflexivity|].
    intros decorativePositions Hd.
    eapply Holds_bind; [apply mapDecorative_ok; exact Hd|]. intros decs Hdecs.
    apply Holds_ret. split; assumption. }
  assert (I : Inv (Layout.create (seed s))).
  { destruct (create_cases (seed s)) as [[E _]|[_ I]]; [contradiction|exact I]. }
  destruct (H _ I) as [[[HM HMn] [HD HDn]] _].
  split; [exact HM|]. split; [exact HD|]. split.
  - intros i o Hi. pose proof (HMn i o Hi) as Ei. cbn in Ei.
    split; [exact Ei|].
    rewrite Forall_forall in HM.
    destruct (HM o (nth_error_In _ _ Hi)) as [Ht _].
    rewrite Ht, Ei. reflexivity.
  - intros i o Hi. exact (HDn i o Hi).
Qed.

End LayoutFacts.

(** ** The layout of [ObjectsCluster.jsx] *)

Section ClusterFacts.
Variable sqrt : Q -> Q.

Lemma cluster_next_spec :
  Holds NonNeg Cluster.next (fun f => (0 <= f < 1)%Q).
Proof.
  intros st Hst. unfold NonNeg in *. unfold Cluster.next. cbn [fst snd].
  rewrite Z.rem_mod_nonneg by lia.
  pose proof (Z.mod_pos_bound (st * 9301 + 49297) 233280 ltac:(lia)) as B.
  set (n := (st * 9301 + 49297) mod 233280) in *.
  assert (D : (0 < inject_Z 233280)%Q) by reflexivity.
  split; [|lia]. split.
  - apply Qle_shift_div_l; [exact D|]. rewrite Qmult_0_l.
    assert (H0 : (inject_Z 0 <= inject_Z n)%Q) by (rewrite <- Zle_Qle; lia).
    exact H0.
  - apply Qlt_shift_div_r; [exact D|]. rewrite Qmult_1_l.
    rewrite <- Zlt_Qlt. lia.
Qed.

Lemma cluster_range_spec :
  forall min max : Q,
    (min < max)%Q ->
    Holds NonNeg (Cluster.range min max) (fun r => (min <= r < max)%Q).
Proof.
  intros min max Hlt. unfold Cluster.range.
  eapply (Holds_bind _ _ NonNeg); [apply cluster_next_spec|].
  intros f [F0 F1]. apply Holds_ret. split; nra.
Qed.

Lemma cluster_attemptLoop_inBounds :
  forall (left : nat) (bounds : Layout.Bounds) (minDistance : Q)
         (positions : list Layout.Position),
    (Layout.minX bounds < Layout.maxX bounds)%Q ->
    (Layout.minZ bounds < Layout.maxZ bounds)%Q ->
    Holds NonNeg (Cluster.attemptLoop sqrt left bounds minDistance positions)
      (fun r => forall c, r = Some c -> InBounds bounds c).
Proof.
  induction left as [|n IH]; intros bounds minDistance positions HX HZ.
  - apply Holds_ret. discriminate.
  - cbn [Cluster.attemptLoop].
    eapply (Holds_bind _ _ NonNeg); [apply cluster_range_spec; exact HX|].
    intros x Hx.
    eapply (Holds_bind _ _ NonNeg); [apply cluster_range_spec; exact HZ|].
    intros z Hz. cbv zeta.
    destruct (Cluster.valid sqrt minDistance _ positions).
    + apply Holds_ret. intros c E. injection E as E. subst c. split; assumption.
    + apply IH; assumption.
Qed.

Lemma cluster_placeLoop_spec :
  forall (count maxAttempts : nat) (bounds : Layout.Bounds) (minDistance : Q)
         (positions : list Layout.Position),
    (Layout.minX bounds < Layout.maxX bounds)%Q ->
    (Layout.minZ bounds < Layout.maxZ bounds)%Q ->
    Forall (InBounds bounds) positions ->
    Holds NonNeg (Cluster.placeLoop sqrt count maxAttempts bounds minDistance positions)
      (Forall (InBounds bounds)).
Proof.
  induction count as [|n IH];
    intros maxAttempts bounds minDistance positions HX HZ HF.
  - apply Holds_ret. exact HF.
  - cbn [Cluster.placeLoop].
    eapply (Holds_bind _ _ NonNeg);
      [apply cluster_attemptLoop_inBounds; assumption|].
    intros [c|] Hc.
    + apply IH; try assumption. apply Forall_app. split; [exact HF|].
      constructor; [apply Hc; reflexivity|constructor].
    + eapply (Holds_bind _ _ NonNeg); [apply cluster_range_spec; exact HX|].
      intros x Hx.
      eapply (Holds_bind _ _ NonNeg); [apply cluster_range_spec; exact HZ|].
      intros z Hz.
      apply IH; try assumption. apply Forall_app. split; [exact HF|].
      constructor; [split; assumption|constructor].
Qed.

Lemma cluster_placeLoop_length :
  forall (count maxAttempts : nat) (bounds : Layout.Bounds) (minDistance : Q)
         (positions : list Layout.Position) (st : Z),
    List.length
      (fst (Cluster.placeLoop sqrt count maxAttempts bounds minDistance
              positions st))
    = (List.length positions + count)%nat.
Proof.
  induction count as [|n IH];
    intros maxAttempts bounds minDistance positions st.
  - cbn. lia.
  - cbn [Cluster.placeLoop]. unfold Cluster.bind at 1.
    destruct (Cluster.attemptLoop sqrt maxAttempts bounds minDistance
                positions st) as [[c|] st1].
    + rewrite IH, length_app. cbn. lia.
    + unfold Cluster.bind at 1 2.
      destruct (Cluster.range (Layout.minX bounds) (Layout.maxX bounds) st1)
        as [x st2].
      destruct (Cluster.range (Layout.minZ bounds) (Layout.maxZ bounds) st2)
        as [z st3].
      rewrite IH, length_app. cbn. lia.
Qed.

(** X15: [generatePositions] of [ObjectsCluster.jsx] always returns exactly
    [count] positions, an object without a valid place being placed
    anyway; from a seed that is not negative all of them lie inside proper
    bounds. *)
Theorem cluster_places_every_object :
  forall (count maxAttempts : nat) (bounds : Layout.Bounds) (minDistance : Q)
         (seed : Z),
    List.length
      (fst (Cluster.generatePositions sqrt count bounds minDistance
              maxAttempts seed)) = count /\
    ((Layout.minX bounds < Layout.maxX bounds)%Q ->
     (Layout.minZ bounds < Layout.maxZ bounds)%Q ->
     0 <= seed ->
     Forall (InBounds bounds)
       (fst (Cluster.generatePositions sqrt count bounds minDistance
               maxAttempts seed))).
Proof.
  intros count maxAttempts bounds minDistance seed.
  unfold Cluster.generatePositions. split.
  - rewrite cluster_placeLoop_length. reflexivity.
  - intros HX HZ Hs.
    apply (cluster_placeLoop_spec count maxAttempts bounds minDistance []
             HX HZ (Forall_nil _) seed Hs).
Qed.

End ClusterFacts.

(** ** Retries *)

Section RetryFacts.
Import Guard.
Context {T : Type}.
Variable promiseFactory : nat -> option (Outcome T).
Variables maxRetries baseDelay : Z.

Local Abbreviation backoff := (Retry.backoff baseDelay).

Lemma loop_spec :
  forall (iterations attempt : nat) (lastError : JsValue) (waited : list Z),
    (1 <= iterations)%nat ->
    Z.of_nat attempt + Z.of_nat iterations = maxRetries + 1 ->
    let r := Retry.loop promiseFactory maxRetries baseDelay iterations attempt
               lastError waited in
    (attempt < Retry.calls r <= attempt + iterations)%nat /\
    Retry.delays r
    = waited ++ map backoff (seq attempt (Retry.calls r - 1 - attempt)) /\
    Retry.outcome r = promiseFactory (Retry.calls r - 1)%nat /\
    (forall k, (attempt <= k < Retry.calls r - 1)%nat ->
               exists e, promiseFactory k = Some (Rejected e)) /\
    (forall e, Retry.outcome r = Some (Rejected e) ->
               Retry.calls r = (attempt + iterations)%nat).
Proof.
  induction iterations as [|n IH]; intros attempt lastError waited H1 Hsum;
    [lia|].
  cbn [Retry.loop].
  destruct (promiseFactory attempt) as [[v|e]|] eqn:E.
  - cbv zeta. cbn [Retry.calls Retry.delays Retry.outcome].
    replace (S attempt - 1 - attempt)%nat with 0%nat by lia.
    replace (S attempt - 1)%nat with attempt by lia.
    cbn [seq map]. rewrite app_nil_r.
    split; [lia|]. split; [reflexivity|]. split; [symmetry; exact E|].
    split; [intros k Hk; lia|]. intros e He. discriminate.
  - destruct (Z.eqb_spec (Z.of_nat attempt) maxRetries) as [Hm|Hm].
    + cbv zeta. cbn [Retry.calls Retry.delays Retry.outcome].
      replace (S attempt - 1 - attempt)%nat with 0%nat by lia.
      replace (S attempt - 1)%nat with attempt by lia.
      cbn [seq map]. rewrite app_nil_r.
      split; [lia|]. split; [reflexivity|]. split; [symmetry; exact E|].
      split; [intros k Hk; lia|]. intros _ _. lia.
    + assert (Hn : (1 <= n)%nat) by lia.
      specialize (IH (S attempt) e (waited ++ [baseDelay * 2 ^ Z.of_nat attempt])
                     Hn ltac:(lia)).
      cbv zeta in IH |- *. destruct IH as [A [B [C [D F]]]].
      set (r := Retry.loop promiseFactory maxRetries baseDelay n (S attempt) e
                  (waited ++ [baseDelay * 2 ^ Z.of_nat attempt])) in *.
      split; [lia|]. split.
      * rewrite B, <- app_assoc. f_equal.
        replace (Retry.calls r - 1 - attempt)%nat
          with (S (Retry.calls r - 1 - S attempt)) by lia.
        reflexivity.
      * split; [exact C|]. split.
        -- intros k Hk. destruct (Nat.eq_dec k attempt) as [->|Hne].
           ++ exists e. exact E.
           ++ apply D. lia.
        -- intros e' He'. rewrite (F e' He'). lia.
  - cbv zeta. cbn [Retry.calls Retry.delays Retry.outcome].
    replace (S attempt - 1 - attempt)%nat with 0%nat by lia.
    replace (S attempt - 1)%nat with attempt by lia.
    cbn [seq map]. rewrite app_nil_r.
    split; [lia|]. split; [reflexivity|]. split; [symmetry; exact E|].
    split; [intros k Hk; lia|]. intros e He. discriminate.
Qed.

Lemma backoff_total :
  forall n : nat,
    fold_right Z.add 0 (map backoff (seq 0 n)) = baseDelay * (2 ^ Z.of_nat n - 1).
Proof.
  induction n as [|n IH].
  - cbn. lia.
  - rewrite seq_S, map_app, fold_right_app. cbn [map fold_right Nat.add].
    assert (G : forall (l : list Z) (a : Z),
               fold_right Z.add a l = fold_right Z.add 0 l + a).
    { induction l as [|x l IHl]; intros a; cbn; [lia|]. rewrite IHl. lia. }
    rewrite G, IH. unfold Retry.backoff.
    rewrite Nat2Z.inj_succ, Z.pow_succ_r by lia. lia.
Qed.


(** X17: with a negative [maxRetries] the loop body never runs:
    [withRetry] does not call the factory and rejects with the undefined
    [lastError]. *)
Theorem withRetry_without_attempts :
  maxRetries < 0 ->
  Retry.withRetry promiseFactory maxRetries baseDelay
  = {| Retry.outcome := Some (Rejected JsUndefined); Retry.calls := 0;
       Retry.delays := [] |}.
Proof.
  intros Hm. unfold Retry.withRetry.
  replace (Z.to_nat (maxRetries + 1)) with 0%nat by lia. reflexivity.
Qed.

End RetryFacts.

(** ** Races *)

Section RaceFacts.
Import Guard RaceSpec.
Context {T : Type}.

Lemma microtasks_pending :
  forall promises : list (Operation T),
    Forall Pending promises -> Retry.microtasks promises = [].
Proof.
  induction 1 as [|op rest Hop _ IH]; [reflexivity|].
  destruct op as [o|t o|]; [contradiction| |]; exact IH.
Qed.

Lemma microtasks_first :
  forall (pre post : list (Operation T)) (o : Outcome T),
    Forall Pending pre ->
    Retry.microtasks (pre ++ AlreadySettled o :: post)
    = Reaction o :: Retry.microtasks post.
Proof.
  induction 1 as [|op rest Hop _ IH]; [reflexivity|].
  destruct op as [o'|t o'|]; [contradiction| |]; exact IH.
Qed.

Lemma enqueue_DueAfter :
  forall (d d' : Z) (j : Job T) (queue : list (Z * Job T)),
    d < d' -> DueAfter d queue -> DueAfter d (enqueue d' j queue).
Proof.
  intros d d' j queue Hd.
  induction 1 as [|[dx jx] rest Hx Hrest IH]; cbn [enqueue].
  - constructor; [exact Hd|constructor].
  - destruct (d' <? dx).
    + constructor; [exact Hd|]. constructor; [exact Hx|exact Hrest].
    + constructor; [exact Hx|exact IH].
Qed.

Lemma tasks_DueAfter :
  forall (d : Z) (promises : list (Operation T)) (queue : list (Z * Job T)),
    Forall (SettlesLaterThan d) promises ->
    DueAfter d queue ->
    DueAfter d (Retry.tasks promises queue).
Proof.
  intros d promises. induction promises as [|op rest IH]; intros queue HF Hq.
  - exact Hq.
  - inversion HF as [|? ? Hop Hrest]; subst.
    destruct op as [o|t o|]; cbn [Retry.tasks].
    + contradiction.
    + apply IH; [exact Hrest|]. apply enqueue_DueAfter; [|exact Hq].
      cbn in Hop. lia.
    + apply IH; assumption.
Qed.

Lemma enqueue_first :
  forall (d : Z) (j : Job T) (queue : list (Z * Job T)),
    DueAfter d queue -> enqueue d j queue = (d, j) :: queue.
Proof.
  intros d j queue H. destruct H as [|[dx jx] rest Hx _]; [reflexivity|].
  cbn [enqueue]. cbn in Hx. destruct (Z.ltb_spec d dx); [reflexivity|lia].
Qed.


End RaceFacts.

(** ** The loaders *)

Section LoaderFacts.
Import Guard Gltf LoaderSpec.
Variable preload : Preload.
Local Abbreviation failures := (LoaderSpec.failures preload).

Lemma safePreloadGLTF_run :
  forall (path : string) (timeoutMs : Z) (s : AppState),
    safePreloadGLTF preload path timeoutMs s
    = match preload path with
      | None => (Some (Fulfilled true), s)
      | Some error => (Some (Fulfilled false), afterFailure error s)
      end.
Proof.
  intros path timeoutMs s. unfold safePreloadGLTF, preloadPromise.
  destruct (preload path) as [error|]; rewrite settled_already.
  - unfold afterFailure. destruct (isAssetTimeout error); reflexivity.
  - reflexivity.
Qed.

(** X19: the timeout handed to [safePreloadGLTF] has no influence: the
    preload promise is settled before the guard sees it, so the result and
    the store are the same for every [timeoutMs]. The load succeeds, with
    the store untouched, exactly when [useGLTF.preload] does not throw;
    after a throw the result is false, BootError is ASSET_TIMEOUT for an
    error with that message and INIT_ERROR otherwise, Safe Mode is on, and
    [isBooting] and all other fields are as before. *)
Theorem safePreloadGLTF_ignores_its_timeout :
  forall (path : string) (timeoutMs timeoutMs' : Z) (s : AppState),
    safePreloadGLTF preload path timeoutMs s
    = safePreloadGLTF preload path timeoutMs' s /\
    (preload path = None ->
     safePreloadGLTF preload path timeoutMs s = (Some (Fulfilled true), s)) /\
    (forall error,
        preload path = Some error ->
        fst (safePreloadGLTF preload path timeoutMs s) = Some (Fulfilled false) /\
        bootError (snd (safePreloadGLTF preload path timeoutMs s))
        = Some (if isAssetTimeout error then ASSET_TIMEOUT else INIT_ERROR) /\
        safeMode (snd (safePreloadGLTF preload path timeoutMs s)) = true /\
        isBooting (snd (safePreloadGLTF preload path timeoutMs s)) = isBooting s /\
        protocolWarning (snd (safePreloadGLTF preload path timeoutMs s))
        = protocolWarning s /\
        restOf (snd (safePreloadGLTF preload path timeoutMs s)) = restOf s).
Proof.
  intros path timeoutMs timeoutMs' s. rewrite !safePreloadGLTF_run.
  split; [reflexivity|]. split.
  - intros E. rewrite E. reflexivity.
  - intros error E. rewrite E. repeat split.
Qed.

Lemma startAll_store :
  forall (paths : list string) (ms : Z) (s : AppState),
    snd (startAll preload paths ms s) = failures paths s.
Proof.
  induction paths as [|path rest IH]; intros ms s; [reflexivity|].
  cbn [startAll failures]. unfold bindM at 1.
  rewrite safePreloadGLTF_run.
  destruct (preload path) as [error|]; unfold bindM;
    match goal with
    | |- context [startAll preload rest ms ?st] =>
        specialize (IH ms st); destruct (startAll preload rest ms st)
    end; cbn [snd] in *; exact IH.
Qed.

Lemma failures_frame :
  forall (paths : list string) (s : AppState),
    isBooting (failures paths s) = isBooting s /\
    protocolWarning (failures paths s) = protocolWarning s /\
    restOf (failures paths s) = restOf s.
Proof.
  induction paths as [|path rest IH]; intros s; [repeat split|].
  cbn [failures]. destruct (preload path) as [error|].
  - destruct (IH (afterFailure error s)) as [A [B C]].
    rewrite A, B, C. repeat split.
  - apply IH.
Qed.

Lemma failures_none :
  forall (paths : list string) (s : AppState),
    Forall (fun path => loads preload path = true) paths ->
    failures paths s = s.
Proof.
  induction paths as [|path rest IH]; intros s H; [reflexivity|].
  inversion H as [|? ? Hp Hrest]; subst. cbn [failures].
  unfold loads in Hp. destruct (preload path); [discriminate|].
  apply IH. exact Hrest.
Qed.

Lemma failures_marked :
  forall (paths : list string) (s : AppState),
    (safeMode s = true /\ bootError s <> None) \/
    Exists (fun path => loads preload path = false) paths ->
    safeMode (failures paths s) = true /\ bootError (failures paths s) <> None.
Proof.
  induction paths as [|path rest IH]; intros s H.
  - destruct H as [H|H]; [exact H|inversion H].
  - cbn [failures]. destruct (preload path) as [error|] eqn:E.
    + apply IH. left. split; [reflexivity|].
      cbn. destruct (isAssetTimeout error); discriminate.
    + apply IH. destruct H as [H|H]; [left; exact H|].
      inversion H as [? ? Hp|? ? Hrest]; subst.
      * unfold loads in Hp. rewrite E in Hp. discriminate.
      * right. exact Hrest.
Qed.

Lemma batch_store :
  forall (paths : list string) (ms : Z) (allow : bool) (s : AppState),
    snd (batchPreloadGLTF preload paths ms allow s)
    = if Nat.eqb (List.length (filter (loads preload) paths)) 0 && negb allow
      then set_ (patchError (Some ASSET_TIMEOUT))
             (set_ (patchSafe true) (failures paths s))
      else failures paths s.
Proof.
  intros paths ms allow s. unfold batchPreloadGLTF, bindM.
  pose proof (startAll_result preload paths ms s) as H.
  pose proof (startAll_store paths ms s) as H'.
  destruct (startAll preload paths ms s) as [promises s1].
  cbn [fst snd] in H, H'. subst promises s1.
  rewrite <- (map_map (fun path => Fulfilled (loads preload path)) Some).
  rewrite allSettled_all. unfold indexed. rewrite length_map.
  pose proof (forEach_sorts preload [] paths [] []) as F.
  cbn [app List.length] in F. rewrite F.
  destruct (Nat.eqb _ 0 && negb allow); reflexivity.
Qed.

(** X20: [batchPreloadGLTF] never changes [isBooting], the protocol warning
    or any field outside BootError and Safe Mode. When every load succeeds
    (and the list is not empty, or partial failure is allowed) the store is
    left exactly as it was; as soon as one load fails, Safe Mode is on and
    a BootError is recorded. An empty list with partial failure disallowed
    switches to Safe Mode with ASSET_TIMEOUT although nothing failed. *)
Theorem batch_store_effect :
  forall (paths : list string) (ms : Z) (allow : bool) (s : AppState),
    let s' := snd (batchPreloadGLTF preload paths ms allow s) in
    isBooting s' = isBooting s /\
    protocolWarning s' = protocolWarning s /\
    restOf s' = restOf s /\
    (Forall (fun path => loads preload path = true) paths ->
     paths <> [] \/ allow = true -> s' = s) /\
    (Exists (fun path => loads preload path = false) paths ->
     safeMode s' = true /\ bootError s' <> None) /\
    (paths = [] -> allow = false ->
     safeMode s' = true /\ bootError s' = Some ASSET_TIMEOUT).
Proof.
  intros paths ms allow s. cbv zeta. rewrite batch_store.
  destruct (failures_frame paths s) as [A [B C]].
  split; [|split; [|split; [|split; [|split]]]].
  - destruct (_ && _); [cbn|]; exact A.
  - destruct (_ && _); [cbn|]; exact B.
  - destruct (_ && _); [rewrite !set_rest|]; exact C.
  - intros Hall Hne. rewrite (failures_none paths s Hall).
    destruct paths as [|path rest].
    + destruct Hne as [Hne|Hne]; [contradiction|]. subst allow.
      rewrite andb_false_r. reflexivity.
    + inversion Hall as [|? ? Hp _]; subst. cbn [filter]. rewrite Hp.
      reflexivity.
  - intros Hex.
    destruct (failures_marked paths s (or_intror Hex)) as [S E].
    destruct (_ && _); [cbn; split; [reflexivity|discriminate]|].
    split; assumption.
  - intros -> ->. cbn. split; reflexivity.
Qed.

(** X21: [smartPreloadGLTF] checks for the file first. A missing file, or a
    request that fails, gives false and leaves the store alone (no Safe
    Mode); a file that exists is handed to [safePreloadGLTF]; a request
    that never answers leaves the promise pending. The result is true
    exactly when the file exists and the preload does not throw. *)
Theorem smartPreloadGLTF_checks_first :
  forall (fetch : Loaders.Fetch) (path : string) (ms : Z) (s : AppState),
    (Loaders.checkGLTFExists fetch path = Some false ->
     Loaders.smartPreloadGLTF fetch preload path ms s
     = (Some (Fulfilled false), s)) /\
    (Loaders.checkGLTFExists fetch path = Some true ->
     Loaders.smartPreloadGLTF fetch preload path ms s
     = safePreloadGLTF preload path ms s) /\
    (forall e, fetch path = Some (Canvas.Throws e) ->
               Loaders.smartPreloadGLTF fetch preload path ms s
               = (Some (Fulfilled false), s)) /\
    (fetch path = None ->
     Loaders.smartPreloadGLTF fetch preload path ms s = (None, s)) /\
    (fst (Loaders.smartPreloadGLTF fetch preload path ms s)
     = Some (Fulfilled true) <->
     fetch path = Some (Canvas.Returns true) /\ preload path = None).
Proof.
  intros fetch path ms s.
  pose proof (safePreloadGLTF_run path ms s) as R.
  unfold Loaders.smartPreloadGLTF, Loaders.checkGLTFExists.
  destruct (fetch path) as [[[|]|e]|]; cbn -[safePreloadGLTF];
    rewrite ?R; destruct (preload path) as [error|];
    cbn; repeat split; intros; try reflexivity; try discriminate;
    try (destruct H; discriminate); try congruence.
Qed.

(** X22: the effect of the Safe objects always ends the checking. The
    procedural model is chosen exactly when Safe Mode is on or the model
    does not load; in Safe Mode, and after a successful load, the store is
    untouched, while a failed load outside Safe Mode turns Safe Mode on.
    The GLTF components call [useSafeGLTF(path, false)], which never writes
    to the store. *)
Theorem safe_object_choice :
  forall (useGLTF : string -> Canvas.Call JsValue) (path : string)
         (s : AppState),
    Loaders.isChecking (fst (Loaders.safeObjectEffect preload path s)) = false /\
    Loaders.useProcedural (fst (Loaders.safeObjectEffect preload path s))
    = safeMode s || negb (loads preload path) /\
    (safeMode s = true \/ loads preload path = true ->
     snd (Loaders.safeObjectEffect preload path s) = s) /\
    (safeMode s = false -> loads preload path = false ->
     safeMode (snd (Loaders.safeObjectEffect preload path s)) = true) /\
    snd (Loaders.useSafeGLTF useGLTF path false s) = s.
Proof.
  intros useGLTF path s.
  assert (U : snd (Loaders.useSafeGLTF useGLTF path false s) = s).
  { unfold Loaders.useSafeGLTF. destruct (useGLTF path); reflexivity. }
  unfold Loaders.safeObjectEffect.
  destruct (safeMode s) eqn:Hs.
  - repeat split; intros; try reflexivity; try exact U. discriminate.
  - rewrite safePreloadGLTF_run. unfold loads.
    destruct (preload path) as [error|]; repeat split; intros;
      try reflexivity; try discriminate; try exact U.
    destruct H; discriminate.
Qed.

End LoaderFacts.

(** ** Sessions *)

Import SessionSpec.

Lemma timeoutCount_setState :
  forall (u : AppState -> Patch) (w : Boot.World),
    Boot.timeoutCount (Boot.setState u w)
    = (Boot.timeoutCount w
       + if Boot.isTimeoutPatch (u (Boot.store w)) then 1 else 0)%nat.
Proof.
  intros u w. unfold Boot.timeoutCount.
  destruct (setState_store u w) as [_ L]. rewrite L.
  rewrite filter_app, length_app. cbn [filter].
  destruct (Boot.isTimeoutPatch (u (Boot.store w))); reflexivity.
Qed.

Lemma setState_quiet :
  forall (u : AppState -> Patch) (w : Boot.World),
    Quiet w -> Quiet (Boot.setState u w).
Proof.
  intros u w [L T]. destruct w as [s n ts nid ls ref ig bm lg].
  cbn in L, T. subst ls ts.
  unfold Boot.setState, Boot.notify. cbn.
  destruct (Bool.eqb (isBooting s) _); [split; reflexivity|].
  cbn. destruct (orKeep _ _); [split; reflexivity|].
  destruct ref; split; reflexivity.
Qed.

Lemma setState_armed :
  forall (u : AppState -> Patch) (w : Boot.World),
    Armed w ->
    (Armed (Boot.setState u w) /\
     (isBooting (Boot.store w) = true ->
      isBooting (set_ (u (Boot.store w)) (Boot.store w)) = true)) \/
    Quiet (Boot.setState u w).
Proof.
  intros u w [L [T R]]. destruct w as [s n ts nid ls ref ig bm lg].
  cbn in L, T, R. subst ls ts ref.
  unfold Boot.setState, Boot.notify. cbn.
  destruct (isBooting s) eqn:B;
    destruct (orKeep (p_isBooting (u s)) true) eqn:B';
    destruct (orKeep (p_isBooting (u s)) false) eqn:B''; cbn;
    try (left; split; [repeat split|intros; congruence]; fail);
    try (right; split; reflexivity; fail);
    try (left; split; [repeat split|intros; discriminate]; fail).
Qed.

Lemma quiet_setState :
  forall (c : nat) (u : AppState -> Patch) (w : Boot.World),
    NoTimeout u -> QuietAt c w -> QuietAt c (Boot.setState u w).
Proof.
  intros c u w Hu [Q C]. split; [apply setState_quiet; exact Q|].
  rewrite timeoutCount_setState, Hu. lia.
Qed.

Lemma good_setState :
  forall (u : AppState -> Patch) (w : Boot.World),
    NoTimeout u ->
    ArmedZero w \/ QuietAt 0 w ->
    ArmedZero (Boot.setState u w) \/ QuietAt 0 (Boot.setState u w).
Proof.
  intros u w Hu [[A C]|Q].
  - assert (C' : Boot.timeoutCount (Boot.setState u w) = 0%nat)
      by (rewrite timeoutCount_setState, Hu; lia).
    destruct (setState_armed u w A) as [[A' _]|Q'].
    + left. split; assumption.
    + right. split; assumption.
  - right. apply quiet_setState; assumption.
Qed.

Lemma noTimeout_patches :
  NoTimeout (fun _ => patchBooting false) /\
  NoTimeout (fun _ => patchSafe true) /\
  NoTimeout (fun _ => patchError (Some WEBGL_FAIL)) /\
  NoTimeout (fun _ => patchError (Some ASSET_TIMEOUT)) /\
  NoTimeout (fun _ => patchError (Some INIT_ERROR)) /\
  NoTimeout (fun _ => patchRetry) /\
  NoTimeout (fun _ => patchProtocolWarning true).
Proof. repeat split. Qed.

Ltac no_timeout :=
  first [ exact (proj1 noTimeout_patches)
        | exact (proj1 (proj2 noTimeout_patches))
        | exact (proj1 (proj2 (proj2 noTimeout_patches)))
        | exact (proj1 (proj2 (proj2 (proj2 noTimeout_patches))))
        | exact (proj1 (proj2 (proj2 (proj2 (proj2 noTimeout_patches)))))
        | exact (proj1 (proj2 (proj2 (proj2 (proj2 (proj2 noTimeout_patches))))))
        | exact (proj2 (proj2 (proj2 (proj2 (proj2 (proj2 noTimeout_patches)))))) ].

Lemma advance_quiet :
  forall (c : nat) (t : Z) (w : Boot.World),
    QuietAt c w ->
    QuietAt c (Boot.advanceTo t w) /\
    Boot.store (Boot.advanceTo t w) = Boot.store w.
Proof.
  intros c t w [[L T] C]. destruct w as [s n ts nid ls ref ig bm lg].
  cbn in L, T. subst ls ts. unfold Boot.advanceTo. cbn -[Z.max].
  split; [split; [split; reflexivity|exact C]|reflexivity].
Qed.

Lemma advance_armed :
  forall (t : Z) (w : Boot.World),
    ArmedZero w ->
    (t < 8000 /\ ArmedZero (Boot.advanceTo t w) /\
     Boot.store (Boot.advanceTo t w) = Boot.store w) \/
    (8000 <= t /\ isBooting (Boot.store w) = true /\
     QuietAt 1 (Boot.advanceTo t w) /\
     bootView (Boot.store (Boot.advanceTo t w))
     = (Degraded, Some BOOT_TIMEOUT, true)) \/
    (8000 <= t /\ isBooting (Boot.store w) = false /\
     QuietAt 0 (Boot.advanceTo t w) /\
     Boot.store (Boot.advanceTo t w) = Boot.store w).
Proof.
  intros t w [[L [T R]] C]. destruct w as [s n ts nid ls ref ig bm lg].
  cbn in L, T, R. subst ls ts ref. unfold Boot.timeoutCount in C. cbn in C.
  destruct s as [b e sm pw d dv cr ap ho ui wm lp prm mob sd ov th].
  unfold Boot.advanceTo, sceneWatchdogTimer. cbn -[Z.leb Z.max].
  destruct (Z.leb_spec 8000 t) as [Ht|Ht].
  - right. destruct b.
    + left. split; [exact Ht|]. split; [reflexivity|].
      unfold QuietAt, Quiet, Boot.timeoutCount.
      cbn -[Z.max]. rewrite !filter_app, !length_app, C. cbn. repeat split.
    + right. split; [exact Ht|]. split; [reflexivity|].
      unfold QuietAt, Quiet, Boot.timeoutCount. cbn -[Z.max].
      rewrite C. repeat split.
  - left. split; [exact Ht|]. cbn -[Z.max].
    unfold ArmedZero, Armed, Boot.timeoutCount, sceneWatchdogTimer. cbn -[Z.max].
    repeat split. exact C.
Qed.

Lemma step_quiet :
  forall (env : Env) (c : nat) (ev : Session.Event) (w : Boot.World),
    QuietAt c w -> QuietAt c (Session.step env w ev).
Proof.
  intros env c ev w Q. destruct ev as [dev gl camera| |timedOut| | |t];
    cbn [Session.step].
  - unfold Canvas.handleCanvasCreated.
    destruct (Canvas.probe dev gl camera);
      unfold Boot.setBooting, Boot.setError, Boot.setSafe;
      repeat (apply quiet_setState; [no_timeout|]); exact Q.
  - unfold Boot.setBooting. apply quiet_setState; [no_timeout|exact Q].
  - unfold Boot.setSafe, Boot.setError. destruct timedOut;
      repeat (apply quiet_setState; [no_timeout|]); exact Q.
  - unfold Boot.setSafe, Boot.setError.
    repeat (apply quiet_setState; [no_timeout|]); exact Q.
  - unfold Boot.retryBootTS, Boot.initializeBootTS.
    destruct (String.eqb (protocol env) "file:");
      repeat (apply quiet_setState; [no_timeout|]); exact Q.
  - apply advance_quiet. exact Q.
Qed.

Lemma step_good :
  forall (env : Env) (ev : Session.Event) (w : Boot.World),
    (forall t, ev <> Session.ClockReaches t) ->
    ArmedZero w \/ QuietAt 0 w ->
    ArmedZero (Session.step env w ev) \/ QuietAt 0 (Session.step env w ev).
Proof.
  intros env ev w Hev G. destruct ev as [dev gl camera| |timedOut| | |t];
    cbn [Session.step].
  - unfold Canvas.handleCanvasCreated.
    destruct (Canvas.probe dev gl camera);
      unfold Boot.setBooting, Boot.setError, Boot.setSafe;
      repeat (apply good_setState; [no_timeout|]); exact G.
  - unfold Boot.setBooting. apply good_setState; [no_timeout|exact G].
  - unfold Boot.setSafe, Boot.setError. destruct timedOut;
      repeat (apply good_setState; [no_timeout|]); exact G.
  - unfold Boot.setSafe, Boot.setError.
    repeat (apply good_setState; [no_timeout|]); exact G.
  - unfold Boot.retryBootTS, Boot.initializeBootTS.
    destruct (String.eqb (protocol env) "file:");
      repeat (apply good_setState; [no_timeout|]); exact G.
  - exfalso. apply (Hev t). reflexivity.
Qed.

Lemma step_inv :
  forall (env : Env) (ev : Session.Event) (w : Boot.World),
    SessionInv w -> SessionInv (Session.step env w ev).
Proof.
  intros env ev w [A|[c [Hc Q]]].
  - assert (N : (forall t, ev <> Session.ClockReaches t) ->
                SessionInv (Session.step env w ev)).
    { intros Hev.
      destruct (step_good env ev w Hev (or_introl A)) as [A'|Q'].
      - left. exact A'.
      - right. exists 0%nat. split; [lia|exact Q']. }
    destruct ev as [dev gl camera| |timedOut| | |t];
      try (apply N; discriminate).
    cbn [Session.step].
    destruct (advance_armed t w A) as [[_ [A' _]]|[[_ [_ [Q' _]]]|[_ [_ [Q' _]]]]].
    + left. exact A'.
    + right. exists 1%nat. split; [lia|exact Q'].
    + right. exists 0%nat. split; [lia|exact Q'].
  - right. exists c. split; [exact Hc|]. apply step_quiet. exact Q.
Qed.

Lemma run_inv :
  forall (env : Env) (events : list Session.Event) (w : Boot.World),
    SessionInv w -> SessionInv (Session.run env events w).
Proof.
  intros env events. induction events as [|ev rest IH]; intros w H.
  - exact H.
  - cbn [Session.run fold_left]. apply IH. apply step_inv. exact H.
Qed.

Lemma run_quiet :
  forall (env : Env) (c : nat) (events : list Session.Event) (w : Boot.World),
    QuietAt c w -> QuietAt c (Session.run env events w).
Proof.
  intros env c events. induction events as [|ev rest IH]; intros w H.
  - exact H.
  - cbn [Session.run fold_left]. apply IH. apply step_quiet. exact H.
Qed.

Lemma mounted_armed :
  forall s : AppState, ArmedZero (Boot.sceneMount (Boot.freshWorld s)).
Proof. intros s. repeat split. Qed.

Lemma completion_disarms :
  forall w : Boot.World,
    ArmedZero w -> isBooting (Boot.store w) = true ->
    QuietAt 0 (Boot.setBooting false w).
Proof.
  intros w [[L [T R]] C] B. destruct w as [s n ts nid ls ref ig bm lg].
  cbn in L, T, R, B. subst ls ts ref. unfold Boot.timeoutCount in C. cbn in C.
  unfold Boot.setBooting, Boot.setState, Boot.notify. cbn. rewrite B. cbn.
  unfold QuietAt, Quiet, Boot.timeoutCount. cbn.
  rewrite filter_app, length_app, C. repeat split.
Qed.

(** X23: whatever happens after [Scene] has mounted (canvas creation,
    BootMark, failing loads, retries, time passing, in any order and
    number), BOOT_TIMEOUT is written at most once in the session. When the
    first event ends Booting, or the clock never reaches 8000 ms, it is
    never written at all, retries included. *)
Theorem session_times_out_at_most_once :
  forall (env : Env) (s : AppState) (events : list Session.Event),
    let mounted := Boot.sceneMount (Boot.freshWorld s) in
    (Boot.timeoutCount (Session.run env events mounted) <= 1)%nat /\
    (isBooting s = true ->
     Boot.timeoutCount
       (Session.run env (Session.BootMarkFired :: events) mounted) = 0%nat) /\
    ((forall t, In (Session.ClockReaches t) events -> t < 8000) ->
     Boot.timeoutCount (Session.run env events mounted) = 0%nat).
Proof.
  intros env s events. cbv zeta.
  pose proof (mounted_armed s) as A.
  split; [|split].
  - destruct (run_inv env events _ (or_introl A)) as [[_ C]|[c [Hc [_ C]]]]; lia.
  - intros B. cbn [Session.run fold_left Session.step].
    apply (run_quiet env 0 events).
    apply completion_disarms; [exact A|exact B].
  - intros Hev.
    assert (G : forall w,
               ArmedZero w \/ QuietAt 0 w ->
               ArmedZero (Session.run env events w)
               \/ QuietAt 0 (Session.run env events w)).
    { induction events as [|ev rest IH]; intros w Hw; [exact Hw|].
      cbn [Session.run fold_left]. apply IH.
      - intros t Ht. apply Hev. right. exact Ht.
      - destruct ev as [dev gl camera| |timedOut| | |t].
        6:{ cbn [Session.step]. destruct Hw as [Aw|Qw].
            - destruct (advance_armed t w Aw) as [[_ [A' _]]|[[Ht _]|[Ht _]]].
              + left. exact A'.
              + specialize (Hev t (or_introl eq_refl)). lia.
              + specialize (Hev t (or_introl eq_refl)). lia.
            - right. apply advance_quiet. exact Qw. }
        all: apply step_good; [discriminate|exact Hw]. }
    destruct (G _ (or_introl A)) as [[_ C]|[_ C]]; exact C.
Qed.

(** ** The safety net *)

Ltac split_clock :=
  repeat (match goal with
          | |- context [Z.leb ?a ?b] => destruct (Z.leb_spec a b); try lia
          | |- context [Z.ltb ?a ?b] => destruct (Z.ltb_spec a b); try lia
          end; cbn -[Z.leb Z.ltb Z.max Z.add]).

Ltac open_clock :=
  unfold Boot.advanceTo, Boot.bootMarkEffect, Boot.sceneMount,
    Boot.watchdogEffect, Boot.freshWorld;
  cbn -[Z.leb Z.ltb Z.max Z.add].

Lemma bootMark_in_time :
  forall (s : AppState) (d t : Z),
    0 <= d -> d + 100 < 8000 -> d + 100 <= t ->
    let marked := Boot.bootMarkEffect
                    (Boot.advanceTo d (Boot.sceneMount (Boot.freshWorld s))) in
    Boot.store (Boot.advanceTo t marked) = TS.complete s /\
    Boot.timeoutCount (Boot.advanceTo t marked) = 0%nat.
Proof.
  intros s d t Hd Hlt Ht. cbv zeta.
  destruct s as [b e sm pw dp dv cr ap ho ui wm lp prm mob sd ov th].
  destruct b; open_clock; split_clock; split; reflexivity.
Qed.

Lemma bootMark_too_late :
  forall (s : AppState) (d t : Z),
    isBooting s = true -> 0 <= d -> 8000 < d + 100 -> d + 100 <= t ->
    let marked := Boot.bootMarkEffect
                    (Boot.advanceTo d (Boot.sceneMount (Boot.freshWorld s))) in
    bootView (Boot.store (Boot.advanceTo t marked))
    = (Degraded, Some BOOT_TIMEOUT, true) /\
    Boot.timeoutCount (Boot.advanceTo t marked) = 1%nat.
Proof.
  intros s d t Hs Hd Hlt Ht. cbv zeta.
  destruct s as [b e sm pw dp dv cr ap ho ui wm lp prm mob sd ov th].
  cbn in Hs. subst b. open_clock; split_clock; split; reflexivity.
Qed.

Lemma bootMark_always_ends :
  forall (s : AppState) (d t : Z),
    0 <= d -> d + 100 <= t ->
    let marked := Boot.bootMarkEffect
                    (Boot.advanceTo d (Boot.sceneMount (Boot.freshWorld s))) in
    isBooting (Boot.store (Boot.advanceTo t marked)) = false.
Proof.
  intros s d t Hd Ht. cbv zeta.
  destruct s as [b e sm pw dp dv cr ap ho ui wm lp prm mob sd ov th].
  destruct b; open_clock; split_clock; reflexivity.
Qed.

Lemma bootMark_not_before :
  forall (s : AppState) (d t : Z),
    0 <= d -> d <= t -> t < d + 100 -> t < 8000 ->
    let marked := Boot.bootMarkEffect
                    (Boot.advanceTo d (Boot.sceneMount (Boot.freshWorld s))) in
    Boot.store (Boot.advanceTo t marked) = s.
Proof.
  intros s d t Hd Hdt Ht Ht'. cbv zeta.
  destruct s as [b e sm pw dp dv cr ap ho ui wm lp prm mob sd ov th].
  destruct b; open_clock; split_clock; reflexivity.
Qed.

Lemma bootMark_after_canvas :
  forall (dev : bool) (gl : option Canvas.Renderer)
         (camera : option Canvas.Camera) (s : AppState) (d t : Z),
    0 <= d -> d + 100 <= t ->
    let created := Canvas.handleCanvasCreated dev gl camera
                     (Boot.sceneMount (Boot.freshWorld s)) in
    let marked := Boot.bootMarkEffect (Boot.advanceTo d created) in
    Boot.store (Boot.advanceTo t marked) = Boot.store created /\
    Boot.timeoutCount (Boot.advanceTo t marked) = 0%nat.
Proof.
  intros dev gl camera s d t Hd Ht. cbv zeta.
  destruct s as [b e sm pw dp dv cr ap ho ui wm lp prm mob sd ov th].
  unfold Canvas.handleCanvasCreated.
  destruct (Canvas.probe dev gl camera) as [[]|err];
    destruct b; open_clock; split_clock; split; reflexivity.
Qed.

Lemma bootMark_under_strict_mode :
  forall (s : AppState) (d t : Z),
    0 <= d -> d + 100 <= t ->
    let marked := Boot.bootMarkEffect
                    (Boot.advanceTo d (Boot.sceneStrictMount (Boot.freshWorld s))) in
    Boot.bootMarkEffect marked = marked /\
    Boot.store (Boot.advanceTo t marked) = TS.complete s /\
    Boot.timeoutCount (Boot.advanceTo t marked) = 0%nat.
Proof.
  intros s d t Hd Ht. cbv zeta.
  destruct s as [b e sm pw dp dv cr ap ho ui wm lp prm mob sd ov th].
  split; [reflexivity|].
  destruct b; unfold Boot.sceneStrictMount; open_clock; split_clock;
    split; reflexivity.
Qed.

(** X24: [BootMark] mounts inside the canvas, [d] ms after the effects of
    [Scene] ran, and reports completion 100 ms later; from then on the
    store has left Booting. When that is before the watchdog's deadline
    ([d + 100 < 8000]) the store is the one before with [isBooting] false
    and no timeout is written; when it is after the deadline and the store
    was Booting, the watchdog has written BOOT_TIMEOUT once and the late
    completion leaves Degraded in place. Until BootMark's timer and the
    deadline are due the store is as it was. Under the replay of
    [React.StrictMode], which disarms the watchdog, the completion comes
    however late with no timeout. Coming after [handleCanvasCreated],
    BootMark leaves the store exactly as the handler left it: it does not
    wipe a failed probe. *)
Theorem bootMark_ends_booting :
  forall (dev : bool) (gl : option Canvas.Renderer)
         (camera : option Canvas.Camera) (s : AppState) (d t : Z),
    0 <= d -> d + 100 <= t ->
    let mounted := Boot.sceneMount (Boot.freshWorld s) in
    let marked := Boot.bootMarkEffect (Boot.advanceTo d mounted) in
    let strictMarked :=
      Boot.bootMarkEffect
        (Boot.advanceTo d (Boot.sceneStrictMount (Boot.freshWorld s))) in
    let created := Canvas.handleCanvasCreated dev gl camera mounted in
    let createdMarked := Boot.bootMarkEffect (Boot.advanceTo d created) in
    isBooting (Boot.store (Boot.advanceTo t marked)) = false /\
    (d + 100 < 8000 ->
     Boot.store (Boot.advanceTo t marked) = TS.complete s /\
     Boot.timeoutCount (Boot.advanceTo t marked) = 0%nat) /\
    (isBooting s = true -> 8000 < d + 100 ->
     bootView (Boot.store (Boot.advanceTo t marked))
     = (Degraded, Some BOOT_TIMEOUT, true) /\
     Boot.timeoutCount (Boot.advanceTo t marked) = 1%nat) /\
    (forall t' : Z,
        d <= t' -> t' < d + 100 -> t' < 8000 ->
        Boot.store (Boot.advanceTo t' marked) = s) /\
    (Boot.store (Boot.advanceTo t strictMarked) = TS.complete s /\
     Boot.timeoutCount (Boot.advanceTo t strictMarked) = 0%nat) /\
    Boot.store (Boot.advanceTo t createdMarked) = Boot.store created /\
    Boot.timeoutCount (Boot.advanceTo t createdMarked) = 0%nat.
Proof.
  intros dev gl camera s d t Hd Ht. cbv zeta.
  split; [exact (bootMark_always_ends s d t Hd Ht)|].
  split; [intros H; exact (bootMark_in_time s d t Hd H Ht)|].
  split; [intros Hs H; exact (bootMark_too_late s d t Hs Hd H Ht)|].
  split; [intros t' H1 H2 H3; exact (bootMark_not_before s d t' Hd H1 H2 H3)|].
  split; [exact (proj2 (bootMark_under_strict_mode s d t Hd Ht))|].
  exact (bootMark_after_canvas dev gl camera s d t Hd Ht).
Qed.

Lemma bootMark_ends_booting_witness :
  0 <= 50 /\ 50 + 100 <= 150 /\ 50 + 100 < 8000 /\
  Boot.store
    (Boot.advanceTo 150
       (Boot.bootMarkEffect
          (Boot.advanceTo 50 (Boot.sceneMount (Boot.freshWorld (initialState 0))))))
  = TS.complete (initialState 0).
Proof.
  assert (H1 : 0 <= 50) by lia.
  assert (H2 : 50 + 100 <= 150) by lia.
  assert (H3 : 50 + 100 < 8000) by lia.
  split; [exact H1|]. split; [exact H2|]. split; [exact H3|].
  pose proof (bootMark_ends_booting false None None (initialState 0) 50 150 H1 H2)
    as T.
  cbv zeta in T. destruct T as [_ [A _]]. destruct (A H3) as [B _]. exact B.
Defined.

(** X25: once the cleanup of [Scene]'s watchdog effect has run, a second run
    of the effect does not arm the watchdog again, [initGuardRef] being
    set: no timer is pending, and however far the clock runs the store is
    not changed and no timeout is written. *)
Theorem remounted_scene_has_no_watchdog :
  forall (s : AppState) (t : Z),
    let remounted :=
      Boot.subscribeEffect
        (Boot.watchdogEffect
           (Boot.watchdogCleanup
              (Boot.watchdogEffect (Boot.freshWorld s)))) in
    Boot.timers remounted = [] /\
    Boot.watchdogRef remounted = None /\
    Boot.store (Boot.advanceTo t remounted) = s /\
    Boot.timeoutCount (Boot.advanceTo t remounted) = 0%nat.
Proof.
  intros s t. cbv zeta. unfold Boot.advanceTo. cbn -[Z.max]. repeat split.
Qed.



(** ** What Safe Mode delivers *)

(** X7: in Safe Mode the scene runs without shadows, antialiasing,
    post-processing, mood lights and zoom, at pixel ratio 1, with a 512
    shadow map and bloom 0, whatever the device flags are; two main objects
    are laid out, no decorative object reaches the scene, and the Safe
    objects take their procedural model without touching the store. *)
Theorem safe_mode_features :
  forall (sqrt : Q -> Q) (dev : bool) (preload : Gltf.Preload) (path : string)
         (s : AppState),
    safeMode s = true ->
    SceneView.rendering s
    = {| SceneView.shadows := false; SceneView.dprMax := 1;
         SceneView.antialias := false; SceneView.performanceMin := 2 # 10;
         SceneView.enableZoom := false; SceneView.environmentBlur := 8 # 10;
         SceneView.castShadow := false; SceneView.shadowMapSize := 512;
         SceneView.moodLights := false; SceneView.postProcessing := false |} /\
    Store.bloomStrength s = 0%Q /\
    Quality.mainObjectCount (safeMode s) (lowPowerMode s) (isMobile s) = 2 /\
    snd (Layout.rendered sqrt dev s) = [] /\
    Loaders.safeObjectEffect preload path s
    = ({| Loaders.useProcedural := true; Loaders.isChecking := false |}, s).
Proof.
  intros sqrt dev preload path s H.
  split; [|split; [|split; [|split]]].
  - unfold SceneView.rendering. rewrite H.
    rewrite !orb_true_r, !andb_false_r. reflexivity.
  - unfold Store.bloomStrength. rewrite H, orb_true_r. reflexivity.
  - rewrite H. reflexivity.
  - unfold Layout.rendered. rewrite H. destruct (objectsVisible s); reflexivity.
  - unfold Loaders.safeObjectEffect. rewrite H. reflexivity.
Qed.

Lemma safe_mode_features_witness :
  safeMode (TS.fail BOOT_TIMEOUT (initialState 0)) = true /\
  Store.bloomStrength (TS.fail BOOT_TIMEOUT (initialState 0)) = 0%Q.
Proof.
  assert (H : safeMode (TS.fail BOOT_TIMEOUT (initialState 0)) = true)
    by reflexivity.
  split; [exact H|].
  destruct (safe_mode_features (fun x => x) false (fun _ => None) "/models/ring.glb"
              (TS.fail BOOT_TIMEOUT (initialState 0)) H) as [_ [A _]].
  exact A.
Defined.

(** ** Instances *)


Lemma generatePositions_inside_bounds_witness :
  (Layout.minX Layout.layoutBounds < Layout.maxX Layout.layoutBounds)%Q /\
  (Layout.minZ Layout.layoutBounds < Layout.maxZ Layout.layoutBounds)%Q /\
  LayoutSpec.Holds LayoutSpec.Inv
    (Layout.generatePositions (fun x => x) false 2 Layout.layoutBounds 2)
    (Forall (LayoutSpec.InBounds Layout.layoutBounds)).
Proof.
  assert (HX : (Layout.minX Layout.layoutBounds < Layout.maxX Layout.layoutBounds)%Q)
    by reflexivity.
  assert (HZ : (Layout.minZ Layout.layoutBounds < Layout.maxZ Layout.layoutBounds)%Q)
    by reflexivity.
  split; [exact HX|]. split; [exact HZ|].
  exact (generatePositions_inside_bounds (fun x => x) false 2
           Layout.layoutBounds 2 HX HZ).
Defined.

Lemma objectLayout_counts_witness :
  objectsVisible (Store.toggleObjectsVisible (initialState 0)) = false /\
  Layout.rendered (fun x => x) false (Store.toggleObjectsVisible (initialState 0))
  = ([], []).
Proof.
  assert (H : objectsVisible (Store.toggleObjectsVisible (initialState 0)) = false)
    by reflexivity.
  split; [exact H|].
  pose proof (objectLayout_counts (fun x => x) false
                (Store.toggleObjectsVisible (initialState 0))) as T.
  cbv zeta in T. destruct T as [_ [_ [_ [_ A]]]]. apply A. exact H.
Defined.

Lemma objectLayout_wellformed_witness :
  Z.rem (seed (initialState 4711)) 2147483647 <> -2147483646 /\
  Forall LayoutSpec.MainOk
    (Layout.mainObjects (Layout.objectLayout (fun x => x) true (initialState 4711))).
Proof.
  assert (H : Z.rem (seed (initialState 4711)) 2147483647 <> -2147483646)
    by discriminate.
  split; [exact H|].
  destruct (objectLayout_wellformed (fun x => x) true (initialState 4711) H)
    as [A _].
  exact A.
Defined.

Lemma cluster_places_every_object_witness :
  (Layout.minX Layout.layoutBounds < Layout.maxX Layout.layoutBounds)%Q /\
  (Layout.minZ Layout.layoutBounds < Layout.maxZ Layout.layoutBounds)%Q /\
  0 <= 7 /\
  Forall (LayoutSpec.InBounds Layout.layoutBounds)
    (fst (Cluster.generatePositions (fun x => x) 3 Layout.layoutBounds 2 30 7)).
Proof.
  assert (HX : (Layout.minX Layout.layoutBounds < Layout.maxX Layout.layoutBounds)%Q)
    by reflexivity.
  assert (HZ : (Layout.minZ Layout.layoutBounds < Layout.maxZ Layout.layoutBounds)%Q)
    by reflexivity.
  assert (H7 : 0 <= 7) by lia.
  split; [exact HX|]. split; [exact HZ|]. split; [exact H7|].
  destruct (cluster_places_every_object (fun x => x) 3 30 Layout.layoutBounds 2 7)
    as [_ A].
  exact (A HX HZ H7).
Defined.


Lemma withRetry_without_attempts_witness :
  -1 < 0 /\
  Retry.calls
    (Retry.withRetry (fun _ : nat => Some (Guard.Fulfilled 1%nat)) (-1) 1000)
  = 0%nat.
Proof.
  assert (H : -1 < 0) by lia.
  split; [exact H|].
  rewrite (withRetry_without_attempts
             (fun _ : nat => Some (Guard.Fulfilled 1%nat)) (-1) 1000 H).
  reflexivity.
Defined.


Lemma safePreloadGLTF_ignores_its_timeout_witness :
  (fun _ : string => @None JsValue) "/models/ring.glb" = None /\
  Gltf.safePreloadGLTF (fun _ => None) "/models/ring.glb" 0 (initialState 0)
  = (Some (Guard.Fulfilled true), initialState 0).
Proof.
  assert (H : (fun _ : string => @None JsValue) "/models/ring.glb" = None)
    by reflexivity.
  split; [exact H|].
  destruct (safePreloadGLTF_ignores_its_timeout (fun _ => None)
              "/models/ring.glb" 0 5000 (initialState 0)) as [_ [A _]].
  exact (A H).
Defined.

Lemma batch_store_effect_witness :
  @nil string = [] /\ false = false /\
  safeMode (snd (Gltf.batchPreloadGLTF (fun _ => None) [] 5000 false
                   (initialState 0))) = true.
Proof.
  split; [reflexivity|]. split; [reflexivity|].
  pose proof (batch_store_effect (fun _ => None) [] 5000 false (initialState 0))
    as T.
  cbv zeta in T. destruct T as [_ [_ [_ [_ [_ A]]]]].
  destruct (A eq_refl eq_refl) as [B _]. exact B.
Defined.

Lemma smartPreloadGLTF_checks_first_witness :
  (fun _ : string => @None (Canvas.Call bool)) "/models/ring.glb" = None /\
  Loaders.smartPreloadGLTF (fun _ => None) (fun _ => None) "/models/ring.glb"
    5000 (initialState 0)
  = (None, initialState 0).
Proof.
  split; [reflexivity|].
  destruct (smartPreloadGLTF_checks_first (fun _ => None) (fun _ => None)
              "/models/ring.glb" 5000 (initialState 0)) as [_ [_ [_ [A _]]]].
  exact (A eq_refl).
Defined.

Lemma safe_object_choice_witness :
  (safeMode (initialState 0) = true
   \/ Gltf.loads (fun _ => None) "/models/ring.glb" = true) /\
  snd (Loaders.safeObjectEffect (fun _ => None) "/models/ring.glb"
         (initialState 0)) = initialState 0.
Proof.
  assert (H : safeMode (initialState 0) = true
              \/ Gltf.loads (fun _ => None) "/models/ring.glb" = true)
    by (right; reflexivity).
  split; [exact H|].
  destruct (safe_object_choice (fun _ => None)
              (fun _ => Canvas.Returns JsNull) "/models/ring.glb"
              (initialState 0)) as [_ [_ [A _]]].
  exact (A H).
Defined.

Lemma session_times_out_at_most_once_witness :
  isBooting (initialState 0) = true /\
  Boot.timeoutCount
    (Session.run {| protocol := "https:" |}
       [Session.BootMarkFired; Session.RetryClicked; Session.ClockReaches 20000]
       (Boot.sceneMount (Boot.freshWorld (initialState 0)))) = 0%nat.
Proof.
  assert (H : isBooting (initialState 0) = true) by reflexivity.
  split; [exact H|].
  pose proof (session_times_out_at_most_once {| protocol := "https:" |}
                (initialState 0)
                [Session.RetryClicked; Session.ClockReaches 20000]) as T.
  cbv zeta in T. destruct T as [_ [A _]]. exact (A H).
Defined.
